(** * PyWebScrapBook: tree store, full-text indexer and file lock

    A shallow embedding of [webscrapbook/scrapbook/book.py], [cache.py] and
    [host.py], with the properties of the book's storage format, of the
    incremental full-text cache generator and of the cooperative file lock.

    Conventions.
    - Python [str] is [string]; a character is a code point below 256.
    - Python [int] and time stamps are [Z]; counters that index shards or
      list positions are [nat].
    - A Python [dict] whose iteration order matters is an association list
      in insertion order; a dict that is only looked up is a [gmap].
    - Library and operating-system calls are parameters (class members or
      section variables); each [try]/[except] of the source is a [match] on
      the outcome of the call it guards. *)

From Stdlib Require Import ZArith Lia String Ascii List.
From stdpp Require Import gmap strings list pretty.
Import ListNotations.
Open Scope string_scope.
Open Scope list_scope.

(** * Part I: the program *)

(** ** cache.py: [MutatingDict]

    [class MutatingDict(UserDict)]: a dictionary that keeps the list [_keys]
    of its keys in first-insertion order beside [UserDict]'s [data], and
    iterates over that list.  [iter(self._keys)] is a list iterator: it holds
    the list object and a position, and [__next__] reads the live list at
    that position, so an append made during the loop is seen by the loop. *)

Module Frontier.
Section MutatingDict.
Context {V : Type}.

Record MutatingDict := mkMutatingDict { _keys : list string; data : gmap string V }.

(** [MutatingDict()]: [self._keys = []], then [UserDict.__init__] with no
    arguments. *)
Definition __init__ : MutatingDict := {| _keys := []; data := ∅ |}.

(** [key in self] ([UserDict.__contains__]: [key in self.data]). *)
Definition __contains__ (self : MutatingDict) (key : string) : bool :=
  bool_decide (is_Some (data self !! key)).

(** [self[key] = value]: append to [_keys] when the key is new, then store. *)
Definition __setitem__ (self : MutatingDict) (key : string) (value : V) : MutatingDict :=
  {| _keys := if __contains__ self key then _keys self else _keys self ++ [key];
     data := <[key := value]> (data self) |}.

(** [self.get(key)] ([Mapping.get]): [None] for an absent key. *)
Definition get (self : MutatingDict) (key : string) : option V := data self !! key.

(** [del self[key]] returns [NotImplemented] and changes nothing. *)
Definition __delitem__ (self : MutatingDict) (key : string) : MutatingDict := self.

(** One step of the list iterator returned by [__iter__], at position [i]:
    the key there and the next position, or [None] ([StopIteration]) when
    the position is past the end of the list as it is now. *)
Definition __next__ (self : MutatingDict) (i : nat) : option (string * nat) :=
  match _keys self !! i with
  | Some key => Some (key, S i)
  | None => None
  end.

(** A sequence of assignments [self[k] = v], in order. *)
Definition assign_all (kvs : list (string * V)) (self : MutatingDict) : MutatingDict :=
  fold_left (fun d kv => __setitem__ d (fst kv) (snd kv)) kvs self.

(** [for key in self: <body>] where the body, given the key and the current
    dictionary, performs the assignments [body key self].  Returns the keys
    the loop visited, the assignments made while it ran, and the final
    dictionary; [None] when [fuel] steps were not enough. *)
Fixpoint iterate (fuel : nat) (body : string -> MutatingDict -> list (string * V))
    (i : nat) (self : MutatingDict) (visited : list string) (log : list (string * V))
  : option (list string * list (string * V) * MutatingDict) :=
  match fuel with
  | O => None
  | S fuel' =>
      match __next__ self i with
      | None => Some (visited, log, self)
      | Some (key, i') =>
          let kvs := body key self in
          iterate fuel' body i' (assign_all kvs self) (visited ++ [key]) (log ++ kvs)
      end
  end.

(** The class invariant: [_keys] lists the keys of [data], each once. *)
Definition wf (self : MutatingDict) : Prop :=
  NoDup (_keys self) /\ forall k, k ∈ _keys self <-> is_Some (data self !! k).

End MutatingDict.
Arguments MutatingDict : clear implicits.
End Frontier.

(** The distinct elements of a list, each at the place of its first
    occurrence. *)
Fixpoint first_seen (l : list string) : list string :=
  match l with
  | [] => []
  | x :: l' => x :: filter (fun y => y <> x) (first_seen l')
  end.

(** ** host.py: [FileLock]

    The lock is a file [<locks>/<md5 of name>.lock]; only its existence and
    modification time matter.  Times are [Z] (a count of clock ticks); the
    operating system is an interface [OS] over a world [W], each call
    returning its outcome and the world after it. *)

Module Host.

(** The double quote character, for the messages the source formats. *)
Definition dq : string := String "034"%char EmptyString.

(** The exceptions [acquire], [extend] and [release] raise.  [NameError] is
    Python's own, raised when a name is looked up that no scope binds. *)
Inductive exn :=
| LockTimeoutError (msg name file : string)
| LockGenerateError (msg name file : string)
| LockRegenerateError (msg name file : string)
| LockExtendError (msg name file : string)
| LockExtendNotAcquiredError (msg name file : string)
| LockExtendNotFoundError (msg name file : string)
| LockReleaseError (msg name file : string)
| LockReleaseNotAcquiredError (msg name file : string)
| LockReleaseNotFoundError (msg name file : string)
| NameError (msg : string).

(** [isinstance(e, LockTimeoutError)]. *)
Definition is_LockTimeoutError (e : exn) : bool :=
  match e with LockTimeoutError _ _ _ => true | _ => false end.

(** [isinstance(e, LockGenerateError)]: [LockRegenerateError] is a subclass. *)
Definition is_LockGenerateError (e : exn) : bool :=
  match e with
  | LockGenerateError _ _ _ | LockRegenerateError _ _ _ => true
  | _ => false
  end.

(** [isinstance(e, LockError)]: every class the module declares. *)
Definition is_LockError (e : exn) : bool :=
  match e with NameError _ => false | _ => true end.

(** The lock an exception identifies ([name], [file]), when it carries one. *)
Definition lock_of (e : exn) : option (string * string) :=
  match e with
  | LockTimeoutError _ n f | LockGenerateError _ n f | LockRegenerateError _ n f
  | LockExtendError _ n f | LockExtendNotAcquiredError _ n f
  | LockExtendNotFoundError _ n f | LockReleaseError _ n f
  | LockReleaseNotAcquiredError _ n f | LockReleaseNotFoundError _ n f => Some (n, f)
  | NameError _ => None
  end.

(** The outcome of a call into the operating system, as the [except] clauses
    of the source tell them apart: success, [FileExistsError],
    [FileNotFoundError], or any other [OSError]. *)
Inductive os_outcome (A : Type) :=
| Done (a : A)
| FileExistsError
| FileNotFoundError
| OSError.
Arguments Done {A} a.
Arguments FileExistsError {A}.
Arguments FileNotFoundError {A}.
Arguments OSError {A}.

Class OS (W : Type) := {
  time_time : W -> Z * W;
  time_sleep : Z -> W -> W;
  os_path_dirname : string -> string;
  os_makedirs : string -> W -> os_outcome unit * W;
  (** [with open(file, 'x') as fh: pass] *)
  open_x : string -> W -> os_outcome unit * W;
  (** [os.stat(file).st_mtime] *)
  os_stat_mtime : string -> W -> os_outcome Z * W;
  os_utime : string -> W -> os_outcome unit * W;
  os_remove : string -> W -> os_outcome unit * W;
}.

Record FileLock := mkFileLock {
  name : string;
  timeout : Z;
  stale : Z;
  poll_interval : Z;
  file : string;
  _lock : bool;
}.

(** [self.locked] *)
Definition locked (self : FileLock) : bool := _lock self.

Definition set_lock (self : FileLock) (b : bool) : FileLock :=
  {| name := name self; timeout := timeout self; stale := stale self;
     poll_interval := poll_interval self; file := file self; _lock := b |}.

Inductive outcome (A : Type) :=
| Return (a : A)
| Raise (e : exn).
Arguments Return {A} a.
Arguments Raise {A} e.

(** How one pass through the body of [while True:] ends. *)
Inductive loop_exit :=
| Break
| Continue
| Throw (e : exn).

Section Acquire.
Context {W : Type} `{OS W}.

Definition timeout_error (self : FileLock) : exn :=
  LockTimeoutError ("timeout when acquiring lock " +:+ dq +:+ name self +:+ dq)
                   (name self) (file self).

Definition generate_error (self : FileLock) : exn :=
  LockGenerateError ("unable to create lock " +:+ dq +:+ name self +:+ dq)
                    (name self) (file self).

Definition regenerate_error (self : FileLock) : exn :=
  LockRegenerateError ("unable to regenerate stale lock " +:+ dq +:+ name self +:+ dq)
                      (name self) (file self).

(** The body of the [while True:] loop of [acquire] (lines 126-163). *)
Definition acquire_attempt (self : FileLock) (timeout_time : Z) (w : W) : loop_exit * W :=
  match open_x (file self) w with
  | (Done _, w1) => (Break, w1)
  | (FileExistsError, w1) =>
      let '(t, w2) := time_time w1 in
      if (t >=? timeout_time)%Z then (Throw (timeout_error self), w2)
      else
        match os_stat_mtime (file self) w2 with
        | (Done mtime, w3) =>
            let stale_time := (mtime + stale self)%Z in
            if (t >=? stale_time)%Z then
              match os_utime (file self) w3 with
              | (Done _, w4) => (Break, w4)
              | (_, w4) => (Throw (regenerate_error self), w4)
              end
            else (Continue, time_sleep (poll_interval self) w3)
        | (FileNotFoundError, w3) => (Continue, w3)
        | (_, w3) => (Throw (generate_error self), w3)
        end
  | (_, w1) => (Throw (generate_error self), w1)
  end.

(** [while True:] with the body above; [None] when [fuel] passes were not
    enough. *)
Fixpoint acquire_loop (fuel : nat) (self : FileLock) (timeout_time : Z) (w : W)
  : option (outcome unit * W) :=
  match fuel with
  | O => None
  | S fuel' =>
      match acquire_attempt self timeout_time w with
      | (Break, w') => Some (Return tt, w')
      | (Continue, w') => acquire_loop fuel' self timeout_time w'
      | (Throw e, w') => Some (Raise e, w')
      end
  end.

(** [FileLock.acquire] (lines 95-166).  The handler of a failed
    [os.makedirs] formats its message with [name], which no scope of
    [acquire] binds (the other handlers write [self.name]): evaluating the
    f-string raises [NameError] before [LockGenerateError] is constructed. *)
Definition acquire (fuel : nat) (self : FileLock) (w : W) : option (outcome FileLock * W) :=
  if _lock self then Some (Return self, w)
  else
    let '(now, w0) := time_time w in
    let timeout_time := (now + timeout self)%Z in
    let enter w1 :=
      match acquire_loop fuel self timeout_time w1 with
      | Some (Return _, w') => Some (Return (set_lock self true), w')
      | Some (Raise e, w') => Some (Raise e, w')
      | None => None
      end in
    match os_makedirs (os_path_dirname (file self)) w0 with
    | (Done _, w1) => enter w1
    | (FileExistsError, w1) => enter w1
    | (_, w1) => Some (Raise (NameError "name 'name' is not defined"), w1)
    end.

(** [FileLock.extend] *)
Definition extend (self : FileLock) (w : W) : outcome unit * W :=
  if negb (_lock self) then
    (Raise (LockExtendNotAcquiredError
              ("lock " +:+ dq +:+ name self +:+ dq +:+ " has not been acquired")
              (name self) (file self)), w)
  else
    match os_utime (file self) w with
    | (Done _, w') => (Return tt, w')
    | (FileNotFoundError, w') =>
        (Raise (LockExtendNotFoundError
                  ("file for lock " +:+ dq +:+ name self +:+ dq +:+ " does not exist")
                  (name self) (file self)), w')
    | (_, w') =>
        (Raise (LockExtendError ("unable to extend lock " +:+ dq +:+ name self +:+ dq)
                  (name self) (file self)), w')
    end.

(** [FileLock.release] *)
Definition release (self : FileLock) (w : W) : outcome FileLock * W :=
  if negb (_lock self) then
    (Raise (LockReleaseNotAcquiredError
              ("lock " +:+ dq +:+ name self +:+ dq +:+ " has not been acquired")
              (name self) (file self)), w)
  else
    match os_remove (file self) w with
    | (Done _, w') => (Return (set_lock self false), w')
    | (FileNotFoundError, w') =>
        (Raise (LockReleaseNotFoundError
                  ("file for lock " +:+ dq +:+ name self +:+ dq +:+ " does not exist")
                  (name self) (file self)), w')
    | (_, w') =>
        (Raise (LockReleaseError ("unable to release lock " +:+ dq +:+ name self +:+ dq)
                  (name self) (file self)), w')
    end.

End Acquire.

(** Drop the longest prefix whose elements satisfy [f]. *)
Fixpoint dropwhile_bool {A} (f : A -> bool) (l : list A) : list A :=
  match l with
  | [] => []
  | x :: l' => if f x then dropwhile_bool f l' else l
  end.

(** *** A file system with a clock

    One directory of lock files.  Reading the clock and file system calls
    take no time; [time.sleep] advances the clock.  [calls] records the
    calls made, latest last. *)

Inductive dir_state := DirMissing | DirPresent | DirDenied.

Inductive syscall :=
| CallTime
| CallSleep (seconds : Z)
| CallMakedirs (path : string)
| CallOpenX (path : string)
| CallStat (path : string)
| CallUtime (path : string)
| CallRemove (path : string).

Record sim := mkSim {
  clock : Z;
  locks_dir : dir_state;
  files : gmap string Z;
  calls : list syscall;
}.

Definition record_call (c : syscall) (w : sim) : sim :=
  {| clock := clock w; locks_dir := locks_dir w; files := files w;
     calls := calls w ++ [c] |}.

Definition set_files (fs : gmap string Z) (w : sim) : sim :=
  {| clock := clock w; locks_dir := locks_dir w; files := fs; calls := calls w |}.

Definition sim_makedirs (path : string) (w : sim) : os_outcome unit * sim :=
  let w := record_call (CallMakedirs path) w in
  match locks_dir w with
  | DirMissing =>
      (Done tt, {| clock := clock w; locks_dir := DirPresent; files := files w;
                   calls := calls w |})
  | DirPresent => (FileExistsError, w)
  | DirDenied => (OSError, w)
  end.

Definition sim_open_x (path : string) (w : sim) : os_outcome unit * sim :=
  let w := record_call (CallOpenX path) w in
  match files w !! path with
  | Some _ => (FileExistsError, w)
  | None =>
      match locks_dir w with
      | DirPresent => (Done tt, set_files (<[path := clock w]> (files w)) w)
      | _ => (FileNotFoundError, w)
      end
  end.

Definition sim_stat_mtime (path : string) (w : sim) : os_outcome Z * sim :=
  let w := record_call (CallStat path) w in
  match files w !! path with
  | Some mtime => (Done mtime, w)
  | None => (FileNotFoundError, w)
  end.

Definition sim_utime (path : string) (w : sim) : os_outcome unit * sim :=
  let w := record_call (CallUtime path) w in
  match files w !! path with
  | Some _ => (Done tt, set_files (<[path := clock w]> (files w)) w)
  | None => (FileNotFoundError, w)
  end.

Definition sim_remove (path : string) (w : sim) : os_outcome unit * sim :=
  let w := record_call (CallRemove path) w in
  match files w !! path with
  | Some _ => (Done tt, set_files (delete path (files w)) w)
  | None => (FileNotFoundError, w)
  end.

Definition sim_sleep (seconds : Z) (w : sim) : sim :=
  let w := record_call (CallSleep seconds) w in
  {| clock := (clock w + seconds)%Z; locks_dir := locks_dir w; files := files w;
     calls := calls w |}.

(** [posixpath.dirname]: everything up to the last slash, with trailing
    slashes removed unless the head consists of slashes only. *)
Definition posix_dirname (p : string) : string :=
  let is_slash (c : ascii) := Ascii.eqb c "/"%char in
  let head_rev := dropwhile_bool (fun c => negb (is_slash c)) (rev (list_ascii_of_string p)) in
  if forallb is_slash head_rev then string_of_list_ascii (rev head_rev)
  else string_of_list_ascii (rev (dropwhile_bool is_slash head_rev)).

#[global] Instance sim_OS : OS sim := {
  time_time w := (clock w, record_call CallTime w);
  time_sleep := sim_sleep;
  os_path_dirname := posix_dirname;
  os_makedirs := sim_makedirs;
  open_x := sim_open_x;
  os_stat_mtime := sim_stat_mtime;
  os_utime := sim_utime;
  os_remove := sim_remove;
}.

(** The calls of [k] passes that found the lock held and fresh. *)
Fixpoint wait_calls (self : FileLock) (k : nat) : list syscall :=
  match k with
  | O => []
  | S k' => [CallOpenX (file self); CallTime; CallStat (file self);
             CallSleep (poll_interval self)] ++ wait_calls self k'
  end.

Definition add_calls (cs : list syscall) (w : sim) : sim :=
  {| clock := clock w; locks_dir := locks_dir w; files := files w;
     calls := calls w ++ cs |}.

End Host.

(** ** Python dictionaries that are iterated

    A [dict] keeps its keys in insertion order: an association list without
    repeated keys.  Assigning to a present key keeps its place; assigning to
    a new key appends it. *)

Module PyDict.
Section Dict.
Context {V : Type}.

Definition dict := list (string * V).

(** [d.get(k)] *)
Fixpoint get (k : string) (d : dict) : option V :=
  match d with
  | [] => None
  | (k', v) :: d' => if String.eqb k k' then Some v else get k d'
  end.

(** [k in d] *)
Definition contains (k : string) (d : dict) : bool :=
  match get k d with Some _ => true | None => false end.

(** [d[k] = v] *)
Fixpoint set (k : string) (v : V) (d : dict) : dict :=
  match d with
  | [] => [(k, v)]
  | (k', v') :: d' => if String.eqb k k' then (k, v) :: d' else (k', v') :: set k v d'
  end.

(** [del d[k]], for a key that is present; nothing changes otherwise. *)
Fixpoint del (k : string) (d : dict) : dict :=
  match d with
  | [] => []
  | (k', v') :: d' => if String.eqb k k' then d' else (k', v') :: del k d'
  end.

(** [d.update(other)] *)
Definition update (d other : dict) : dict :=
  fold_left (fun acc kv => set (fst kv) (snd kv) acc) other d.

(** [list(d)] *)
Definition keys (d : dict) : list string := map fst d.

Definition wf (d : dict) : Prop := NoDup (keys d).

(** [d1 == d2], given the comparison of values: the same number of keys,
    and every key of [d1] in [d2] with an equal value. *)
Definition eqb (veqb : V -> V -> bool) (d1 d2 : dict) : bool :=
  (length d1 =? length d2)%nat &&
  forallb (fun kv => match get (fst kv) d2 with
                     | Some v' => veqb (snd kv) v'
                     | None => false
                     end) d1.

(** The same keys with the same values, in any order. *)
Definition same (d1 d2 : dict) : Prop := forall k, get k d1 = get k d2.

End Dict.
Arguments dict : clear implicits.
End PyDict.

(** ** Regular expressions, as Python's [re] matches them

    A backtracking matcher in continuation-passing style: alternatives are
    tried left to right, a star takes one more round before it tries what
    follows, and the first way that lets the whole pattern match is the
    match.  Only what [REGEX_TREE_FILE_PREFIX] uses is modelled: [^], [$],
    single characters and sets, [.], sequence, alternation, greedy [*] and
    [+], and one capturing group. *)

Module Re.

Inductive regex :=
| Bol                              (* ^ *)
| Eol                              (* $ *)
| Class (p : ascii -> bool)        (* one character of a set *)
| Seq (r1 r2 : regex)
| Alt (r1 r2 : regex)
| Star (r : regex)                 (* r*, greedy *)
| Group (r : regex).               (* ( r ), group 1 *)

Definition Chr (c : ascii) : regex := Class (Ascii.eqb c).
Definition NotChr (c : ascii) : regex := Class (fun x => negb (Ascii.eqb c x)).
(** [[\s\S]]: any character. *)
Definition Any : regex := Class (fun _ => true).
(** [.]: any character but a newline. *)
Definition Dot : regex := NotChr "010"%char.
(** [r+] *)
Definition Plus (r : regex) : regex := Seq r (Star r).

(** [\s] on [str]: the characters [str.isspace] accepts, below 256. *)
Definition is_space (c : ascii) : bool :=
  let n := nat_of_ascii c in
  (((9 <=? n) && (n <=? 13)) || ((28 <=? n) && (n <=? 32)) || (n =? 133) || (n =? 160))%nat.

(** Where the matcher stands: [pos] characters consumed, [rest] to come,
    and the span of group 1 when it has matched. *)
Record mstate := mkState { pos : nat; rest : list ascii; group1 : option (nat * nat) }.

Fixpoint run (r : regex) (st : mstate) (k : mstate -> option mstate) {struct r}
  : option mstate :=
  match r with
  | Bol => if (pos st =? 0)%nat then k st else None
  | Eol =>
      match rest st with
      | [] => k st
      | [c] => if Ascii.eqb c "010"%char then k st else None
      | _ => None
      end
  | Class p =>
      match rest st with
      | c :: tl => if p c then k (mkState (S (pos st)) tl (group1 st)) else None
      | [] => None
      end
  | Seq r1 r2 => run r1 st (fun st' => run r2 st' k)
  | Alt r1 r2 =>
      match run r1 st k with
      | Some m => Some m
      | None => run r2 st k
      end
  | Star r1 =>
      (fix rounds (n : nat) (st : mstate) {struct n} : option mstate :=
         match n with
         | O => k st
         | S n' =>
             match run r1 st (fun st' => if (pos st <? pos st')%nat then rounds n' st' else None) with
             | Some m => Some m
             | None => k st
             end
         end) (length (rest st)) st
  | Group r1 => run r1 st (fun st' => k (mkState (pos st') (rest st') (Some (pos st, pos st'))))
  end.

(** [pattern.match] at position [i] of [s]. *)
Definition match_at (r : regex) (s : list ascii) (i : nat) : option mstate :=
  run r (mkState i (drop i s) None) Some.

(** [pattern.search(text)]: the match at the least start position. *)
Fixpoint search_from (r : regex) (s : list ascii) (n i : nat) : option mstate :=
  match match_at r s i with
  | Some m => Some m
  | None =>
      match n with
      | O => None
      | S n' => search_from r s n' (S i)
      end
  end.

Definition search (r : regex) (text : string) : option mstate :=
  let s := list_ascii_of_string text in
  search_from r s (length s) 0.

(** [m.group(1)] *)
Definition group (text : string) (m : mstate) : string :=
  match group1 m with
  | Some (b, e) => string_of_list_ascii (take (e - b) (drop b (list_ascii_of_string text)))
  | None => ""
  end.

End Re.

(** ** book.py: the tree files

    The files of a book's tree directory are a finite map from path to
    node.  A node is a regular file with its text and modification time, or
    a directory: a path that exists, that [open] refuses with an [OSError]
    other than [FileNotFoundError], and that [os.remove] refuses likewise.
    [json.dumps] and [json.loads] are an interface; [re] is modelled
    above. *)

Module Tree.
Import PyDict.

Definition nl : string := String "010"%char EmptyString.
Definition dq : string := String "034"%char EmptyString.

#[local] Unset Elimination Schemes.
Inductive json :=
| JNull
| JBool (b : bool)
| JNum (n : Z)
| JStr (s : string)
| JArr (items : list json)
| JObj (members : list (string * json)).
#[local] Set Elimination Schemes.

(** What [json.loads] gives: a value, or [JSONDecodeError] with its text. *)
Inductive loads_result :=
| Loaded (v : json)
| JSONDecodeError (msg : string).

Class Json := {
  (** [json.dumps(data, ensure_ascii=False, indent=indent)] *)
  json_dumps : nat -> json -> string;
  json_loads : string -> loads_result;
}.

Inductive node :=
| File (text : string) (mtime : Z)
| Directory (mtime : Z).

Abbreviation filesystem := (gmap string node).

Definition node_mtime (n : node) : Z :=
  match n with File _ t => t | Directory t => t end.

Inductive exn :=
| FileNotFoundError (file : string)
| OSError (file : string)
| TreeFileIOError (msg : string)
| TreeFileMalformedError (msg : string)
| TypeError (msg : string).

Inductive outcome (A : Type) :=
| Ok (a : A)
| Raise (e : exn).
Arguments Ok {A} a.
Arguments Raise {A} e.

(** [isinstance(e, TreeFileError)] *)
Definition is_TreeFileError (e : exn) : bool :=
  match e with TreeFileIOError _ | TreeFileMalformedError _ => true | _ => false end.

(** [str(exc)] of the [OSError] a directory gives to [open]. *)
Definition os_error_text (file : string) : string :=
  "[Errno 21] Is a directory: '" +:+ file +:+ "'".

Definition malformed_msg (file : string) : string :=
  "malformed tree file " +:+ dq +:+ file +:+ dq.

(** The mappings a book holds in memory: record id to attributes, record
    id to child ids, record id to (path to extracted text; the
    [{'content': text}] of the source). *)
Abbreviation meta_t := (dict (dict string)).
Abbreviation toc_t := (dict (list string)).
Abbreviation fulltext_t := (dict (dict string)).

Record Book := mkBook {
  tree_dir : string;
  data_dir : string;
  SAVE_META_THRESHOLD : Z;
  SAVE_TOC_THRESHOLD : Z;
  SAVE_FULLTEXT_THRESHOLD : Z;
  meta : option meta_t;
  toc : option toc_t;
  fulltext : option fulltext_t;
}.

(** The class attributes as the source sets them. *)
Definition default_SAVE_META_THRESHOLD : Z := 256 * 1024.
Definition default_SAVE_TOC_THRESHOLD : Z := 4 * 1024 * 1024.
Definition default_SAVE_FULLTEXT_THRESHOLD : Z := 128 * 1024 * 1024.

(** [REGEX_TREE_FILE_PREFIX], token by token:
    [^ (?: C | [^(] )+ \( ( [\s\S]* ) \) (?: C | [\s;] )* $]
    where [C] is the one-line block comment [/\*.*\*/]. *)
Definition block_comment : Re.regex :=
  Re.Seq (Re.Chr "/") (Re.Seq (Re.Chr "*") (Re.Seq (Re.Star Re.Dot)
         (Re.Seq (Re.Chr "*") (Re.Chr "/")))).

Definition REGEX_TREE_FILE_PREFIX : Re.regex :=
  Re.Seq Re.Bol
    (Re.Seq (Re.Plus (Re.Alt block_comment (Re.NotChr "(")))
       (Re.Seq (Re.Chr "(")
          (Re.Seq (Re.Group (Re.Star Re.Any))
             (Re.Seq (Re.Chr ")")
                (Re.Seq (Re.Star (Re.Alt block_comment
                                    (Re.Class (fun c => Re.is_space c || Ascii.eqb c ";"))))
                        Re.Eol))))).

(** [posixpath.join(a, b)] *)
Definition path_join (a b : string) : string :=
  if String.prefix "/" b then b
  else if String.eqb a "" then b
  else if Ascii.eqb (List.last (list_ascii_of_string a) "/"%char) "/" then a +:+ b
  else a +:+ "/" +:+ b.

(** [f'{name}{index or ""}.js'] *)
Definition tree_file_name (name : string) (index : nat) : string :=
  name +:+ (match index with O => "" | _ => pretty index end) +:+ ".js".

Definition get_tree_file (self : Book) (name : string) (index : nat) : string :=
  path_join (tree_dir self) (tree_file_name name index).

(** A name of tree files is relative: no shard's file name starts with a
    slash, so [posixpath.join] puts it under the tree directory. *)
Definition relative_name (name : string) : Prop :=
  forall i, String.prefix "/" (tree_file_name name i) = false.

(** [os.path.exists(file)] *)
Definition exists_ (fs : filesystem) (file : string) : bool :=
  match fs !! file with Some _ => true | None => false end.

(** [iter_tree_files]: the files of shards 0, 1, 2, ... up to the first
    one that does not exist.  No more than [size fs] shards exist, so
    [S (size fs)] probes reach a missing one. *)
Fixpoint iter_tree_files_from (fuel : nat) (self : Book) (fs : filesystem)
    (name : string) (i : nat) : list string :=
  match fuel with
  | O => []
  | S fuel' =>
      let file := get_tree_file self name i in
      if exists_ fs file then file :: iter_tree_files_from fuel' self fs name (S i)
      else []
  end.

Definition iter_tree_files (self : Book) (fs : filesystem) (name : string) : list string :=
  iter_tree_files_from (S (size fs)) self fs name 0.

Definition iter_meta_files self fs := iter_tree_files self fs "meta".
Definition iter_toc_files self fs := iter_tree_files self fs "toc".
Definition iter_fulltext_files self fs := iter_tree_files self fs "fulltext".

Section WithJson.
Context `{Json}.

Definition load_tree_file (fs : filesystem) (file : string) : outcome json :=
  match fs !! file with
  | None => Raise (FileNotFoundError file)
  | Some (Directory _) =>
      Raise (TreeFileIOError ("failed to load tree file: " +:+ os_error_text file))
  | Some (File text _) =>
      match Re.search REGEX_TREE_FILE_PREFIX text with
      | None => Raise (TreeFileMalformedError (malformed_msg file))
      | Some m =>
          match json_loads (Re.group text m) with
          | Loaded v => Ok v
          | JSONDecodeError exc =>
              Raise (TreeFileMalformedError (malformed_msg file +:+ ": " +:+ exc))
          end
      end
  end.

(** [data.update(d)] for what a tree file holds.  The model covers a body
    that is a JSON object; any other body ends in [TypeError]. *)
Definition update_with (data : dict json) (d : json) : outcome (dict json) :=
  match d with
  | JObj members => Ok (update data members)
  | _ => Raise (TypeError "object is not a mapping")
  end.

Fixpoint load_files (fs : filesystem) (files : list string) (data : dict json)
  : outcome (dict json) :=
  match files with
  | [] => Ok data
  | file :: files' =>
      match load_tree_file fs file with
      | Raise e => Raise e
      | Ok d =>
          match update_with data d with
          | Raise e => Raise e
          | Ok data' => load_files fs files' data'
          end
      end
  end.

Definition load_tree_files (self : Book) (fs : filesystem) (name : string)
  : outcome (dict json) :=
  load_files fs (iter_tree_files self fs name) [].

(** [save_tree_file]: [open(file, 'w')] then [write]; the file's
    modification time becomes [now]. *)
Definition save_tree_file (now : Z) (self : Book) (name : string) (index : nat)
    (data : string) (fs : filesystem) : outcome filesystem :=
  let file := get_tree_file self name index in
  match fs !! file with
  | Some (Directory _) =>
      Raise (TreeFileIOError ("failed to open tree file: " +:+ os_error_text file))
  | _ => Ok (<[file := File data now]> fs)
  end.

Definition meta_to_json (data : meta_t) : json :=
  JObj (map (fun '(id, attrs) => (id, JObj (map (fun '(k, v) => (k, JStr v)) attrs))) data).

Definition toc_to_json (data : toc_t) : json :=
  JObj (map (fun '(id, children) => (id, JArr (map JStr children))) data).

Definition fulltext_to_json (data : fulltext_t) : json :=
  JObj (map (fun '(id, entry) =>
               (id, JObj (map (fun '(path, content) =>
                                 (path, JObj [("content", JStr content)])) entry))) data).

Definition EDITABLE_HEADER : string :=
  "/**" +:+ nl +:+
  " * Feel free to edit this file, but keep data code valid JSON format." +:+ nl +:+
  " */" +:+ nl.

Definition GENERATED_HEADER : string :=
  "/**" +:+ nl +:+
  " * This file is generated by WebScrapBook and is not intended to be edited." +:+ nl +:+
  " */" +:+ nl.

Definition save_meta_file (now : Z) (self : Book) (i : nat) (data : meta_t) :=
  save_tree_file now self "meta" i
    (EDITABLE_HEADER +:+ "scrapbook.meta(" +:+ json_dumps 2 (meta_to_json data) +:+ ")").

Definition save_toc_file (now : Z) (self : Book) (i : nat) (data : toc_t) :=
  save_tree_file now self "toc" i
    (EDITABLE_HEADER +:+ "scrapbook.toc(" +:+ json_dumps 2 (toc_to_json data) +:+ ")").

Definition save_fulltext_file (now : Z) (self : Book) (i : nat) (data : fulltext_t) :=
  save_tree_file now self "fulltext" i
    (GENERATED_HEADER +:+ "scrapbook.fulltext(" +:+ json_dumps 1 (fulltext_to_json data) +:+ ")").

(** [save_meta_files], [save_toc_files] and [save_fulltext_files] are one
    text with four differences: the name of the tree file, the threshold,
    what a record adds to [size], and the function that writes a shard.
    [save_files] is that text. *)
Section SaveFiles.
Context {V : Type}.
Variable self : Book.
Variable name : string.
Variable threshold : Z.
Variable weigh : V -> Z.
Variable save_file : nat -> dict V -> filesystem -> outcome filesystem.

(** The [for id in self.<name>:] loop, from the state [(i, size, <name>)]. *)
Fixpoint save_loop (items : list (string * V)) (i : nat) (size : Z) (pending : dict V)
    (fs : filesystem) : outcome (nat * Z * dict V * filesystem) :=
  match items with
  | [] => Ok (i, size, pending, fs)
  | (id, v) :: items' =>
      let pending := set id v pending in
      let size := (size + weigh v)%Z in
      if (size >=? threshold)%Z then
        match save_file i pending fs with
        | Raise e => Raise e
        | Ok fs' => save_loop items' (S i) 0 [] fs'
        end
      else save_loop items' i size pending fs
  end.

(** [# remove unused tree/<name>#.js]: [os.remove] shard [i], [i + 1], ...
    until one is not found. *)
Fixpoint remove_unused (fuel : nat) (i : nat) (fs : filesystem) : outcome filesystem :=
  match fuel with
  | O => Ok fs
  | S fuel' =>
      let file := get_tree_file self name i in
      match fs !! file with
      | None => Ok fs
      | Some (Directory _) => Raise (OSError file)
      | Some (File _ _) => remove_unused fuel' (S i) (delete file fs)
      end
  end.

Definition save_files (data : dict V) (fs : filesystem) : outcome filesystem :=
  match save_loop data 0 1 [] fs with
  | Raise e => Raise e
  | Ok (i, size, pending, fs1) =>
      let flushed :=
        if (size =? 0)%Z then Ok (i, fs1)
        else match save_file i pending fs1 with
             | Raise e => Raise e
             | Ok fs2 => Ok (S i, fs2)
             end in
      match flushed with
      | Raise e => Raise e
      | Ok (i, fs2) => remove_unused (S (base.size fs2)) i fs2
      end
  end.

End SaveFiles.

(** [size += 1] *)
Definition meta_weight (attrs : dict string) : Z := 1.

(** [size += 1 + len(toc[id])] *)
Definition toc_weight (children : list string) : Z := 1 + Z.of_nat (length children).

(** [for path in fulltext[id]: size += len(fulltext[id][path]['content'])] *)
Definition fulltext_weight (entry : dict string) : Z :=
  fold_left (fun size pc => (size + Z.of_nat (String.length (snd pc)))%Z) entry 0%Z.

Definition save_meta_files (now : Z) (self : Book) (data : meta_t) :=
  save_files self "meta" (SAVE_META_THRESHOLD self) meta_weight (save_meta_file now self) data.

Definition save_toc_files (now : Z) (self : Book) (data : toc_t) :=
  save_files self "toc" (SAVE_TOC_THRESHOLD self) toc_weight (save_toc_file now self) data.

Definition save_fulltext_files (now : Z) (self : Book) (data : fulltext_t) :=
  save_files self "fulltext" (SAVE_FULLTEXT_THRESHOLD self) fulltext_weight
    (save_fulltext_file now self) data.

End WithJson.

(** What a save of the shards of [name] at time [now] does to the files
    [fs]: it writes shards [0 .. k-1] ([1 <= k]), removes the files that
    were at the indices [k .. j-1], where [j] is the first index at or
    after [k] with no file, and leaves every other path as it was: the
    shards from [j] on, whatever lies past the gap, and every path that is
    no shard of [name].  When it raises, a directory stands where a shard
    was to be written or removed. *)
Definition prunes_contiguous_suffix (self : Book) (name : string) (now : Z)
    (fs : filesystem) (result : outcome filesystem) : Prop :=
  match result with
  | Ok fs' =>
      exists k j : nat,
        1 <= k <= j /\
        (forall i, i < k ->
           exists text, fs' !! get_tree_file self name i = Some (File text now)) /\
        (forall i, k <= i < j ->
           (exists text mtime, fs !! get_tree_file self name i = Some (File text mtime)) /\
           fs' !! get_tree_file self name i = None) /\
        fs !! get_tree_file self name j = None /\
        (forall i, j <= i -> fs' !! get_tree_file self name i = fs !! get_tree_file self name i) /\
        (forall path, (forall i, path <> get_tree_file self name i) -> fs' !! path = fs !! path)
  | Raise e =>
      exists i mtime,
        fs !! get_tree_file self name i = Some (Directory mtime) /\
        (is_TreeFileError e = true \/ e = OSError (get_tree_file self name i))
  end.

(** Saving the full-text mapping [data] over [fs] and loading it back
    gives a mapping equal to [data]: the same record ids, each with the
    JSON of its entry. *)
Definition fulltext_round_trips `{Json} (now : Z) (self : Book) (data : fulltext_t)
    (fs : filesystem) : Prop :=
  exists fs' loaded,
    save_fulltext_files now self data fs = Ok fs' /\
    load_tree_files self fs' "fulltext" = Ok loaded /\
    match fulltext_to_json data with
    | JObj members => same loaded members
    | _ => False
    end.

End Tree.

(** ** A JSON printer and reader for the examples *)

(** [json.dumps(v, ensure_ascii=False, indent=indent)] for the values the
    tree files hold, as CPython prints them: members one per line, indented
    by [indent] spaces per level, [": "] after a key, [","] between
    members, [{}] and [[]] for empty containers. *)
Definition json_quote (s : string) : string :=
  let esc (c : ascii) : string :=
    if Ascii.eqb c "034" then "\" +:+ Tree.dq
    else if Ascii.eqb c "\" then "\\"
    else if Ascii.eqb c "010" then "\n"
    else if Ascii.eqb c "013" then "\r"
    else if Ascii.eqb c "009" then "\t"
    else String c EmptyString in
  Tree.dq +:+ String.concat "" (map esc (list_ascii_of_string s)) +:+ Tree.dq.

Definition json_pad (indent level : nat) : string :=
  string_of_list_ascii (replicate (indent * level) " "%char).

Fixpoint json_dumps_at (indent level : nat) (v : Tree.json) : string :=
  let open_line := Tree.nl +:+ json_pad indent (S level) in
  let sep := "," +:+ open_line in
  let close_line := Tree.nl +:+ json_pad indent level in
  match v with
  | Tree.JNull => "null"
  | Tree.JBool b => if b then "true" else "false"
  | Tree.JNum n => pretty n
  | Tree.JStr s => json_quote s
  | Tree.JArr [] => "[]"
  | Tree.JArr items =>
      "[" +:+ open_line +:+
      String.concat sep (map (json_dumps_at indent (S level)) items) +:+
      close_line +:+ "]"
  | Tree.JObj [] => "{}"
  | Tree.JObj members =>
      "{" +:+ open_line +:+
      String.concat sep
        (map (fun kv => json_quote (fst kv) +:+ ": " +:+ json_dumps_at indent (S level) (snd kv))
             members) +:+
      close_line +:+ "}"
  end.


(** A reader for the JSON that [json_dumps_at] prints and that the tree
    files of the tests hold: objects, arrays, strings with the common
    escapes, integers, [true], [false], [null], with white space between
    tokens.  A later member of an object replaces an earlier one with the
    same key, as in a Python [dict].  Fractions and exponents are not
    modelled and are rejected. *)
Definition json_is_ws (c : ascii) : bool :=
  Ascii.eqb c " " || Ascii.eqb c "009" || Ascii.eqb c "010" || Ascii.eqb c "013".

Fixpoint json_skip_ws (s : list ascii) : list ascii :=
  match s with
  | c :: r => if json_is_ws c then json_skip_ws r else s
  | [] => []
  end.

Fixpoint json_strip (p s : list ascii) : option (list ascii) :=
  match p, s with
  | [], _ => Some s
  | a :: p', c :: s' => if Ascii.eqb a c then json_strip p' s' else None
  | _ :: _, [] => None
  end.

Definition json_digit (c : ascii) : option N :=
  let n := N_of_ascii c in
  if ((48 <=? n) && (n <=? 57))%N then Some (n - 48)%N else None.

Fixpoint json_digits (s : list ascii) (acc : N) : N * list ascii :=
  match s with
  | c :: r =>
      match json_digit c with
      | Some d => json_digits r (acc * 10 + d)%N
      | None => (acc, s)
      end
  | [] => (acc, [])
  end.

(** The characters of a string after its opening quote, up to the closing
    one. *)
Fixpoint json_string_body (s : list ascii) (acc : list ascii) : option (string * list ascii) :=
  match s with
  | [] => None
  | c :: r =>
      if Ascii.eqb c "034" then Some (string_of_list_ascii (rev acc), r)
      else if Ascii.eqb c "\" then
        match r with
        | e :: r' =>
            if Ascii.eqb e "034" then json_string_body r' ("034"%char :: acc)
            else if Ascii.eqb e "\" then json_string_body r' ("\"%char :: acc)
            else if Ascii.eqb e "/" then json_string_body r' ("/"%char :: acc)
            else if Ascii.eqb e "n" then json_string_body r' ("010"%char :: acc)
            else if Ascii.eqb e "r" then json_string_body r' ("013"%char :: acc)
            else if Ascii.eqb e "t" then json_string_body r' ("009"%char :: acc)
            else None
        | [] => None
        end
      else if (N_of_ascii c <? 32)%N then None
      else json_string_body r (c :: acc)
  end.

Definition json_number (s : list ascii) : option (Tree.json * list ascii) :=
  let '(neg, s1) := match s with
                    | c :: r => if Ascii.eqb c "-" then (true, r) else (false, s)
                    | [] => (false, s)
                    end in
  match s1 with
  | c :: r =>
      match json_digit c with
      | None => None
      | Some d =>
          let '(n, rest) := if (d =? 0)%N then (0%N, r) else json_digits s1 0 in
          match rest with
          | x :: _ =>
              if Ascii.eqb x "." || Ascii.eqb x "e" || Ascii.eqb x "E" then None
              else Some (Tree.JNum (if neg then - Z.of_N n else Z.of_N n), rest)
          | [] => Some (Tree.JNum (if neg then - Z.of_N n else Z.of_N n), rest)
          end
      end
  | [] => None
  end.

Fixpoint json_elements (fuel : nat) (value : list ascii -> option (Tree.json * list ascii))
    (s : list ascii) (acc : list Tree.json) : option (Tree.json * list ascii) :=
  match fuel with
  | O => None
  | S fuel' =>
      match value s with
      | None => None
      | Some (v, r) =>
          match json_skip_ws r with
          | c :: r' =>
              if Ascii.eqb c "," then json_elements fuel' value r' (v :: acc)
              else if Ascii.eqb c "]" then Some (Tree.JArr (rev (v :: acc)), r')
              else None
          | [] => None
          end
      end
  end.

Fixpoint json_members (fuel : nat) (value : list ascii -> option (Tree.json * list ascii))
    (s : list ascii) (acc : list (string * Tree.json)) : option (Tree.json * list ascii) :=
  match fuel with
  | O => None
  | S fuel' =>
      match json_skip_ws s with
      | q :: r =>
          if negb (Ascii.eqb q "034") then None
          else
            match json_string_body r [] with
            | None => None
            | Some (key, r1) =>
                match json_skip_ws r1 with
                | c :: r2 =>
                    if negb (Ascii.eqb c ":") then None
                    else
                      match value r2 with
                      | None => None
                      | Some (v, r3) =>
                          match json_skip_ws r3 with
                          | d :: r4 =>
                              if Ascii.eqb d ","
                              then json_members fuel' value r4 (PyDict.set key v acc)
                              else if Ascii.eqb d "}"
                              then Some (Tree.JObj (PyDict.set key v acc), r4)
                              else None
                          | [] => None
                          end
                      end
                | [] => None
                end
            end
      | [] => None
      end
  end.

Fixpoint json_value (fuel : nat) (s : list ascii) : option (Tree.json * list ascii) :=
  match fuel with
  | O => None
  | S fuel' =>
      let s := json_skip_ws s in
      match s with
      | [] => None
      | c :: r =>
          if Ascii.eqb c "034" then
            match json_string_body r [] with
            | Some (str, r') => Some (Tree.JStr str, r')
            | None => None
            end
          else if Ascii.eqb c "[" then
            match json_skip_ws r with
            | x :: r' =>
                if Ascii.eqb x "]" then Some (Tree.JArr [], r')
                else json_elements fuel' (json_value fuel') r []
            | [] => None
            end
          else if Ascii.eqb c "{" then
            match json_skip_ws r with
            | x :: r' =>
                if Ascii.eqb x "}" then Some (Tree.JObj [], r')
                else json_members fuel' (json_value fuel') r []
            | [] => None
            end
          else
            match json_strip (list_ascii_of_string "null") s with
            | Some r' => Some (Tree.JNull, r')
            | None =>
                match json_strip (list_ascii_of_string "true") s with
                | Some r' => Some (Tree.JBool true, r')
                | None =>
                    match json_strip (list_ascii_of_string "false") s with
                    | Some r' => Some (Tree.JBool false, r')
                    | None => json_number s
                    end
                end
            end
      end
  end.

Definition json_loads_ref (text : string) : Tree.loads_result :=
  let s := list_ascii_of_string text in
  match json_value (S (length s)) s with
  | None => Tree.JSONDecodeError "Expecting value"
  | Some (v, r) =>
      match json_skip_ws r with
      | [] => Tree.Loaded v
      | _ :: _ => Tree.JSONDecodeError "Extra data"
      end
  end.

(** The instance the examples run with. *)
Definition reference_json : Tree.Json :=
  {| Tree.json_dumps indent v := json_dumps_at indent 0 v;
     Tree.json_loads := json_loads_ref |}.

(** ** Notions for the properties of the tree files *)

(** A text without an opening parenthesis and without the two characters
    that open a block comment: what the first group of
    [REGEX_TREE_FILE_PREFIX] walks over one character at a time. *)
Fixpoint comment_free (h : list ascii) : bool :=
  match h with
  | [] => true
  | c :: tl =>
      negb (Ascii.eqb c "(") &&
      negb (Ascii.eqb c "/" && match tl with c' :: _ => Ascii.eqb c' "*" | [] => false end) &&
      comment_free tl
  end.

(** The rounds of a greedy star as [Re.run] takes them: [n] bounds the
    rounds left, [k] is what follows the star. *)
Definition star_rounds (r : Re.regex) (k : Re.mstate -> option Re.mstate)
  : nat -> Re.mstate -> option Re.mstate :=
  fix rounds (n : nat) (st : Re.mstate) {struct n} : option Re.mstate :=
    match n with
    | O => k st
    | S n' =>
        match Re.run r st (fun st' => if (Re.pos st <? Re.pos st')%nat
                                      then rounds n' st' else None) with
        | Some m => Some m
        | None => k st
        end
    end.

(** ** host.py: the classes of lock errors

    [isinstance] for the two other branches of the hierarchy under
    [LockError] (lines 34-55). *)

(** [isinstance(e, LockExtendError)] *)
Definition is_LockExtendError (e : Host.exn) : bool :=
  match e with
  | Host.LockExtendError _ _ _ | Host.LockExtendNotAcquiredError _ _ _
  | Host.LockExtendNotFoundError _ _ _ => true
  | _ => false
  end.

(** [isinstance(e, LockReleaseError)] *)
Definition is_LockReleaseError (e : Host.exn) : bool :=
  match e with
  | Host.LockReleaseError _ _ _ | Host.LockReleaseNotAcquiredError _ _ _
  | Host.LockReleaseNotFoundError _ _ _ => true
  | _ => false
  end.

(** ** cache.py: [FulltextCacheGenerator]

    The record files are a read-only [World]; the parsers and the URL
    functions the generator calls are the interface [Externals] over the type
    of file contents.  The cache is [book.fulltext], record id to (path to
    text); the frontier [files_to_update] is a [MutatingDict] of booleans:
    [True] for a path to be checked, [False] for one that is settled.
    The generator [yield]s its events: they are collected in a list, latest
    last.  [_get_fulltext_cache] and what it calls recurse through frames and
    data URLs, and the loop over the frontier runs while the frontier grows:
    they take [fuel], and give [None] when it runs out. *)

Module Indexer.
Import PyDict.

Definition dq : string := String "034"%char EmptyString.

Inductive info_type := info | warn | error | debug.

Record Info := mkInfo { type : info_type; msg : string }.

(** What is raised inside the generator: an error of the tree files, a
    broken archive, a failed [os.stat], a missing key, any exception of a
    library that reads a page, and [Unmodelled] for a tree file whose JSON
    has not the shape the writers of book.py produce (the model holds
    the mappings with their types). *)
Inductive exn :=
| TreeError (e : Tree.exn)
| BadZipFile (file : string)
| OSError (file : string)
| KeyError (key : string)
| LibraryError (what : string)
| Unmodelled (what : string).

Inductive outcome (A : Type) :=
| Return (a : A)
| Raise (e : exn).
Arguments Return {A} a.
Arguments Raise {A} e.

(** A computation on a state [S] that may raise or run out of fuel
    ([None]). *)
Definition M (S A : Type) : Type := S -> option (outcome A * S).

Definition ret {S A} (a : A) : M S A := fun s => Some (Return a, s).
Definition throw {S A} (e : exn) : M S A := fun s => Some (Raise e, s).
Definition bind {S A B} (m : M S A) (k : A -> M S B) : M S B :=
  fun s =>
    match m s with
    | None => None
    | Some (Raise e, s') => Some (Raise e, s')
    | Some (Return a, s') => k a s'
    end.
Definition lift {S A} (r : outcome A) : M S A :=
  match r with Return a => ret a | Raise e => throw e end.

(** An element as [etree.iterparse] hands it out, with an identity for
    [elem is exclusion_stack[-1]]. *)
Record element := mkElement { elem_id : nat; tag : string; attrib : dict string }.

(** An event of [etree.iterparse(fh, html=True, events=('start', 'end'))].
    [text] is what the walk finds in the text or tail that precedes the
    event ([getattr(prev, attr)], [None] when there is no such node).
    [ParseError]: the parser raises here. *)
Inductive parse_event :=
| EvStart (elem : element) (text : option string)
| EvEnd (elem : element) (text : option string)
| ParseError (what : string).

(** [urlsplit(url)], the parts the generator reads. *)
Record SplitResult := mkSplit { scheme : string; netloc : string; path : string }.

Class Externals (bytes : Type) := {
  (** [mimetypes.guess_type(name)[0]] *)
  guess_type : string -> option string;
  (** [util.sniff_bom(fh)] *)
  sniff_bom : bytes -> option string;
  (** [util.get_charset(fh)] *)
  get_charset : bytes -> option string;
  fix_codec : string -> string;
  (** [util.iter_meta_refresh(fh)]: the [(time, url)] pairs *)
  iter_meta_refresh : bytes -> outcome (list (Z * option string));
  (** [etree.iterparse(fh, ..., encoding=charset)] *)
  iterparse : bytes -> option string -> list parse_event;
  (** [fh.read().decode(charset, errors='replace')] *)
  decode : bytes -> string -> outcome string;
  (** [util.parse_datauri(url)]: bytes and mime, [None] for
      [DataUriMalformedError] *)
  parse_datauri : string -> option (bytes * string);
  urlsplit : string -> SplitResult;
  urljoin : string -> string -> string;
  quote : string -> string;
  unquote : string -> string;
}.

(** The record files.  [zipfile path]: the members of the archive at
    [path], each with its time stamp and contents, or [None] when
    [zipfile.ZipFile(path)] raises.  [get_maff_pages path]: the index file
    names of the pages of a MAFF archive. *)
Record World (bytes : Type) := mkWorld {
  path_exists : string -> bool;
  stat_mtime : string -> option Z;
  open_rb : string -> option bytes;
  zipfile : string -> option (string -> option (Z * bytes));
  get_maff_pages : string -> outcome (list string);
}.
Arguments path_exists {bytes}.
Arguments stat_mtime {bytes}.
Arguments open_rb {bytes}.
Arguments zipfile {bytes}.
Arguments get_maff_pages {bytes}.

(** The longest prefix whose elements satisfy [f]. *)
Fixpoint takewhile_bool {A} (f : A -> bool) (l : list A) : list A :=
  match l with
  | [] => []
  | x :: l' => if f x then x :: takewhile_bool f l' else []
  end.

(** [posixpath.basename]: what follows the last slash. *)
Definition basename (p : string) : string :=
  let not_slash (c : ascii) := negb (Ascii.eqb c "/"%char) in
  string_of_list_ascii (rev (takewhile_bool not_slash (rev (list_ascii_of_string p)))).

(** Python's truth value of a string: non-empty. *)
Definition truthy (s : string) : bool := negb (String.eqb s "").

Definition truthy_opt (s : option string) : bool :=
  match s with Some s => truthy s | None => false end.

(** [a or b] on optional strings. *)
Definition or_else (a b : option string) : option string :=
  if truthy_opt a then a else b.

(** [REGEX_TEXT_SPACE_CONVERTER.sub(' ', s)]: every run of white space
    becomes one space. *)
Fixpoint sub_spaces (after_space : bool) (s : list ascii) : list ascii :=
  match s with
  | [] => []
  | c :: r =>
      if Re.is_space c then
        if after_space then sub_spaces true r else " "%char :: sub_spaces true r
      else c :: sub_spaces false r
  end.

(** [s.strip()] *)
Definition strip (s : list ascii) : list ascii :=
  rev (Host.dropwhile_bool Re.is_space (rev (Host.dropwhile_bool Re.is_space s))).

(** [REGEX_TEXT_SPACE_CONVERTER.sub(' ', s).strip()] *)
Definition normalize_space (s : string) : string :=
  string_of_list_ascii (strip (sub_spaces false (list_ascii_of_string s))).

(** [s[n:]] *)
Definition string_drop (n : nat) (s : string) : string :=
  string_of_list_ascii (drop n (list_ascii_of_string s)).

Definition FULLTEXT_EXCLUDE_TAGS : list string :=
  ["title"; "style"; "script"; "frame"; "iframe"; "object"; "applet";
   "audio"; "video"; "canvas"; "noframes"; "noscript"; "noembed"; "svg"; "math"].

Definition in_tags (t : string) (tags : list string) : bool :=
  existsb (String.eqb t) tags.

(** [FulltextCacheItem], without [files_to_update], which is part of the
    state. *)
Record FulltextCacheItem := mkItem {
  id : string;
  meta : dict string;
  index : string;
  indexfile : string;
}.

(** The fields [run] sets on [self]. *)
Record Generator := mkGenerator {
  inclusive_frames : bool;
  cache_last_modified : Z;
}.

Abbreviation frontier := (Frontier.MutatingDict bool).

(** [book.fulltext], the frontier of the record at hand, and the events
    yielded so far. *)
Record cache_state := mkCache {
  fulltext : dict (dict string);
  files_to_update : frontier;
  events : list Info;
}.

Definition set_fulltext (ft : dict (dict string)) (st : cache_state) : cache_state :=
  {| fulltext := ft; files_to_update := files_to_update st; events := events st |}.

Definition set_frontier (ftu : frontier) (st : cache_state) : cache_state :=
  {| fulltext := fulltext st; files_to_update := ftu; events := events st |}.

(** [yield e] *)
Definition emit (e : Info) (st : cache_state) : cache_state :=
  {| fulltext := fulltext st; files_to_update := files_to_update st;
     events := events st ++ [e] |}.

(** *** book.py: the kinds of records *)

Definition mime_is_html (mime : option string) : bool :=
  match mime with
  | Some m => String.eqb m "text/html" || String.eqb m "application/xhtml+xml"
  | None => false
  end.

Definition mime_is_archive (mime : option string) : bool :=
  match mime with
  | Some m => String.eqb m "application/html+zip" || String.eqb m "application/x-maff"
  | None => false
  end.

Definition mime_is_htz (mime : option string) : bool :=
  match mime with Some m => String.eqb m "application/html+zip" | None => false end.

Definition mime_is_maff (mime : option string) : bool :=
  match mime with Some m => String.eqb m "application/x-maff" | None => false end.

Section WithWorld.
Context {bytes : Type} `{Externals bytes}.
Variable world : World bytes.
(** [book.data_dir] *)
Variable data_dir : string.

Definition is_html (filename : string) : bool := mime_is_html (guess_type filename).
Definition is_archive (filename : string) : bool := mime_is_archive (guess_type filename).
Definition is_htz (filename : string) : bool := mime_is_htz (guess_type filename).
Definition is_maff (filename : string) : bool := mime_is_maff (guess_type filename).

Definition get_index_paths (index : string) : outcome (list string) :=
  if is_maff index then get_maff_pages world (Tree.path_join data_dir index)
  else if is_htz index then Return ["index.html"]
  else Return [basename index].

(** *** Files of a record *)

(** [os.path.join(self.book.data_dir, os.path.dirname(item.index), path)] *)
Definition record_file (item : FulltextCacheItem) (path : string) : string :=
  Tree.path_join (Tree.path_join data_dir (Host.posix_dirname (index item))) path.

Definition _get_mtime (item : FulltextCacheItem) (path : string) : outcome (option Z) :=
  if is_archive (index item) then
    let archive := Tree.path_join data_dir (index item) in
    match zipfile world archive with
    | None => Raise (BadZipFile archive)
    | Some zh =>
        match zh path with
        | Some (timestamp, _) => Return (Some timestamp)
        | None => Return None
        end
    end
  else Return (stat_mtime world (record_file item path)).

Definition _open_file (item : FulltextCacheItem) (path : string) : outcome (option bytes) :=
  if is_archive (index item) then
    let archive := Tree.path_join data_dir (index item) in
    match zipfile world archive with
    | None => Raise (BadZipFile archive)
    | Some zh =>
        match zh path with
        | Some (_, fh) => Return (Some fh)
        | None => Return None
        end
    end
  else Return (open_rb world (record_file item path)).

(** *** Extraction *)

(** The extraction of a page works on the frontier. *)
Definition extraction (A : Type) : Type := M frontier A.

(** [get_relative_file_path(url)], for the page at [path] ([None] inside a
    data URL page). *)
Definition get_relative_file_path (path : option string) (url : string) : option string :=
  match path with
  | None => None
  | Some path =>
      let urlparts := urlsplit url in
      if negb (String.eqb (scheme urlparts) "") then None
      else if negb (String.eqb (netloc urlparts) "") then None
      else if String.prefix "/" (Indexer.path urlparts) then None
      else
        let base := "file:///!/" in
        let ref := urljoin base (quote path) in
        let target := urljoin ref (Indexer.path urlparts) in
        if negb (String.prefix base target) then None
        else
          let target := unquote target in
          if String.eqb target ref then None
          else Some (string_drop (String.length base) target)
  end.

(** [if target and target not in item.files_to_update:
       item.files_to_update[target] = True] *)
Definition add_pending (target : option string) : extraction unit :=
  fun ftu =>
    match target with
    | Some t =>
        if truthy t && negb (Frontier.__contains__ ftu t)
        then Some (Return tt, Frontier.__setitem__ ftu t true)
        else Some (Return tt, ftu)
    | None => Some (Return tt, ftu)
    end.

(** [if fulltext: results.append(fulltext)] *)
Definition append_text (results : list string) (fulltext : option string) : list string :=
  match fulltext with
  | Some t => if truthy t then results ++ [t] else results
  | None => results
  end.

Section Page.
(** The two functions the walk of a page calls back:
    [self._get_fulltext_cache(item, target)] and
    [self._get_fulltext_cache_for_fh(item, None, fh, mime)]. *)
Variable get_fulltext_cache : string -> extraction (option string).
Variable get_fulltext_cache_for_data : bytes -> string -> extraction (option string).
Variable self : Generator.
Variable item : FulltextCacheItem.
Variable path : option string.

Definition add_datauri_content (url : string) (results : list string)
  : extraction (list string) :=
  match parse_datauri url with
  | None => ret results
  | Some (data, mime) =>
      bind (get_fulltext_cache_for_data data mime)
           (fun fulltext => ret (append_text results fulltext))
  end.

(** The body of [for time, url in util.iter_meta_refresh(fh):]. *)
Fixpoint meta_refresh_loop (refreshes : list (Z * option string)) (results : list string)
    (has_instant_redirect : bool) : extraction (list string * bool) :=
  match refreshes with
  | [] => ret (results, has_instant_redirect)
  | (time, url) :: rest =>
      let has_instant_redirect := if (time =? 0)%Z then true else has_instant_redirect in
      match url with
      | Some u =>
          if truthy u then
            if String.prefix "data:" u then
              bind (add_datauri_content u results)
                   (fun results => meta_refresh_loop rest results has_instant_redirect)
            else
              bind (add_pending (get_relative_file_path path u))
                   (fun _ => meta_refresh_loop rest results has_instant_redirect)
          else meta_refresh_loop rest results has_instant_redirect
      | None => meta_refresh_loop rest results has_instant_redirect
      end
  end.

(** A link: [a] or [area] with [href]. *)
Definition visit_link (url : string) (results : list string) : extraction (list string) :=
  if String.prefix "data:" url then add_datauri_content url results
  else bind (add_pending (get_relative_file_path path url)) (fun _ => ret results).

(** A frame: [iframe] or [frame] with [src]. *)
Definition visit_frame (url : string) (results : list string) : extraction (list string) :=
  if String.prefix "data:" url then add_datauri_content url results
  else
    match get_relative_file_path path url with
    | Some target =>
        if truthy target then
          if inclusive_frames self then
            fun ftu =>
              match Frontier.get ftu target with
              | Some false => Some (Return results, ftu)
              | _ =>
                  bind (get_fulltext_cache target)
                       (fun fulltext => ret (append_text results fulltext))
                       (Frontier.__setitem__ ftu target false)
              end
          else bind (add_pending (Some target)) (fun _ => ret results)
        else ret results
    | None => ret results
    end.

(** The [for event, elem in etree.iterparse(...)] loop.  The exclusion
    stack holds the identities of the elements pushed. *)
Fixpoint walk (parse_events : list parse_event) (exclusion_stack : list nat)
    (results : list string) : extraction (list string) :=
  match parse_events with
  | [] => ret results
  | ParseError what :: _ => throw (LibraryError what)
  | EvStart elem text :: rest =>
      match exclusion_stack with
      | _ :: _ => walk rest exclusion_stack results
      | [] =>
          let results := append_text results text in
          let visited :=
            if in_tags (tag elem) ["a"; "area"] then
              match get "href" (attrib elem) with
              | Some url => visit_link url results
              | None => ret results
              end
            else if in_tags (tag elem) ["iframe"; "frame"] then
              match get "src" (attrib elem) with
              | Some url => visit_frame url results
              | None => ret results
              end
            else ret results in
          bind visited
               (fun results =>
                  if in_tags (tag elem) FULLTEXT_EXCLUDE_TAGS
                  then walk rest (exclusion_stack ++ [elem_id elem]) results
                  else walk rest exclusion_stack results)
      end
  | EvEnd elem text :: rest =>
      let results :=
        match exclusion_stack with
        | [] => append_text results text
        | _ :: _ => results
        end in
      let exclusion_stack :=
        match List.rev exclusion_stack with
        | top :: below => if (elem_id elem =? top)%nat then List.rev below else exclusion_stack
        | [] => exclusion_stack
        end in
      walk rest exclusion_stack results
  end.

(** [REGEX_TEXT_SPACE_CONVERTER.sub(' ', ' '.join(results)).strip()] *)
Definition join_results (results : list string) : string :=
  normalize_space (String.concat " " results).

(** [charset or item.meta.get('charset') or 'UTF-8'], through
    [util.fix_codec]. *)
Definition pick_charset (charset : option string) : string :=
  fix_codec (default "UTF-8" (or_else (or_else charset (get "charset" (meta item)))
                                      (Some "UTF-8"))).

Definition _get_fulltext_cache_html (fh : bytes) : extraction (option string) :=
  let charset :=
    if truthy_opt (sniff_bom fh) then None else Some (pick_charset (get_charset fh)) in
  match iter_meta_refresh fh with
  | Raise e => throw e
  | Return refreshes =>
      bind (meta_refresh_loop refreshes [] false)
           (fun '(results, has_instant_redirect) =>
              if has_instant_redirect then
                match results with
                | [] => ret None
                | _ :: _ => ret (Some (join_results results))
                end
              else
                bind (walk (iterparse fh charset) [] results)
                     (fun results => ret (Some (join_results results))))
  end.

Definition _get_fulltext_cache_txt (fh : bytes) : extraction (option string) :=
  match decode fh (pick_charset (sniff_bom fh)) with
  | Raise e => throw e
  | Return text => ret (Some (normalize_space text))
  end.

(** The body of [_get_fulltext_cache_for_fh]. *)
Definition for_fh (fh : bytes) (mime : option string) : extraction (option string) :=
  match mime with
  | None => ret None
  | Some m =>
      if negb (truthy m) then ret None
      else if mime_is_html mime then _get_fulltext_cache_html fh
      else if String.prefix "text/" m then _get_fulltext_cache_txt fh
      else ret None
  end.

End Page.

Fixpoint _get_fulltext_cache (fuel : nat) (self : Generator) (item : FulltextCacheItem)
    (path : string) : extraction (option string) :=
  match fuel with
  | O => fun _ => None
  | S fuel' =>
      match _open_file item path with
      | Raise e => throw e
      | Return None => ret None
      | Return (Some fh) =>
          for_fh (_get_fulltext_cache fuel' self item)
                 (fun data mime =>
                    _get_fulltext_cache_for_fh fuel' self item None data (Some mime))
                 self item (Some path) fh (guess_type path)
      end
  end
with _get_fulltext_cache_for_fh (fuel : nat) (self : Generator) (item : FulltextCacheItem)
    (path : option string) (fh : bytes) (mime : option string)
  : extraction (option string) :=
  match fuel with
  | O => fun _ => None
  | S fuel' =>
      for_fh (_get_fulltext_cache fuel' self item)
             (fun data mime =>
                _get_fulltext_cache_for_fh fuel' self item None data (Some mime))
             self item path fh mime
  end.

End WithWorld.
(** *** book.py: loading the mappings into the book

    [load_meta_files], [load_toc_files] and [load_fulltext_files] with
    [refresh=False]: nothing is read when the mapping is there.  What
    [load_tree_files] gives is taken into the typed mappings of the book. *)

Definition traverse {A B} (f : A -> option B) (l : list A) : option (list B) :=
  foldr (fun a acc => match f a, acc with
                      | Some b, Some bs => Some (b :: bs)
                      | _, _ => None
                      end) (Some []) l.

Definition string_of_json (j : Tree.json) : option string :=
  match j with Tree.JStr s => Some s | _ => None end.

Definition member_of {B} (f : Tree.json -> option B) (kv : string * Tree.json)
  : option (string * B) :=
  match f kv.2 with Some b => Some (kv.1, b) | None => None end.

Definition attrs_of_json (j : Tree.json) : option (dict string) :=
  match j with
  | Tree.JObj members => traverse (member_of string_of_json) members
  | _ => None
  end.

Definition children_of_json (j : Tree.json) : option (list string) :=
  match j with
  | Tree.JArr items => traverse string_of_json items
  | _ => None
  end.

Definition content_of_json (j : Tree.json) : option string :=
  match j with
  | Tree.JObj [(key, Tree.JStr content)] =>
      if String.eqb key "content" then Some content else None
  | _ => None
  end.

Definition entry_of_json (j : Tree.json) : option (dict string) :=
  match j with
  | Tree.JObj members => traverse (member_of content_of_json) members
  | _ => None
  end.

Section Loading.
Context `{Tree.Json}.

Definition load_typed {B} (f : Tree.json -> option B) (book : Tree.Book)
    (fs : gmap string Tree.node) (name : string) : outcome (dict B) :=
  match Tree.load_tree_files book fs name with
  | Tree.Raise e => Raise (TreeError e)
  | Tree.Ok members =>
      match traverse (member_of f) members with
      | Some data => Return data
      | None => Raise (Unmodelled name)
      end
  end.

Definition load_meta_files (book : Tree.Book) (fs : gmap string Tree.node)
  : outcome Tree.Book :=
  match Tree.meta book with
  | Some _ => Return book
  | None =>
      match load_typed attrs_of_json book fs "meta" with
      | Raise e => Raise e
      | Return data =>
          Return {| Tree.tree_dir := Tree.tree_dir book; Tree.data_dir := Tree.data_dir book;
                    Tree.SAVE_META_THRESHOLD := Tree.SAVE_META_THRESHOLD book;
                    Tree.SAVE_TOC_THRESHOLD := Tree.SAVE_TOC_THRESHOLD book;
                    Tree.SAVE_FULLTEXT_THRESHOLD := Tree.SAVE_FULLTEXT_THRESHOLD book;
                    Tree.meta := Some data; Tree.toc := Tree.toc book;
                    Tree.fulltext := Tree.fulltext book |}
      end
  end.

Definition load_toc_files (book : Tree.Book) (fs : gmap string Tree.node)
  : outcome Tree.Book :=
  match Tree.toc book with
  | Some _ => Return book
  | None =>
      match load_typed children_of_json book fs "toc" with
      | Raise e => Raise e
      | Return data =>
          Return {| Tree.tree_dir := Tree.tree_dir book; Tree.data_dir := Tree.data_dir book;
                    Tree.SAVE_META_THRESHOLD := Tree.SAVE_META_THRESHOLD book;
                    Tree.SAVE_TOC_THRESHOLD := Tree.SAVE_TOC_THRESHOLD book;
                    Tree.SAVE_FULLTEXT_THRESHOLD := Tree.SAVE_FULLTEXT_THRESHOLD book;
                    Tree.meta := Tree.meta book; Tree.toc := Some data;
                    Tree.fulltext := Tree.fulltext book |}
      end
  end.

Definition set_book_fulltext (book : Tree.Book) (data : dict (dict string)) : Tree.Book :=
  {| Tree.tree_dir := Tree.tree_dir book; Tree.data_dir := Tree.data_dir book;
     Tree.SAVE_META_THRESHOLD := Tree.SAVE_META_THRESHOLD book;
     Tree.SAVE_TOC_THRESHOLD := Tree.SAVE_TOC_THRESHOLD book;
     Tree.SAVE_FULLTEXT_THRESHOLD := Tree.SAVE_FULLTEXT_THRESHOLD book;
     Tree.meta := Tree.meta book; Tree.toc := Tree.toc book;
     Tree.fulltext := Some data |}.

Definition load_fulltext_files (book : Tree.Book) (fs : gmap string Tree.node)
  : outcome Tree.Book :=
  match Tree.fulltext book with
  | Some _ => Return book
  | None =>
      match load_typed entry_of_json book fs "fulltext" with
      | Raise e => Raise e
      | Return data => Return (set_book_fulltext book data)
      end
  end.

End Loading.

(** *** The generator *)

Section Generate.
Context {bytes : Type} `{Externals bytes} `{Tree.Json}.
Variable world : World bytes.

Section Record_.
Variable data_dir : string.
Variable self : Generator.
Variable item : FulltextCacheItem.

(** [for path in paths: files_to_update[path] = True] *)
Definition mark_pending (paths : list string) (st : cache_state) : cache_state :=
  set_frontier (Frontier.assign_all (map (fun p => (p, true)) paths) (files_to_update st)) st.

(** [_collect_files_to_update] (lines 115-137). *)
Definition _collect_files_to_update : M cache_state unit :=
  fun st =>
    match get (id item) (fulltext st) with
    | None =>
        let st := set_fulltext (set (id item) [] (fulltext st)) st in
        match get_index_paths world data_dir (index item) with
        | Raise e => Some (Raise e, st)
        | Return paths => Some (Return tt, mark_pending paths st)
        end
    | Some cached =>
        let collect :=
          match get_index_paths world data_dir (index item) with
          | Raise e => Some (Raise e, st)
          | Return paths => Some (Return tt, mark_pending (keys cached) (mark_pending paths st))
          end in
        if is_archive (indexfile item) then
          match stat_mtime world (indexfile item) with
          | None => Some (Raise (OSError (indexfile item)), st)
          | Some mtime =>
              if (mtime <=? cache_last_modified self)%Z then Some (Return tt, st)
              else collect
          end
        else collect
    end.

(** [book.fulltext[id]] *)
Definition cached_entry : M cache_state (dict string) :=
  fun st =>
    match get (id item) (fulltext st) with
    | Some cached => Some (Return cached, st)
    | None => Some (Raise (KeyError (id item)), st)
    end.

Definition update_event (what : string) : Info :=
  mkInfo info (what +:+ " cache for " +:+ dq +:+ id item +:+ dq +:+ "...").

Definition failure_event (path : string) : Info :=
  mkInfo error ("Unable to generate cache for " +:+ dq +:+ id item +:+ dq
                +:+ " (" +:+ path +:+ ")").

(** [report_update] (lines 140-148); the value is the new [has_update]. *)
Definition report_update (has_update : bool) : M cache_state bool :=
  if has_update then ret true
  else
    bind cached_entry (fun cached st =>
      let what := match cached with [] => "Creating" | _ :: _ => "Updating" end in
      Some (Return true, emit (update_event what) st)).

(** [del book.fulltext[id][path]] *)
Definition del_cached (path : string) : M cache_state unit :=
  bind cached_entry (fun cached st =>
    if contains path cached
    then Some (Return tt, set_fulltext (set (id item) (del path cached) (fulltext st)) st)
    else Some (Raise (KeyError path), st)).

(** [if path in book.fulltext[id]:
       yield from report_update()
       del book.fulltext[id][path]] *)
Definition drop_cached (path : string) (has_update : bool) : M cache_state bool :=
  bind cached_entry (fun cached =>
    if contains path cached then
      bind (report_update has_update) (fun has_update =>
        bind (del_cached path) (fun _ => ret has_update))
    else ret has_update).

(** [book.fulltext[id][path] = {'content': fulltext}] *)
Definition store_cached (path text : string) : M cache_state unit :=
  bind cached_entry (fun cached st =>
    Some (Return tt, set_fulltext (set (id item) (set path text cached) (fulltext st)) st)).

(** The [try] statement of lines 183-188: the text to store. *)
Definition extract (fuel : nat) (path : string) : M cache_state string :=
  fun st =>
    match _get_fulltext_cache world data_dir fuel self item path (files_to_update st) with
    | None => None
    | Some (Return fulltext, ftu) =>
        Some (Return (match fulltext with
                      | Some text => if truthy text then text else ""
                      | None => ""
                      end), set_frontier ftu st)
    | Some (Raise _, ftu) => Some (Return "", emit (failure_event path) (set_frontier ftu st))
    end.

(** The body of [for path in files_to_update:] (lines 156-192); the value
    is the new [has_update]. *)
Definition handle_path (fuel : nat) (path : string) (has_update : bool) : M cache_state bool :=
  fun st =>
    match Frontier.get (files_to_update st) path with
    | None => Some (Raise (KeyError path), st)
    | Some false => drop_cached path has_update st
    | Some true =>
        let st := set_frontier (Frontier.__setitem__ (files_to_update st) path false) st in
        match _get_mtime world data_dir item path with
        | Raise e => Some (Raise e, st)
        | Return None => drop_cached path has_update st
        | Return (Some mtime) =>
            bind cached_entry (fun cached =>
              if contains path cached && (mtime <=? cache_last_modified self)%Z
              then ret has_update
              else
                bind (report_update has_update) (fun has_update =>
                  bind (extract fuel path) (fun text =>
                    bind (store_cached path text) (fun _ => ret has_update)))) st
        end
    end.

(** [for path in files_to_update:] over the live list of keys, from
    position [i]. *)
Fixpoint handle_loop (fuel : nat) (i : nat) (has_update : bool) : M cache_state unit :=
  match fuel with
  | O => fun _ => None
  | S fuel' =>
      fun st =>
        match Frontier.__next__ (files_to_update st) i with
        | None => Some (Return tt, st)
        | Some (path, i') =>
            bind (handle_path fuel' path has_update)
                 (fun has_update => handle_loop fuel' i' has_update) st
        end
  end.

(** [_handle_files_to_update] (lines 139-192). *)
Definition _handle_files_to_update (fuel : nat) : M cache_state unit :=
  handle_loop fuel 0 false.

End Record_.

Definition stale_event (id : string) : Info :=
  mkInfo info ("Removed stale cache for " +:+ dq +:+ id +:+ dq +:+ ".").

(** [try: del book.fulltext[id]
     except KeyError: pass
     else: yield Info('info', ...)] *)
Definition remove_entry (id : string) (st : cache_state) : cache_state :=
  if contains id (fulltext st)
  then emit (stale_event id) (set_fulltext (del id (fulltext st)) st)
  else st.

(** [# Remove stale cache for nonexist items] (lines 66-70). *)
Definition remove_stale (meta_ : dict (dict string)) (st : cache_state) : cache_state :=
  fold_left (fun st id => if contains id meta_ then st else remove_entry id st)
            (keys (fulltext st)) st.

(** The body of [for id, meta in book.meta.items():] (lines 73-106). *)
Definition index_record (fuel : nat) (data_dir : string) (self : Generator)
    (id : string) (meta : dict string) : M cache_state unit :=
  fun st =>
    match get "index" meta with
    | None => Some (Return tt, remove_entry id st)
    | Some index =>
        if negb (truthy index) then Some (Return tt, remove_entry id st)
        else
          let indexfile := Tree.path_join data_dir index in
          if negb (path_exists world indexfile) then Some (Return tt, remove_entry id st)
          else
            let item := mkItem id meta index indexfile in
            bind (_collect_files_to_update data_dir self item)
                 (fun _ => _handle_files_to_update data_dir self item fuel)
                 (set_frontier Frontier.__init__ st)
    end.

(** The records the loop indexes: those with an [index] whose file
    exists. *)
Definition has_index_file (data_dir : string) (meta : dict string) : bool :=
  match get "index" meta with
  | Some index => truthy index && path_exists world (Tree.path_join data_dir index)
  | None => false
  end.

Fixpoint index_records (fuel : nat) (data_dir : string) (self : Generator)
    (records : list (string * dict string)) : M cache_state unit :=
  match records with
  | [] => ret tt
  | (id, meta) :: records' =>
      bind (index_record fuel data_dir self id meta)
           (fun _ => index_records fuel data_dir self records')
  end.

(** [max(os.stat(f).st_mtime for f in book.iter_fulltext_files())], 0 when
    there is no such file. *)
Definition newest_fulltext_file (book : Tree.Book) (fs : gmap string Tree.node) : Z :=
  match omap (fun file => Tree.node_mtime <$> fs !! file) (Tree.iter_fulltext_files book fs) with
  | [] => 0
  | t :: ts => fold_left Z.max ts t
  end.

(** [os.utime(file)] at time [now]. *)
Definition touch (now : Z) (fs : gmap string Tree.node) (file : string) : gmap string Tree.node :=
  match fs !! file with
  | Some (Tree.File text _) => <[file := Tree.File text now]> fs
  | Some (Tree.Directory _) => <[file := Tree.Directory now]> fs
  | None => fs
  end.

(** [book.fulltext != book_fulltext_orig] *)
Definition fulltext_differs (a b : dict (dict string)) : bool :=
  negb (eqb (eqb String.eqb) a b).

(** [FulltextCacheGenerator.run] (lines 49-113), the tree files written at
    time [now]: the events yielded, and the book and the tree files when it
    returns, or the exception. *)
Definition run (fuel : nat) (now : Z) (book : Tree.Book) (fs : gmap string Tree.node)
    (inclusive_frames : bool) : option (list Info * outcome (Tree.Book * gmap string Tree.node)) :=
  let started := [mkInfo info "Generating fulltext cache..."] in
  let self := mkGenerator inclusive_frames (newest_fulltext_file book fs) in
  match load_meta_files book fs with
  | Raise e => Some (started, Raise e)
  | Return book =>
      match load_toc_files book fs with
      | Raise e => Some (started, Raise e)
      | Return book =>
          match load_fulltext_files book fs with
          | Raise e => Some (started, Raise e)
          | Return book =>
              let meta_ := default [] (Tree.meta book) in
              let book_fulltext_orig := default [] (Tree.fulltext book) in
              let st := remove_stale meta_ (mkCache book_fulltext_orig Frontier.__init__ started) in
              match index_records fuel (Tree.data_dir book) self meta_ st with
              | None => None
              | Some (Raise e, st') => Some (events st', Raise e)
              | Some (Return _, st') =>
                  let book := set_book_fulltext book (fulltext st') in
                  if fulltext_differs (fulltext st') book_fulltext_orig then
                    match Tree.save_fulltext_files now book (fulltext st') fs with
                    | Tree.Raise e => Some (events st', Raise (TreeError e))
                    | Tree.Ok fs' => Some (events st', Return (book, fs'))
                    end
                  else
                    Some (events st',
                          Return (book, fold_left (touch now) (Tree.iter_fulltext_files book fs) fs))
              end
          end
      end
  end.

End Generate.
End Indexer.

(** ** Notions for the properties of the generator *)

(** The mappings a run starts from: what the book holds, or else what its
    tree files hold. *)
Definition meta_before `{Tree.Json} (book : Tree.Book) (fs : gmap string Tree.node)
  : Indexer.outcome (PyDict.dict (PyDict.dict string)) :=
  match Tree.meta book with
  | Some m => Indexer.Return m
  | None => Indexer.load_typed Indexer.attrs_of_json book fs "meta"
  end.

Definition fulltext_before `{Tree.Json} (book : Tree.Book) (fs : gmap string Tree.node)
  : Indexer.outcome (PyDict.dict (PyDict.dict string)) :=
  match Tree.fulltext book with
  | Some f => Indexer.Return f
  | None => Indexer.load_typed Indexer.entry_of_json book fs "fulltext"
  end.

(** Every text of the cache is as [normalize_space] leaves it. *)
Definition texts_normalized (ft : PyDict.dict (PyDict.dict string)) : Prop :=
  forall id entry path text,
    (id, entry) ∈ ft -> (path, text) ∈ entry -> Indexer.normalize_space text = text.

(** [os.utime] changes the time of a node and nothing else. *)
Definition retime (now : Z) (n : Tree.node) : Tree.node :=
  match n with
  | Tree.File text _ => Tree.File text now
  | Tree.Directory _ => Tree.Directory now
  end.

(** The frontier grows: the keys there are stay where they are, and a path
    that is settled (marked [False]) stays settled. *)
Definition grows (ftu ftu' : Indexer.frontier) : Prop :=
  Frontier._keys ftu `prefix_of` Frontier._keys ftu' /\
  forall k, Frontier.get ftu k = Some false -> Frontier.get ftu' k = Some false.

(** ** Notions for the layout of the shards *)

(** What [size +=] adds up to over a run of records. *)
Definition total_weight {V : Type} (weigh : V -> Z) (records : PyDict.dict V) : Z :=
  foldr (fun kv size => (weigh kv.2 + size)%Z) 0%Z records.

(** [size] starts at 1 for the first shard and at 0 for the others. *)
Definition initial_size (index : nat) : Z :=
  match index with O => 1%Z | S _ => 0%Z end.

(** The layout of the shards after a save at time [now]: the save succeeds
    and cuts the records, in order, into the runs [full] and a last run
    [rest].  Shard [n] holds the [n]th run of [full], which reaches the
    threshold with its last record and not before.  [rest] stays under the
    threshold; it is written as the last shard unless it is empty and
    comes after a full shard.  No shard follows the last one written. *)
Definition shard_layout {V : Type} (self : Tree.Book) (name : string) (now threshold : Z)
    (weigh : V -> Z) (text_of : PyDict.dict V -> string) (data : PyDict.dict V)
    (result : Tree.outcome (gmap string Tree.node)) : Prop :=
  exists (fs' : gmap string Tree.node) (full : list (PyDict.dict V)) (rest : PyDict.dict V),
    result = Tree.Ok fs' /\
    data = concat full ++ rest /\
    (forall n chunk, full !! n = Some chunk ->
       fs' !! Tree.get_tree_file self name n = Some (Tree.File (text_of chunk) now) /\
       exists body last,
         chunk = body ++ [last] /\
         (threshold <= initial_size n + total_weight weigh chunk)%Z /\
         (body <> [] -> (initial_size n + total_weight weigh body < threshold)%Z)) /\
    (rest <> [] -> (initial_size (length full) + total_weight weigh rest < threshold)%Z) /\
    match full, rest with
    | _ :: _, [] => fs' !! Tree.get_tree_file self name (length full) = None
    | _, _ =>
        fs' !! Tree.get_tree_file self name (length full) = Some (Tree.File (text_of rest) now) /\
        fs' !! Tree.get_tree_file self name (S (length full)) = None
    end.

(** ** Notions for the properties of the walk of a page *)

(** An event that may come between the start and the end of [elem]: a
    start, or the end of another element. *)
Definition inside_of (elem : Indexer.element) (event : Indexer.parse_event) : bool :=
  match event with
  | Indexer.EvStart _ _ => true
  | Indexer.EvEnd e _ => negb (Indexer.elem_id e =? Indexer.elem_id elem)%nat
  | Indexer.ParseError _ => false
  end.

(** ** Sample data *)

(** A frontier as [_collect_files_to_update] leaves it for an entry page,
    and a loop body that discovers a link on that page. *)
Definition sample_assignments : list (string * bool) :=
  [("index.html", true); ("a.html", true); ("index.html", false)].

Definition sample_discovery (key : string) (d : Frontier.MutatingDict bool)
  : list (string * bool) :=
  if String.eqb key "index.html" then [("index.html", false); ("b.html", true)] else [].

(** A lock with the defaults of [FileLock.__init__] (timeout 5 s, stale
    60 s, poll interval 0.1 s), in ticks of a tenth of a second. *)
Definition sample_lock : Host.FileLock :=
  {| Host.name := "book"; Host.timeout := 50; Host.stale := 600;
     Host.poll_interval := 1;
     Host.file := "root/.wsb/locks/d41d8cd98f00b204e9800998ecf8427e.lock";
     Host._lock := false |}.

(** At tick 1000: the lock file is held and was refreshed at tick 990. *)
Definition sample_held_fresh : Host.sim :=
  {| Host.clock := 1000; Host.locks_dir := Host.DirPresent;
     Host.files := {[ Host.file sample_lock := 990%Z ]}; Host.calls := [] |}.

(** At tick 1000: the lock file was last refreshed at tick 300. *)
Definition sample_held_stale : Host.sim :=
  {| Host.clock := 1000; Host.locks_dir := Host.DirPresent;
     Host.files := {[ Host.file sample_lock := 300%Z ]}; Host.calls := [] |}.

(** The locks directory does not exist and cannot be created (a read-only
    root): [os.makedirs] raises [PermissionError]. *)
Definition sample_locks_denied : Host.sim :=
  {| Host.clock := 1000; Host.locks_dir := Host.DirDenied;
     Host.files := ∅; Host.calls := [] |}.

Definition sample_book : Tree.Book :=
  {| Tree.tree_dir := "root/tree"; Tree.data_dir := "root";
     Tree.SAVE_META_THRESHOLD := 3; Tree.SAVE_TOC_THRESHOLD := 3;
     Tree.SAVE_FULLTEXT_THRESHOLD := 10;
     Tree.meta := None; Tree.toc := None; Tree.fulltext := None |}.

(** A full-text mapping whose first record fills a shard (threshold 10, as
    the repository's tests patch it) and whose second record has no text:
    what the indexer stores for a page with nothing to extract. *)
Definition sample_fulltext : PyDict.dict (PyDict.dict string) :=
  [("20200101000000000", [("index.html", "0123456789")]);
   ("20200101000000001", [("index.html", "")])].

(** Two records of a book: their [meta] attributes, their places in the
    table of contents, and what the indexer has extracted from the first. *)
Definition sample_meta : PyDict.dict (PyDict.dict string) :=
  [("20200101000000000", [("index", "20200101000000000/index.html"); ("title", "Dummy (1)")]);
   ("20200101000000001", [("index", "20200101000000001.htz"); ("title", "*/ Dummy 2")])].

Definition sample_toc : PyDict.dict (list string) :=
  [("root", ["20200101000000000"; "20200101000000001"]);
   ("20200101000000000", [])].

Definition sample_fulltext_texts : PyDict.dict (PyDict.dict string) :=
  [("20200101000000000", [("index.html", "dummy text (1)"); ("frame.html", "")]);
   ("20200101000000001", [("index.html", "x")])].

(** At tick 1000: no lock file, the locks directory not yet created. *)
Definition sample_free : Host.sim :=
  {| Host.clock := 1000; Host.locks_dir := Host.DirMissing;
     Host.files := ∅; Host.calls := [] |}.

(** *** A small world of record files

    Pages are given by what the parsers find in them.  The toy
    [mimetypes], [urlsplit] and [urljoin] below cover relative links between
    files of one directory. *)

Record sample_page := mkPage {
  page_events : list Indexer.parse_event;
  page_refresh : list (Z * option string);
  page_text : string;
}.

Definition ends_with (suffix s : string) : bool :=
  let l := list_ascii_of_string s in
  let k := list_ascii_of_string suffix in
  String.eqb (string_of_list_ascii (drop (length l - length k) l)) suffix.

Definition has_colon (s : string) : bool :=
  existsb (Ascii.eqb ":"%char) (list_ascii_of_string s).

(** The directory part of a URL, with its last slash. *)
Definition url_dir (url : string) : string :=
  string_of_list_ascii
    (rev (Host.dropwhile_bool (fun c => negb (Ascii.eqb c "/"%char))
            (rev (list_ascii_of_string url)))).

#[global] Instance sample_externals : Indexer.Externals sample_page := {
  Indexer.guess_type name :=
    if ends_with ".html" name then Some "text/html"
    else if ends_with ".txt" name then Some "text/plain"
    else if ends_with ".htz" name then Some "application/html+zip"
    else if ends_with ".maff" name then Some "application/x-maff"
    else None;
  Indexer.sniff_bom _ := None;
  Indexer.get_charset _ := None;
  Indexer.fix_codec c := c;
  Indexer.iter_meta_refresh page := Indexer.Return (page_refresh page);
  Indexer.iterparse page _ := page_events page;
  Indexer.decode page _ := Indexer.Return (page_text page);
  Indexer.parse_datauri _ := None;
  Indexer.urlsplit url :=
    {| Indexer.scheme := if has_colon url then "http" else "";
       Indexer.netloc := ""; Indexer.path := url |};
  Indexer.urljoin base url := url_dir base +:+ url;
  Indexer.quote s := s;
  Indexer.unquote s := s;
}.

(** An element with one attribute, and a page made of a body with text and
    elements in it. *)
Definition sample_elem (n : nat) (tag attr value : string) : Indexer.element :=
  {| Indexer.elem_id := n; Indexer.tag := tag; Indexer.attrib := [(attr, value)] |}.

Definition sample_body : Indexer.element :=
  {| Indexer.elem_id := 0; Indexer.tag := "body"; Indexer.attrib := [] |}.

(** [<body>text <tag attr=value></tag> ... </body>] *)
Definition sample_html (text : string) (elems : list (string * string * string))
  : sample_page :=
  {| page_events :=
       Indexer.EvStart sample_body None ::
       concat (imap (fun n '(tag, attr, value) =>
                       [Indexer.EvStart (sample_elem (S n) tag attr value)
                          (if (n =? 0)%nat then Some text else None);
                        Indexer.EvEnd (sample_elem (S n) tag attr value) None]) elems)
       ++ [Indexer.EvEnd sample_body (match elems with [] => Some text | _ => None end)];
     page_refresh := [];
     page_text := "" |}.

(** A page the parser fails on. *)
Definition sample_broken : sample_page :=
  {| page_events := [Indexer.ParseError "XMLSyntaxError"]; page_refresh := [];
     page_text := "" |}.

(** Loose files, with their times and contents, and no archive. *)
Definition sample_world (files : list (string * (Z * sample_page)))
  : Indexer.World sample_page :=
  {| Indexer.path_exists p := PyDict.contains p files;
     Indexer.stat_mtime p := fst <$> PyDict.get p files;
     Indexer.open_rb p := snd <$> PyDict.get p files;
     Indexer.zipfile _ := None;
     Indexer.get_maff_pages _ := Indexer.Return [] |}.

(** The record [20200101000000000] of [sample_meta]: its index page links
    to [b.html] and then to [c.html], and [b.html] shows [c.html] in a
    frame.  The index page is dated [t_index], the two others 10. *)
Definition sample_site (t_index : Z) : Indexer.World sample_page :=
  sample_world
    [("root/20200101000000000/index.html",
      (t_index, sample_html "a" [("a", "href", "b.html"); ("a", "href", "c.html")]));
     ("root/20200101000000000/b.html", (10%Z, sample_html "b" [("iframe", "src", "c.html")]));
     ("root/20200101000000000/c.html", (10%Z, sample_html "c" []))].

Definition sample_loaded_book (fulltext : PyDict.dict (PyDict.dict string)) : Tree.Book :=
  {| Tree.tree_dir := "root/tree"; Tree.data_dir := "root";
     Tree.SAVE_META_THRESHOLD := 3; Tree.SAVE_TOC_THRESHOLD := 3;
     Tree.SAVE_FULLTEXT_THRESHOLD := 10;
     Tree.meta := Some [("20200101000000000", [("index", "20200101000000000/index.html")])];
     Tree.toc := Some []; Tree.fulltext := Some fulltext |}.

(** A record kept as a folder: the index page shows [f.html] in a frame. *)
Definition sample_framed_world : Indexer.World sample_page :=
  sample_world
    [("root/r/index.html", (5%Z, sample_html "x" [("iframe", "src", "f.html")]));
     ("root/r/f.html", (5%Z, sample_html "in the frame" []))].

Definition sample_framed_item : Indexer.FulltextCacheItem :=
  Indexer.mkItem "r" [("index", "r/index.html")] "r/index.html" "root/r/index.html".

(** The state of the generator before the paths of the record are handled:
    texts for the frame and for a file that is gone, all paths pending. *)
Definition sample_framed_state : Indexer.cache_state :=
  Indexer.mkCache
    [("r", [("f.html", "old"); ("gone.html", "old")])]
    (Frontier.assign_all [("index.html", true); ("f.html", true); ("gone.html", true)]
       Frontier.__init__)
    [].

(** A book with one record kept as an archive, indexed before: the archive
    dates from 5, the full-text shard from 9.  The world has no way to open
    the archive. *)
Definition sample_archive_world : Indexer.World sample_page :=
  sample_world [("root/a.htz", (5%Z, sample_broken))].

Definition sample_archive_book : Tree.Book :=
  {| Tree.tree_dir := "root/tree"; Tree.data_dir := "root";
     Tree.SAVE_META_THRESHOLD := 3; Tree.SAVE_TOC_THRESHOLD := 3;
     Tree.SAVE_FULLTEXT_THRESHOLD := 10;
     Tree.meta := Some [("a", [("index", "a.htz")])];
     Tree.toc := Some [];
     Tree.fulltext := Some [("a", [("index.html", "old text")])] |}.

Definition sample_archive_files : gmap string Tree.node :=
  {[ Tree.get_tree_file sample_archive_book "fulltext" 0 := Tree.File "" 9%Z ]}.

(* PART-I-END *)

(** * Part II: properties *)

Section FrontierFacts.
Import Frontier.
Context {V : Type}.
Implicit Types (d : MutatingDict V) (k : string) (v : V).

Lemma wf_init_dict : wf (@__init__ V).
Proof.
  split; [constructor|]. intros k. cbn. rewrite lookup_empty. split.
  - intros H. inversion H.
  - intros [x Hx]. discriminate.
Qed.

Lemma contains_spec d k : wf d -> __contains__ d k = true <-> k ∈ _keys d.
Proof.
  intros [_ Hd]. unfold __contains__. rewrite bool_decide_eq_true. symmetry. apply Hd.
Qed.

Lemma wf_setitem d k v : wf d -> wf (__setitem__ d k v).
Proof.
  intros Hwf. pose proof (contains_spec d k Hwf) as Hc. destruct Hwf as [Hnd Hd].
  unfold __setitem__, wf. destruct (__contains__ d k) eqn:E; cbn.
  - split; [done|]. intros k'. destruct (decide (k = k')) as [->|Hne].
    + rewrite lookup_insert_eq. split; [eauto|]. intros _. by apply Hc.
    + rewrite lookup_insert_ne by done. apply Hd.
  - assert (k ∉ _keys d) as Hnin. { intros Hin. apply Hc in Hin. congruence. }
    split.
    + apply NoDup_app. split; [done|]. split; [|apply NoDup_singleton].
      intros x Hx Hx'. apply list_elem_of_singleton in Hx'. by subst.
    + intros k'. rewrite elem_of_app, list_elem_of_singleton.
      destruct (decide (k = k')) as [->|Hne].
      * rewrite lookup_insert_eq. split; eauto.
      * rewrite lookup_insert_ne by done. rewrite <- Hd. split; [intros [?|?]; [done|congruence]|auto].
Qed.

Lemma wf_assign_all kvs d : wf d -> wf (assign_all kvs d).
Proof.
  revert d. induction kvs as [|[k v] kvs IH]; intros d Hd; cbn; [done|].
  apply IH. by apply wf_setitem.
Qed.

Lemma keys_setitem d k v :
  wf d -> _keys (__setitem__ d k v) = _keys d ++ filter (fun y : string => y ∉ _keys d) [k].
Proof.
  intros Hwf. pose proof (contains_spec d k Hwf) as Hc. unfold __setitem__; cbn [_keys].
  destruct (__contains__ d k) eqn:E.
  - rewrite filter_cons_False, filter_nil, app_nil_r; [done|]. intros Hn. apply Hn. by apply Hc.
  - rewrite filter_cons_True; [done|]. intros Hin. apply Hc in Hin. congruence.
Qed.

Lemma assign_all_cons k v kvs d :
  assign_all ((k, v) :: kvs) d = assign_all kvs (__setitem__ d k v).
Proof. reflexivity. Qed.

Lemma keys_assign_all kvs d :
  wf d ->
  _keys (assign_all kvs d) = _keys d ++ filter (fun y : string => y ∉ _keys d) (first_seen (kvs.*1)).
Proof.
  revert d. induction kvs as [|[k v] kvs IH]; intros d Hwf.
  - cbn. by rewrite app_nil_r.
  - rewrite assign_all_cons, IH by (by apply wf_setitem). rewrite keys_setitem by done.
    rewrite fmap_cons. cbn [fst first_seen].
    rewrite <- app_assoc. f_equal.
    destruct (decide (k ∈ _keys d)) as [Hin|Hnin].
    + rewrite !filter_cons_False by (intros Hn; by apply Hn). rewrite filter_nil.
      rewrite app_nil_l, app_nil_r.
      rewrite list_filter_filter. apply list_filter_iff. intros x. split; [|tauto].
      intros Hx. split; [done|]. intros ->. done.
    + rewrite !filter_cons_True by done. rewrite filter_nil. cbn [app]. f_equal.
      rewrite list_filter_filter. apply list_filter_iff. intros x.
      rewrite elem_of_app, list_elem_of_singleton. tauto.
Qed.

Lemma first_seen_elem l x : x ∈ first_seen l <-> x ∈ l.
Proof.
  induction l as [|y l IH]; cbn [first_seen]; [done|].
  rewrite !elem_of_cons, list_elem_of_filter, IH.
  destruct (decide (x = y)); tauto.
Qed.

Lemma first_seen_NoDup l : NoDup (first_seen l).
Proof.
  induction l as [|y l IH]; cbn [first_seen]; [constructor|].
  constructor.
  - rewrite list_elem_of_filter. tauto.
  - by apply NoDup_filter.
Qed.

Lemma keys_from_init (kvs : list (string * V)) :
  _keys (assign_all kvs __init__) = first_seen (kvs.*1).
Proof.
  rewrite keys_assign_all by apply wf_init_dict. cbn [_keys __init__ app].
  induction (first_seen (kvs.*1)) as [|x l IH]; [done|].
  rewrite filter_cons_True by apply not_elem_of_nil. by f_equal.
Qed.

Lemma keys_prefix kvs d : wf d -> _keys d `prefix_of` _keys (assign_all kvs d).
Proof. intros Hwf. rewrite keys_assign_all by done. by eexists. Qed.

Lemma assigned_key_elem kvs d kv : wf d -> kv ∈ kvs -> kv.1 ∈ _keys (assign_all kvs d).
Proof.
  intros Hwf Hin. rewrite keys_assign_all by done. rewrite elem_of_app.
  destruct (decide (kv.1 ∈ _keys d)); [by left|right].
  rewrite list_elem_of_filter. split; [done|]. apply first_seen_elem.
  by apply list_elem_of_fmap_2.
Qed.

Lemma iterate_sound fuel body i d visited log res :
  wf d ->
  visited = take i (_keys d) -> i <= length (_keys d) ->
  (forall kv, kv ∈ log -> kv.1 ∈ _keys d) ->
  iterate fuel body i d visited log = Some res ->
  res.1.1 = _keys res.2 /\ wf res.2 /\ _keys d `prefix_of` _keys res.2 /\
  (forall kv, kv ∈ res.1.2 -> kv.1 ∈ res.1.1) /\ log `prefix_of` res.1.2.
Proof.
  revert i d visited log. induction fuel as [|fuel IH]; intros i d visited log Hwf Hv Hi Hlog; [done|].
  cbn [iterate]. unfold __next__. destruct (_keys d !! i) as [key|] eqn:Hk.
  - intros Hres.
    pose proof (keys_prefix (body key d) d Hwf) as [suf Hsuf].
    assert (Hlt : i < length (_keys d)) by (by eapply lookup_lt_Some).
    assert (Hwf' : wf (assign_all (body key d) d)) by (by apply wf_assign_all).
    assert (Ha : visited ++ [key] = take (S i) (_keys (assign_all (body key d) d))).
    { rewrite Hsuf, take_app_le by lia. rewrite (take_S_r _ _ key) by done. by subst. }
    assert (Hb : S i <= length (_keys (assign_all (body key d) d))).
    { rewrite Hsuf, length_app. lia. }
    assert (Hc : forall kv, kv ∈ log ++ body key d ->
                 kv.1 ∈ _keys (assign_all (body key d) d)).
    { intros kv. rewrite elem_of_app. intros [Hkv|Hkv].
      - rewrite Hsuf, elem_of_app. left. by apply Hlog.
      - by apply assigned_key_elem. }
    destruct (IH _ _ _ _ Hwf' Ha Hb Hc Hres) as (H1 & H2 & H3 & H4 & H5).
    split_and!; try done.
    + etrans; [|exact H3]. by exists suf.
    + etrans; [|exact H5]. by eexists.
  - intros [= <-]. cbn. apply lookup_ge_None in Hk.
    rewrite take_ge in Hv by done. subst visited. split_and!; done.
Qed.

Lemma assign_all_app kvs1 kvs2 d :
  assign_all (kvs1 ++ kvs2) d = assign_all kvs2 (assign_all kvs1 d).
Proof. unfold assign_all. apply fold_left_app. Qed.

Lemma iterate_replay fuel body i d visited log res d0 :
  d = assign_all log d0 ->
  iterate fuel body i d visited log = Some res ->
  res.2 = assign_all res.1.2 d0.
Proof.
  revert i d visited log. induction fuel as [|fuel IH]; intros i d visited log Hd; [done|].
  cbn [iterate]. destruct (__next__ d i) as [[key i']|].
  - apply IH. by rewrite assign_all_app, Hd.
  - by intros [= <-].
Qed.

Lemma iterate_total fuel body i d visited log (K U : list string) :
  wf d ->
  (forall k d', Forall (fun kv : string * V => kv.1 ∈ U) (body k d')) ->
  (forall k, k ∈ U -> k ∈ K) ->
  (forall k, k ∈ _keys d -> k ∈ K) ->
  i <= length (_keys d) ->
  length K < fuel + i ->
  is_Some (iterate fuel body i d visited log).
Proof.
  intros Hwf Hbody HU. revert i d visited log Hwf.
  induction fuel as [|fuel IH]; intros i d visited log Hwf HK Hi Hfuel.
  - assert (length (_keys d) <= length K); [|lia].
    apply submseteq_length, NoDup_submseteq; [apply Hwf|done].
  - cbn [iterate]. unfold __next__. destruct (_keys d !! i) as [key|] eqn:Hk; [|eauto].
    pose proof (keys_prefix (body key d) d Hwf) as [suf Hsuf].
    apply lookup_lt_Some in Hk.
    apply IH.
    + by apply wf_assign_all.
    + intros k. rewrite keys_assign_all, elem_of_app, list_elem_of_filter, first_seen_elem by done.
      intros [?|[_ Hin]]; [by apply HK|]. apply HU.
      apply list_elem_of_fmap in Hin as [kv [-> Hkv]].
      pose proof (Hbody key d) as HF. rewrite Forall_forall in HF. by apply HF.
    + rewrite Hsuf, length_app. lia.
    + lia.
Qed.

(** C10.  Frontier iteration invariant.  For every sequence [kvs] of key
    assignments made to a fresh [MutatingDict]: its key list is the distinct
    keys in first-insertion order, without duplicates; assigning to a key
    that is present leaves the key list as it is (no reordering, no
    duplicate), assigning to a new key appends it; a [for] loop over the
    dictionary whose body makes further assignments visits exactly the keys
    of the final dictionary, each once, in first-insertion order over the
    assignments made before and during the loop, so every key assigned
    during the loop is visited by that loop; and when the keys the body may
    assign come from a finite list [U], the loop ends within
    [length _keys + length U + 1] steps. *)
Theorem MutatingDict_iteration_visits_each_key_once
    (kvs : list (string * V)) (body : string -> MutatingDict V -> list (string * V)) :
  let d0 := assign_all kvs __init__ in
  _keys d0 = first_seen (kvs.*1) /\
  NoDup (_keys d0) /\
  (forall k v, _keys (__setitem__ d0 k v)
               = if decide (k ∈ _keys d0) then _keys d0 else _keys d0 ++ [k]) /\
  (forall fuel visited log d',
      iterate fuel body 0 d0 [] [] = Some (visited, log, d') ->
      visited = _keys d' /\ NoDup visited /\
      visited = first_seen ((kvs ++ log).*1) /\
      (forall kv, kv ∈ log -> kv.1 ∈ visited)) /\
  (forall U : list string,
      (forall k d, Forall (fun kv : string * V => kv.1 ∈ U) (body k d)) ->
      is_Some (iterate (S (length (_keys d0) + length U)) body 0 d0 [] [])).
Proof.
  intros d0. assert (Hwf : wf d0) by apply wf_assign_all, wf_init_dict.
  split_and!.
  - apply keys_from_init.
  - apply Hwf.
  - intros k v. rewrite keys_setitem by done. destruct (decide (k ∈ _keys d0)).
    + rewrite filter_cons_False by (intros Hn; by apply Hn). by rewrite filter_nil, app_nil_r.
    + by rewrite filter_cons_True, filter_nil by done.
  - intros fuel visited log d' Hit.
    pose proof (iterate_sound _ _ _ _ _ _ _ Hwf eq_refl (Nat.le_0_l _)
                  (fun kv (H : kv ∈ []) => False_ind _ (not_elem_of_nil _ H)) Hit)
      as (H1 & H2 & _ & H4 & _).
    pose proof (iterate_replay fuel body 0 d0 [] [] _ d0 eq_refl Hit) as H5. cbn [fst snd] in H1, H2, H4, H5.
    split_and!; try done.
    + rewrite H1. apply H2.
    + rewrite H1, H5. subst d0. rewrite <- assign_all_app. apply keys_from_init.
  - intros U HU. apply (iterate_total _ _ _ _ _ _ (_keys d0 ++ U) U); try done.
    + intros k Hk. apply elem_of_app. by right.
    + intros k Hk. apply elem_of_app. by left.
    + lia.
    + rewrite length_app. lia.
Qed.
End FrontierFacts.

Lemma MutatingDict_iteration_witness :
  Frontier._keys (Frontier.assign_all sample_assignments Frontier.__init__)
  = first_seen (sample_assignments.*1) /\
  is_Some (Frontier.iterate 5 sample_discovery 0
             (Frontier.assign_all sample_assignments Frontier.__init__) [] []).
Proof.
  destruct (MutatingDict_iteration_visits_each_key_once sample_assignments sample_discovery)
    as (H1 & _ & _ & _ & H5).
  split; [exact H1|].
  apply (H5 ["index.html"; "b.html"]).
  intros k d. unfold sample_discovery.
  destruct (String.eqb k "index.html"); repeat constructor.
Defined.

Section HostFacts.
Import Host.
Context {W : Type} `{OS W}.
Implicit Types (self : FileLock) (w : W) (e : exn).

(** On an existing lock file the attempt ends in the timeout error exactly
    when the clock has reached the deadline. *)
Lemma acquire_attempt_timeout_iff self timeout_time w :
  (exists w', acquire_attempt self timeout_time w = (Throw (timeout_error self), w')) <->
  (exists w1, open_x (file self) w = (FileExistsError, w1) /\
              (timeout_time <= (time_time w1).1)%Z).
Proof.
  unfold acquire_attempt.
  destruct (open_x (file self) w) as [[u| | |] w1] eqn:Ho.
  - split; [intros [w' Hw']; discriminate|intros (w1' & Hw1 & _); discriminate].
  - destruct (time_time w1) as [t w2] eqn:Ht. cbn [fst].
    destruct (Z.geb_spec t timeout_time) as [Hge|Hlt].
    + split; [intros _; exists w1; split; [done|rewrite Ht; cbn; lia]|intros _; by exists w2].
    + split; [|intros (w1' & [= <-] & Hle); rewrite Ht in Hle; cbn in Hle; lia].
      intros [w' Hw']. exfalso.
      destruct (os_stat_mtime (file self) w2) as [[m| | |] w3]; try discriminate.
      destruct (m + stale self <=? t)%Z eqn:E; rewrite Z.geb_leb in Hw'; rewrite E in Hw';
        [|discriminate].
      destruct (os_utime (file self) w3) as [[u| | |] w4]; discriminate.
  - split; [intros [w' Hw']; discriminate|intros (w1' & Hw1 & _); discriminate].
  - split; [intros [w' Hw']; discriminate|intros (w1' & Hw1 & _); discriminate].
Qed.

Lemma acquire_attempt_takeover self timeout_time w w1 t w2 mtime w3 u w4 :
  open_x (file self) w = (FileExistsError, w1) ->
  time_time w1 = (t, w2) ->
  (t < timeout_time)%Z ->
  os_stat_mtime (file self) w2 = (Done mtime, w3) ->
  (mtime + stale self <= t)%Z ->
  os_utime (file self) w3 = (Done u, w4) ->
  acquire_attempt self timeout_time w = (Break, w4).
Proof.
  intros Ho Ht Hlt Hs Hst Hu. unfold acquire_attempt. rewrite Ho, Ht.
  destruct (Z.geb_spec t timeout_time); [lia|]. rewrite Hs.
  destruct (Z.geb_spec t (mtime + stale self)); [|lia]. by rewrite Hu.
Qed.

Lemma acquire_attempt_wait self timeout_time w w1 t w2 mtime w3 :
  open_x (file self) w = (FileExistsError, w1) ->
  time_time w1 = (t, w2) ->
  (t < timeout_time)%Z ->
  os_stat_mtime (file self) w2 = (Done mtime, w3) ->
  (t < mtime + stale self)%Z ->
  acquire_attempt self timeout_time w = (Continue, time_sleep (poll_interval self) w3).
Proof.
  intros Ho Ht Hlt Hs Hst. unfold acquire_attempt. rewrite Ho, Ht.
  destruct (Z.geb_spec t timeout_time); [lia|]. rewrite Hs.
  destruct (Z.geb_spec t (mtime + stale self)); [lia|]. done.
Qed.

(** A failed exclusive creation, for a reason other than the file being
    there, ends the loop at once with the generate error. *)
Lemma acquire_loop_create_failure fuel self timeout_time w r w1 :
  open_x (file self) w = (r, w1) ->
  r = FileNotFoundError \/ r = OSError ->
  acquire_loop (S fuel) self timeout_time w = Some (Raise (generate_error self), w1).
Proof.
  intros Ho Hr. cbn [acquire_loop]. unfold acquire_attempt. rewrite Ho.
  by destruct Hr as [-> | ->].
Qed.

(** A failed [os.stat] of the existing lock file, for a reason other than
    the file having vanished, ends the loop at once with the generate
    error. *)
Lemma acquire_loop_stat_failure fuel self timeout_time w w1 t w2 r w3 :
  open_x (file self) w = (FileExistsError, w1) ->
  time_time w1 = (t, w2) ->
  (t < timeout_time)%Z ->
  os_stat_mtime (file self) w2 = (r, w3) ->
  r = FileExistsError \/ r = OSError ->
  acquire_loop (S fuel) self timeout_time w = Some (Raise (generate_error self), w3).
Proof.
  intros Ho Ht Hlt Hs Hr. cbn [acquire_loop]. unfold acquire_attempt. rewrite Ho, Ht.
  destruct (Z.geb_spec t timeout_time); [lia|]. rewrite Hs.
  by destruct Hr as [-> | ->].
Qed.

(** A failed [os.makedirs], for a reason other than the directory being
    there, makes [acquire] raise [NameError]. *)
Lemma acquire_makedirs_failure fuel self w now w0 r w1 :
  _lock self = false ->
  time_time w = (now, w0) ->
  os_makedirs (os_path_dirname (file self)) w0 = (r, w1) ->
  r = FileNotFoundError \/ r = OSError ->
  acquire fuel self w = Some (Raise (NameError "name 'name' is not defined"), w1).
Proof.
  intros Hl Ht Hm Hr. unfold acquire. rewrite Hl, Ht, Hm. by destruct Hr as [-> | ->].
Qed.

End HostFacts.

Section SimFacts.
Import Host.
Implicit Types (self : FileLock) (w : sim).

Lemma sim_attempt_on_existing self timeout_time w mtime :
  files w !! file self = Some mtime ->
  acquire_attempt self timeout_time w =
    if (clock w >=? timeout_time)%Z then
      (Throw (timeout_error self), add_calls [CallOpenX (file self); CallTime] w)
    else if (clock w >=? mtime + stale self)%Z then
      (Break, set_files (<[file self := clock w]> (files w))
                (add_calls [CallOpenX (file self); CallTime; CallStat (file self);
                            CallUtime (file self)] w))
    else
      (Continue, {| clock := (clock w + poll_interval self)%Z; locks_dir := locks_dir w;
                    files := files w;
                    calls := calls w ++ wait_calls self 1 |}).
Proof.
  intros Hf. unfold acquire_attempt. cbn. unfold sim_open_x. cbn. rewrite Hf. cbn.
  destruct (clock w >=? timeout_time)%Z.
  - unfold add_calls, record_call. cbn. by rewrite <- app_assoc.
  - unfold sim_stat_mtime. cbn. rewrite Hf.
    destruct (clock w >=? mtime + stale self)%Z.
    + unfold sim_utime. cbn. rewrite Hf. unfold set_files, add_calls. cbn.
      by rewrite <- !app_assoc.
    + unfold sim_sleep. cbn. by rewrite <- !app_assoc.
Qed.

Lemma sim_acquire_loop_outcome n self timeout_time w mtime :
  files w !! file self = Some mtime ->
  (0 < poll_interval self)%Z ->
  (Z.min timeout_time (mtime + stale self) - clock w <= Z.of_nat n * poll_interval self)%Z ->
  exists (k : nat) r w',
    acquire_loop (S n) self timeout_time w = Some (r, w') /\
    clock w' = (clock w + Z.of_nat k * poll_interval self)%Z /\
    locks_dir w' = locks_dir w /\
    (k = O \/ (clock w' - poll_interval self < timeout_time /\
               clock w' - poll_interval self < mtime + stale self)%Z) /\
    ((timeout_time <= clock w')%Z /\ r = Raise (timeout_error self) /\
       files w' = files w /\
       calls w' = calls w ++ wait_calls self k ++ [CallOpenX (file self); CallTime]
     \/
     (clock w' < timeout_time)%Z /\ (mtime + stale self <= clock w')%Z /\ r = Return tt /\
       files w' = <[file self := clock w']> (files w) /\
       calls w' = calls w ++ wait_calls self k ++
                  [CallOpenX (file self); CallTime; CallStat (file self);
                   CallUtime (file self)]).
Proof.
  revert w. induction n as [|n IH]; intros w Hf Hp Hn.
  - cbn [acquire_loop]. rewrite (sim_attempt_on_existing _ _ _ _ Hf).
    destruct (Z.geb_spec (clock w) timeout_time) as [Hto|Hto].
    + exists O. eexists _, _. split; [done|]. cbn. split_and!; try done; try lia. left; tauto.
    + destruct (Z.geb_spec (clock w) (mtime + stale self)) as [Hst|Hst]; [|lia].
      exists O. eexists _, _. split; [done|]. cbn. split_and!; try done; try lia.
      right. split_and!; try done; lia.
  - cbn [acquire_loop]. rewrite (sim_attempt_on_existing _ _ _ _ Hf).
    destruct (Z.geb_spec (clock w) timeout_time) as [Hto|Hto].
    + exists O. eexists _, _. split; [done|]. cbn. split_and!; try done; try lia. left; tauto.
    + destruct (Z.geb_spec (clock w) (mtime + stale self)) as [Hst|Hst].
      * exists O. eexists _, _. split; [done|]. cbn. split_and!; try done; try lia.
        right. split_and!; try done; lia.
      * set (w1 := {| clock := (clock w + poll_interval self)%Z |}).
        destruct (IH w1) as (k & r & w' & Hloop & Hclock & Hdir & Hk & Hout).
        { done. } { done. } { cbn. lia. }
        exists (S k), r, w'. split; [exact Hloop|]. cbn [clock locks_dir files calls w1] in *.
        split_and!.
        -- lia.
        -- done.
        -- right. destruct Hk as [->|Hk]; lia.
        -- destruct Hout as [(H1 & H2 & H3 & H4)|(H1 & H2 & H3 & H4 & H5)]; [left|right];
             split_and!; try done.
           ++ rewrite H4. cbn [wait_calls]. by rewrite <- !app_assoc.
           ++ rewrite H5. cbn [wait_calls]. by rewrite <- !app_assoc.
Qed.

Lemma sim_acquire_on_held_lock self w mtime :
  _lock self = false ->
  locks_dir w <> DirDenied ->
  files w !! file self = Some mtime ->
  (0 < poll_interval self)%Z ->
  let deadline := (clock w + timeout self)%Z in
  exists (fuel k : nat) r w',
    acquire fuel self w = Some (r, w') /\
    clock w' = (clock w + Z.of_nat k * poll_interval self)%Z /\
    (k = O \/ (clock w' - poll_interval self < deadline /\
               clock w' - poll_interval self < mtime + stale self)%Z) /\
    ((deadline <= clock w')%Z /\ r = Raise (timeout_error self) /\
       files w' = files w /\
       calls w' = calls w ++ [CallTime; CallMakedirs (posix_dirname (file self))] ++
                  wait_calls self k ++ [CallOpenX (file self); CallTime]
     \/
     (clock w' < deadline)%Z /\ (mtime + stale self <= clock w')%Z /\
       r = Return (set_lock self true) /\
       files w' = <[file self := clock w']> (files w) /\
       calls w' = calls w ++ [CallTime; CallMakedirs (posix_dirname (file self))] ++
                  wait_calls self k ++
                  [CallOpenX (file self); CallTime; CallStat (file self);
                   CallUtime (file self)]).
Proof.
  intros Hl Hdir Hf Hp deadline.
  set (gap := (Z.min deadline (mtime + stale self) - clock w)%Z).
  set (n := Z.to_nat (gap / poll_interval self + 1)).
  assert (Hn : (gap <= Z.of_nat n * poll_interval self)%Z).
  { destruct (Z.le_gt_cases 0 gap) as [Hpos|Hneg].
    - pose proof (Z.mul_succ_div_gt gap (poll_interval self) Hp) as Hdiv.
      pose proof (Z.div_pos gap (poll_interval self) Hpos Hp) as Hq.
      unfold n. rewrite Z2Nat.id by lia. lia.
    - assert (0 <= Z.of_nat n * poll_interval self)%Z by (apply Z.mul_nonneg_nonneg; lia). lia. }
  set (w1 := match locks_dir w with
             | DirMissing =>
                 {| clock := clock w; locks_dir := DirPresent; files := files w;
                    calls := calls w ++ [CallTime; CallMakedirs (posix_dirname (file self))] |}
             | _ => add_calls [CallTime; CallMakedirs (posix_dirname (file self))] w
             end).
  assert (Hw1 : clock w1 = clock w /\ files w1 = files w /\
                calls w1 = calls w ++ [CallTime; CallMakedirs (posix_dirname (file self))]).
  { unfold w1. by destruct (locks_dir w). }
  destruct Hw1 as (Hc1 & Hf1 & Hcalls1).
  destruct (sim_acquire_loop_outcome n self deadline w1 mtime) as
    (k & r & w' & Hloop & Hclock & _ & Hk & Hout).
  { by rewrite Hf1. } { done. } { rewrite Hc1. exact Hn. }
  assert (Hacq : acquire (S n) self w =
                 match r with
                 | Return _ => Some (Return (set_lock self true), w')
                 | Raise e => Some (Raise e, w')
                 end).
  { unfold acquire. rewrite Hl. cbn -[acquire_loop]. unfold sim_makedirs. cbn -[acquire_loop].
    destruct (locks_dir w) eqn:Hd; [| |done].
    - unfold record_call. cbn -[acquire_loop].
      replace (mkSim (clock w) DirPresent (files w)
                 ((calls w ++ [CallTime]) ++ [CallMakedirs (posix_dirname (file self))]))
        with w1 by (unfold w1; rewrite ?Hd; cbn; by rewrite <- ?app_assoc).
      fold deadline. rewrite Hloop. by destruct r.
    - replace (record_call (CallMakedirs (posix_dirname (file self))) (record_call CallTime w))
        with w1 by (unfold w1, add_calls, record_call; rewrite ?Hd; cbn; by rewrite <- ?app_assoc).
      fold deadline. rewrite Hloop. by destruct r. }
  rewrite Hc1, Hf1, Hcalls1 in *.
  destruct Hout as [(H1 & -> & H3 & H4)|(H1 & H2 & -> & H4 & H5)].
  - exists (S n), k, (Raise (timeout_error self)), w'. split; [exact Hacq|].
    split_and!; try done. left. split_and!; try done. by rewrite H4, <- !app_assoc.
  - exists (S n), k, (Return (set_lock self true)), w'. split; [exact Hacq|].
    split_and!; try done. right. split_and!; try done. by rewrite H5, <- !app_assoc.
Qed.
End SimFacts.

(** C8.  Lock timeout versus stale takeover.
    (1) In every environment, a pass of the loop that finds the lock file
    existing raises the timeout error exactly when the clock has reached the
    deadline.  (2) Before the deadline, when the file's mtime plus [stale]
    has passed and the refresh succeeds, the pass ends the loop with the
    lock taken, after [os.utime] on the existing file.  (3) Before the
    deadline, when the lock is not stale, the pass sleeps [poll_interval]
    and the loop goes round again.
    (4) In the simulated file system, [acquire] on a lock file that another
    holder keeps at [mtime], with deadline [now + timeout], polls at
    [now, now + poll, ...] and stops at the first instant that has reached
    the deadline or the stale time: with the timeout error and the lock file
    untouched when it is the deadline, and with the lock held and the same
    file's mtime set to that instant otherwise (the only calls are failed
    exclusive creations, reads of the clock and of the mtime, sleeps, and
    one [os.utime]: no removal, no creation).
    (5) Hence a lock that does not go stale before the deadline makes
    [acquire] wait until the deadline and fail with the timeout error, and
    (6) a lock that is already stale is taken over at once. *)
Theorem FileLock_acquire_timeout_versus_stale_takeover :
  (forall (W : Type) (os : Host.OS W) (self : Host.FileLock) (timeout_time : Z) (w : W),
      (exists w', Host.acquire_attempt self timeout_time w
                  = (Host.Throw (Host.timeout_error self), w')) <->
      (exists w1, Host.open_x (Host.file self) w = (Host.FileExistsError, w1) /\
                  (timeout_time <= (Host.time_time w1).1)%Z)) /\
  (forall (W : Type) (os : Host.OS W) (self : Host.FileLock) (timeout_time : Z)
          (w w1 w2 w3 w4 : W) (t mtime : Z) (u : unit),
      Host.open_x (Host.file self) w = (Host.FileExistsError, w1) ->
      Host.time_time w1 = (t, w2) ->
      (t < timeout_time)%Z ->
      Host.os_stat_mtime (Host.file self) w2 = (Host.Done mtime, w3) ->
      (mtime + Host.stale self <= t)%Z ->
      Host.os_utime (Host.file self) w3 = (Host.Done u, w4) ->
      Host.acquire_attempt self timeout_time w = (Host.Break, w4)) /\
  (forall (W : Type) (os : Host.OS W) (self : Host.FileLock) (timeout_time : Z)
          (w w1 w2 w3 : W) (t mtime : Z),
      Host.open_x (Host.file self) w = (Host.FileExistsError, w1) ->
      Host.time_time w1 = (t, w2) ->
      (t < timeout_time)%Z ->
      Host.os_stat_mtime (Host.file self) w2 = (Host.Done mtime, w3) ->
      (t < mtime + Host.stale self)%Z ->
      Host.acquire_attempt self timeout_time w
      = (Host.Continue, Host.time_sleep (Host.poll_interval self) w3)) /\
  (forall (self : Host.FileLock) (w : Host.sim) (mtime : Z),
      Host._lock self = false ->
      Host.locks_dir w <> Host.DirDenied ->
      Host.files w !! Host.file self = Some mtime ->
      (0 < Host.poll_interval self)%Z ->
      let deadline := (Host.clock w + Host.timeout self)%Z in
      (exists (fuel k : nat) r w',
          Host.acquire fuel self w = Some (r, w') /\
          Host.clock w' = (Host.clock w + Z.of_nat k * Host.poll_interval self)%Z /\
          (k = O \/ (Host.clock w' - Host.poll_interval self < deadline /\
                     Host.clock w' - Host.poll_interval self < mtime + Host.stale self)%Z) /\
          ((deadline <= Host.clock w')%Z /\ r = Host.Raise (Host.timeout_error self) /\
             Host.files w' = Host.files w /\
             Host.calls w' = Host.calls w ++
               [Host.CallTime; Host.CallMakedirs (Host.posix_dirname (Host.file self))] ++
               Host.wait_calls self k ++ [Host.CallOpenX (Host.file self); Host.CallTime]
           \/
           (Host.clock w' < deadline)%Z /\ (mtime + Host.stale self <= Host.clock w')%Z /\
             r = Host.Return (Host.set_lock self true) /\
             Host.files w' = <[Host.file self := Host.clock w']> (Host.files w) /\
             Host.calls w' = Host.calls w ++
               [Host.CallTime; Host.CallMakedirs (Host.posix_dirname (Host.file self))] ++
               Host.wait_calls self k ++
               [Host.CallOpenX (Host.file self); Host.CallTime;
                Host.CallStat (Host.file self); Host.CallUtime (Host.file self)])) /\
      ((deadline <= mtime + Host.stale self)%Z ->
         exists (fuel : nat) w',
           Host.acquire fuel self w = Some (Host.Raise (Host.timeout_error self), w') /\
           (deadline <= Host.clock w')%Z /\ Host.files w' = Host.files w) /\
      ((mtime + Host.stale self <= Host.clock w)%Z -> (0 < Host.timeout self)%Z ->
         exists (fuel : nat) w',
           Host.acquire fuel self w = Some (Host.Return (Host.set_lock self true), w') /\
           Host.clock w' = Host.clock w /\
           Host.files w' = <[Host.file self := Host.clock w]> (Host.files w))).
Proof.
  split_and!.
  - intros W os self timeout_time w. apply acquire_attempt_timeout_iff.
  - intros W os self timeout_time w w1 w2 w3 w4 t mtime u. apply acquire_attempt_takeover.
  - intros W os self timeout_time w w1 w2 w3 t mtime. apply acquire_attempt_wait.
  - intros self w mtime Hl Hdir Hf Hp deadline.
    destruct (sim_acquire_on_held_lock self w mtime Hl Hdir Hf Hp)
      as (fuel & k & r & w' & Hacq & Hclock & Hk & Hout).
    fold deadline in Hk, Hout.
    split_and!.
    + by exists fuel, k, r, w'.
    + intros Hfresh. destruct Hout as [(H1 & -> & H3 & _)|(H1 & H2 & _)]; [|lia].
      by exists fuel, w'.
    + intros Hstale Hto.
      assert (k = O) as ->.
      { destruct Hk as [->|[_ Hk]]; [done|].
        assert (0 <= Z.of_nat (k - 1) * Host.poll_interval self)%Z
          by (apply Z.mul_nonneg_nonneg; lia).
        destruct k; [done|]. replace (S k - 1) with k in * by lia.
        rewrite Nat2Z.inj_succ, Z.mul_succ_l in Hclock. lia. }
      rewrite Z.mul_0_l, Z.add_0_r in Hclock.
      destruct Hout as [(H1 & _)|(_ & _ & -> & H4 & _)]; [unfold deadline in H1; lia|].
      exists fuel, w'. rewrite Hclock in H4. done.
Qed.

Lemma FileLock_acquire_timeout_witness :
  (exists (fuel : nat) w',
      Host.acquire fuel sample_lock sample_held_fresh
      = Some (Host.Raise (Host.timeout_error sample_lock), w') /\
      (Host.clock sample_held_fresh + Host.timeout sample_lock <= Host.clock w')%Z /\
      Host.files w' = Host.files sample_held_fresh) /\
  (exists (fuel : nat) w',
      Host.acquire fuel sample_lock sample_held_stale
      = Some (Host.Return (Host.set_lock sample_lock true), w') /\
      Host.clock w' = Host.clock sample_held_stale /\
      Host.files w' = <[Host.file sample_lock := Host.clock sample_held_stale]>
                        (Host.files sample_held_stale)).
Proof.
  destruct FileLock_acquire_timeout_versus_stale_takeover as (_ & _ & _ & H).
  split.
  - destruct (H sample_lock sample_held_fresh 990%Z) as (_ & Hto & _);
      [reflexivity|discriminate|reflexivity|reflexivity|].
    apply Hto. vm_compute. discriminate.
  - destruct (H sample_lock sample_held_stale 300%Z) as (_ & _ & Hst);
      [reflexivity|discriminate|reflexivity|reflexivity|].
    apply Hst; vm_compute; [discriminate|reflexivity].
Defined.

(** C9 (the defect).  With the locks directory missing and not creatable,
    [os.makedirs] fails with an [OSError] that is not [FileExistsError]; the
    handler's message names [name], which is unbound, so [acquire] raises
    [NameError] whatever the fuel: not a [LockGenerateError], and not a
    [LockError] at all. *)
Theorem FileLock_acquire_makedirs_failure_raises_NameError :
  forall fuel : nat,
    exists w',
      Host.acquire fuel sample_lock sample_locks_denied
      = Some (Host.Raise (Host.NameError "name 'name' is not defined"), w') /\
      Host.is_LockGenerateError (Host.NameError "name 'name' is not defined") = false /\
      Host.is_LockError (Host.NameError "name 'name' is not defined") = false.
Proof.
  intros fuel. eexists. split; [|done].
  eapply (acquire_makedirs_failure fuel sample_lock sample_locks_denied);
    [reflexivity|reflexivity|reflexivity|by right].
Qed.

Section PyDictFacts.
Import PyDict.
Context {V : Type}.
Implicit Types (d : dict V) (k : string) (v : V).

Lemma dict_get_set d k k' v :
  get k (set k' v d) = if String.eqb k k' then Some v else get k d.
Proof.
  induction d as [|[k0 v0] d IH]; cbn.
  - done.
  - destruct (String.eqb_spec k' k0) as [->|Hne]; cbn.
    + by destruct (String.eqb k k0).
    + destruct (String.eqb_spec k k0) as [->|Hne'].
      * destruct (String.eqb_spec k0 k'); [congruence|done].
      * apply IH.
Qed.

Lemma dict_keys_set d k v :
  keys (set k v d) = if contains k d then keys d else keys d ++ [k].
Proof.
  unfold contains, keys. induction d as [|[k0 v0] d IH]; cbn; [done|].
  destruct (String.eqb_spec k k0) as [->|Hne]; cbn; [done|].
  rewrite IH. by destruct (get k d).
Qed.

Lemma dict_contains_keys d k : contains k d = true <-> k ∈ keys d.
Proof.
  unfold contains, keys. induction d as [|[k0 v0] d IH]; cbn.
  - split; [done|]. intros Hin. inversion Hin.
  - rewrite elem_of_cons. destruct (String.eqb_spec k k0) as [->|Hne]; [tauto|].
    rewrite <- IH. destruct (get k d); split; try done; auto. by intros [?|?].
Qed.

Lemma dict_get_None d k : get k d = None <-> k ∉ keys d.
Proof.
  rewrite <- dict_contains_keys. unfold contains.
  destruct (get k d); split; try done; intros Hn; by destruct Hn.
Qed.

Lemma dict_wf_set d k v : wf d -> wf (set k v d).
Proof.
  unfold wf. intros Hwf. rewrite dict_keys_set.
  destruct (contains k d) eqn:E; [done|].
  apply NoDup_app. split; [done|]. split; [|apply NoDup_singleton].
  intros x Hx Hx'. apply list_elem_of_singleton in Hx' as ->.
  apply dict_contains_keys in Hx. congruence.
Qed.

Lemma dict_get_del d k k' :
  wf d -> get k (del k' d) = if String.eqb k k' then None else get k d.
Proof.
  unfold wf, keys. induction d as [|[k0 v0] d IH]; cbn; intros Hwf.
  - by destruct (String.eqb k k').
  - apply NoDup_cons in Hwf as [Hnin Hwf]. specialize (IH Hwf).
    destruct (String.eqb k' k0) eqn:E1; cbn.
    + apply String.eqb_eq in E1. subst k0.
      destruct (String.eqb k k') eqn:E2; [|done].
      apply String.eqb_eq in E2. subst k'. by apply dict_get_None.
    + destruct (String.eqb k k0) eqn:E3; [|exact IH].
      apply String.eqb_eq in E3. subst k0. rewrite String.eqb_sym in E1. by rewrite E1.
Qed.

Lemma dict_keys_del d k : keys (del k d) ⊆ keys d.
Proof.
  unfold keys. induction d as [|[k0 v0] d IH]; cbn; [done|].
  destruct (String.eqb k k0); cbn.
  - intros x Hx. by right.
  - intros x. rewrite !elem_of_cons. intros [?|?]; [by left|right; by apply IH].
Qed.

Lemma dict_wf_del d k : wf d -> wf (del k d).
Proof.
  unfold wf, keys. induction d as [|[k0 v0] d IH]; cbn; intros Hwf; [done|].
  apply NoDup_cons in Hwf as [Hnin Hwf].
  destruct (String.eqb k k0); cbn; [done|].
  apply NoDup_cons. split; [|by apply IH].
  intros Hin. apply Hnin. by apply (dict_keys_del d k).
Qed.

Lemma dict_get_app (d1 d2 : dict V) k :
  get k (d1 ++ d2) = match get k d1 with Some v => Some v | None => get k d2 end.
Proof.
  induction d1 as [|[k1 v1] d1 IH]; cbn; [done|]. by destruct (String.eqb k k1).
Qed.

(** [update]: a later value for a key replaces an earlier one. *)
Lemma dict_get_update d other k :
  get k (update d other) =
  match get k (rev other) with
  | Some v => Some v
  | None => get k d
  end.
Proof.
  revert d. induction other as [|[k0 v0] other IH]; intros d; cbn; [done|].
  change (fold_left _ other ?x) with (update x other).
  rewrite IH, dict_get_set.
  rewrite dict_get_app. cbn. destruct (get k (rev other)); [done|].
  by destruct (String.eqb k k0).
Qed.

(** Merging objects one after the other: the last value given for a key
    is the one kept. *)
Lemma dict_get_fold_update (bodies : list (dict V)) d k :
  get k (fold_left update bodies d) =
  match get k (rev (concat bodies)) with
  | Some v => Some v
  | None => get k d
  end.
Proof.
  revert d. induction bodies as [|b bodies IH]; intros d; cbn; [done|].
  rewrite IH, dict_get_update, rev_app_distr, dict_get_app.
  by destruct (get k (rev (concat bodies))).
Qed.

Lemma dict_wf_update d other : wf d -> wf (update d other).
Proof.
  revert d. induction other as [|[k0 v0] other IH]; intros d Hwf; cbn; [done|].
  apply IH. by apply dict_wf_set.
Qed.

End PyDictFacts.
Section TreePaths.
Import Tree.

Lemma string_length_app (s t : string) :
  String.length (s +:+ t) = String.length s + String.length t.
Proof. induction s as [|c s IH]; simpl; [done|]. by f_equal. Qed.

Lemma string_app_nil_r (s : string) : s +:+ "" = s.
Proof.
  induction s as [|c s IH]; [done|].
  change (String c s +:+ "") with (String c (s +:+ "")). by rewrite IH.
Qed.

Lemma string_app_inv_tail (s1 s2 t : string) : s1 +:+ t = s2 +:+ t -> s1 = s2.
Proof.
  revert s2. induction s1 as [|c s1 IH]; intros [|c' s2] Heq; simpl in Heq.
  - done.
  - apply (f_equal String.length) in Heq. rewrite ?string_length_app in Heq. simpl in Heq.
    rewrite ?string_length_app in Heq. lia.
  - apply (f_equal String.length) in Heq. rewrite ?string_length_app in Heq. simpl in Heq.
    rewrite ?string_length_app in Heq. lia.
  - injection Heq as -> Heq. f_equal. by apply IH.
Qed.

Lemma pretty_N_go_length (x : N) (s : string) :
  String.length s <= String.length (pretty_N_go x s).
Proof.
  revert s. induction (N.lt_wf_0 x) as [x _ IH]; intros s.
  destruct (decide (x = 0%N)) as [->|Hx]; [by rewrite pretty_N_go_0|].
  rewrite pretty_N_go_step by lia.
  etrans; [|apply IH; apply N.div_lt; lia]. simpl. lia.
Qed.

Lemma pretty_nat_nonempty (n : nat) : pretty n <> "".
Proof.
  unfold pretty, pretty_nat, pretty, pretty_N. case_decide; [done|].
  rewrite pretty_N_go_step by lia. intros Heq.
  pose proof (pretty_N_go_length (N.of_nat n `div` 10)
                (String (pretty_N_char (N.of_nat n `mod` 10)) "")) as Hlen.
  rewrite Heq in Hlen. simpl in Hlen. lia.
Qed.

Lemma tree_file_name_inj (name : string) (i j : nat) :
  tree_file_name name i = tree_file_name name j -> i = j.
Proof.
  unfold tree_file_name. intros Heq.
  apply (inj (String.app name)) in Heq. apply string_app_inv_tail in Heq.
  destruct i as [|i], j as [|j]; [done| | |].
  - symmetry in Heq. by apply pretty_nat_nonempty in Heq.
  - by apply pretty_nat_nonempty in Heq.
  - by apply (inj pretty) in Heq.
Qed.

Lemma relative_meta : relative_name "meta".
Proof. intros i. reflexivity. Qed.

Lemma relative_toc : relative_name "toc".
Proof. intros i. reflexivity. Qed.

Lemma relative_fulltext : relative_name "fulltext".
Proof. intros i. reflexivity. Qed.

Lemma get_tree_file_inj (self : Book) (name : string) (i j : nat) :
  relative_name name ->
  get_tree_file self name i = get_tree_file self name j -> i = j.
Proof.
  intros Hrel. unfold get_tree_file, path_join. rewrite !Hrel.
  destruct (String.eqb (tree_dir self) "").
  { apply tree_file_name_inj. }
  destruct (Ascii.eqb _ _); intros Heq.
  - apply (inj (String.app _)) in Heq. by apply tree_file_name_inj in Heq.
  - apply (inj (String.app _)) in Heq. apply (inj (String.app _)) in Heq.
    by apply tree_file_name_inj in Heq.
Qed.

(** Shards of different kinds have different files. *)
Lemma get_tree_file_kinds (self : Book) (name1 name2 : string) (i j : nat) :
  relative_name name1 -> relative_name name2 ->
  (forall s1 s2, name1 +:+ s1 <> name2 +:+ s2) ->
  get_tree_file self name1 i <> get_tree_file self name2 j.
Proof.
  intros Hrel1 Hrel2 Hne. unfold get_tree_file, path_join. rewrite Hrel1, Hrel2.
  unfold tree_file_name.
  destruct (String.eqb (tree_dir self) ""); [apply Hne|].
  destruct (Ascii.eqb _ _); intros Heq.
  - apply (inj (String.app _)) in Heq. by apply Hne in Heq.
  - apply (inj (String.app _)) in Heq. apply (inj (String.app _)) in Heq. by apply Hne in Heq.
Qed.

End TreePaths.
Section TreeEnumeration.
Import Tree.
Context (self : Book) (name : string) (Hrel : relative_name name).
Implicit Types (fs : filesystem) (i j : nat).

Local Abbreviation shard := (get_tree_file self name).

(** Files that exist at [n] consecutive shard indices are [n] distinct
    entries of the file system. *)
Lemma existing_shards_bounded fs i n :
  (forall x, i <= x < i + n -> is_Some (fs !! shard x)) -> n <= size fs.
Proof.
  revert fs i. induction n as [|n IH]; intros fs i Hall; [lia|].
  assert (is_Some (fs !! shard i)) as Hi by (apply Hall; lia).
  specialize (IH (delete (shard i) fs) (S i)).
  rewrite map_size_delete_Some in IH by done.
  assert (size fs <> 0).
  { destruct Hi as [x Hx]. intros Hz. apply map_size_empty_inv in Hz. by subst. }
  enough (n <= pred (size fs)) by lia. apply IH.
  intros x Hx. rewrite lookup_delete_ne; [apply Hall; lia|].
  intros Heq. apply get_tree_file_inj in Heq; [lia|done].
Qed.

(** The first index at or after [i], below [i + fuel], with no file. *)
Lemma first_missing_shard fs i fuel :
  (exists j, i <= j < i + fuel /\ fs !! shard j = None) ->
  exists j, i <= j < i + fuel /\ fs !! shard j = None /\
            forall x, i <= x < j -> is_Some (fs !! shard x).
Proof.
  revert i. induction fuel as [|fuel IH]; intros i (j & Hj & Hnone); [lia|].
  destruct (fs !! shard i) as [n|] eqn:Hi.
  - destruct (IH (S i)) as (j' & Hj' & Hnone' & Hall).
    { exists j. split; [|done]. destruct (decide (j = i)) as [->|]; [congruence|lia]. }
    exists j'. split; [lia|]. split; [done|]. intros x Hx.
    destruct (decide (x = i)) as [->|]; [by rewrite Hi|apply Hall; lia].
  - exists i. split; [lia|]. split; [done|]. intros x Hx. lia.
Qed.

Lemma missing_or_all_exist fs i n :
  (exists j, i <= j < i + n /\ fs !! shard j = None) \/
  (forall x, i <= x < i + n -> is_Some (fs !! shard x)).
Proof.
  induction n as [|n [(j & Hj & Hnone)|Hall]].
  - right. intros x Hx. lia.
  - left. exists j. split; [lia|done].
  - destruct (fs !! shard (i + n)) as [nd|] eqn:E.
    + right. intros x Hx. destruct (decide (x = i + n)) as [->|]; [by rewrite E|apply Hall; lia].
    + left. exists (i + n). split; [lia|done].
Qed.

Lemma missing_shard_exists fs i : exists j, i <= j < i + S (size fs) /\ fs !! shard j = None.
Proof.
  destruct (missing_or_all_exist fs i (S (size fs))) as [|Hall]; [done|].
  apply existing_shards_bounded in Hall. lia.
Qed.

Lemma iter_tree_files_from_spec fs fuel i j :
  i <= j < i + fuel ->
  fs !! shard j = None ->
  (forall x, i <= x < j -> is_Some (fs !! shard x)) ->
  iter_tree_files_from fuel self fs name i = map shard (seq i (j - i)).
Proof.
  revert i. induction fuel as [|fuel IH]; intros i Hj Hnone Hall; [lia|].
  cbn [iter_tree_files_from]. unfold exists_.
  destruct (decide (i = j)) as [->|Hne].
  - rewrite Hnone. by rewrite Nat.sub_diag.
  - destruct (Hall i) as [n Hn]; [lia|]. rewrite Hn.
    replace (j - i) with (S (j - S i)) by lia. cbn [seq map]. f_equal.
    apply IH; [lia|done|]. intros x Hx. apply Hall. lia.
Qed.

(** [iter_tree_files] yields shards 0 .. j-1, where [j] is the first index
    whose file does not exist. *)
Lemma iter_tree_files_spec fs :
  exists j, iter_tree_files self fs name = map shard (seq 0 j) /\
            fs !! shard j = None /\
            forall x, x < j -> is_Some (fs !! shard x).
Proof.
  destruct (first_missing_shard fs 0 (S (size fs)) (missing_shard_exists fs 0))
    as (j & Hj & Hnone & Hall).
  exists j. split; [|split; [done|intros x Hx; apply Hall; lia]].
  unfold iter_tree_files. rewrite (iter_tree_files_from_spec fs _ 0 j); try done.
  by rewrite Nat.sub_0_r.
Qed.

End TreeEnumeration.
Section TreeSave.
Import Tree PyDict.
Context {V : Type}.
Context (self : Book) (name : string) (Hrel : relative_name name).
Context (now : Z) (threshold : Z) (weigh : V -> Z).
Context (save_file : nat -> dict V -> filesystem -> outcome filesystem).
Implicit Types (fs : filesystem) (i j : nat).

Local Abbreviation shard := (get_tree_file self name).

(** The writer of one shard behaves as [save_tree_file] does. *)
Definition writes_one_shard : Prop :=
  forall i d fs,
    match save_file i d fs with
    | Ok fs' => exists text, fs' = <[shard i := File text now]> fs
    | Raise e => is_TreeFileError e = true /\ exists mtime, fs !! shard i = Some (Directory mtime)
    end.

Context (Hsave : writes_one_shard).
Context (Hweigh : forall v, (0 <= weigh v)%Z).

Lemma save_loop_spec items i sz pending fs :
  match save_loop threshold weigh save_file items i sz pending fs with
  | Ok (i', sz', _, fs') =>
      i <= i' /\
      (i' = i -> (sz <= sz')%Z) /\
      (forall x, i <= x < i' -> exists text, fs' !! shard x = Some (File text now)) /\
      (forall path, (forall x, i <= x < i' -> path <> shard x) -> fs' !! path = fs !! path)
  | Raise e =>
      is_TreeFileError e = true /\
      exists x mtime, i <= x /\ fs !! shard x = Some (Directory mtime)
  end.
Proof.
  revert i sz pending fs. induction items as [|[id v] items IH]; intros i sz pending fs.
  - cbn. split; [lia|]. split; [lia|]. split; [intros x Hx; lia|done].
  - cbn [save_loop]. destruct (sz + weigh v >=? threshold)%Z.
    2:{ specialize (IH i (sz + weigh v)%Z (set id v pending) fs).
        destruct (save_loop _ _ _ _ _ _ _ _) as [[[[i' sz'] pending'] fs']|e]; [|done].
        destruct IH as (H1 & H2 & H3 & H4). split_and!; try done.
        intros Hi. specialize (H2 Hi). specialize (Hweigh v). lia. }
    pose proof (Hsave i (set id v pending) fs) as Hw.
    destruct (save_file i (set id v pending) fs) as [fs1|e].
    + destruct Hw as [text ->].
      specialize (IH (S i) 0%Z [] (<[shard i := File text now]> fs)).
      destruct (save_loop _ _ _ _ _ _ _ _) as [[[[i' sz'] pending'] fs']|e].
      * destruct IH as (Hle & _ & Hwritten & Hframe). split; [lia|]. split; [lia|]. split.
        -- intros x Hx. destruct (decide (x = i)) as [->|Hne]; [|apply Hwritten; lia].
           exists text. rewrite Hframe.
           ++ apply lookup_insert_eq.
           ++ intros y Hy Heq. apply get_tree_file_inj in Heq; [lia|done].
        -- intros path Hpath. rewrite Hframe.
           ++ apply lookup_insert_ne. intros Heq. by apply (Hpath i); [lia|].
           ++ intros y Hy. apply Hpath. lia.
      * destruct IH as (He & x & mtime & Hx & Hdir). split; [done|].
        exists x, mtime. split; [lia|]. rewrite lookup_insert_ne in Hdir; [done|].
        intros Heq. apply get_tree_file_inj in Heq; [lia|done].
    + destruct Hw as (He & mtime & Hdir). split; [done|]. by exists i, mtime.
Qed.

Lemma remove_unused_spec fuel i fs :
  size fs < fuel ->
  match remove_unused self name fuel i fs with
  | Ok fs' =>
      exists j, i <= j /\
        (forall x, i <= x < j ->
           (exists text mtime, fs !! shard x = Some (File text mtime)) /\ fs' !! shard x = None) /\
        fs !! shard j = None /\
        (forall path, (forall x, i <= x < j -> path <> shard x) -> fs' !! path = fs !! path)
  | Raise e =>
      exists j mtime, i <= j /\ fs !! shard j = Some (Directory mtime) /\ e = OSError (shard j)
  end.
Proof.
  revert i fs. induction fuel as [|fuel IH]; intros i fs Hfuel; [lia|].
  cbn [remove_unused]. destruct (fs !! shard i) as [[text mtime|mtime]|] eqn:Hi.
  - specialize (IH (S i) (delete (shard i) fs)).
    rewrite map_size_delete_Some in IH by done.
    assert (size fs <> 0).
    { intros Hz. apply map_size_empty_inv in Hz. by subst. }
    specialize (IH ltac:(lia)).
    destruct (remove_unused _ _ _ _ _) as [fs'|e].
    + destruct IH as (j & Hj & Hrem & Hnone & Hframe).
      assert (Hother : forall x, x <> i -> delete (shard i) fs !! shard x = fs !! shard x).
      { intros x Hx. apply lookup_delete_ne. intros Heq.
        apply get_tree_file_inj in Heq; [lia|done]. }
      exists j. split; [lia|]. split_and!.
      * intros x Hx. destruct (decide (x = i)) as [->|Hne].
        -- split; [by exists text, mtime|]. rewrite Hframe.
           ++ apply lookup_delete_eq.
           ++ intros y Hy Heq. apply get_tree_file_inj in Heq; [lia|done].
        -- destruct (Hrem x) as [Hfile Hgone]; [lia|]. rewrite Hother in Hfile by done. done.
      * rewrite Hother in Hnone by lia. done.
      * intros path Hpath. rewrite Hframe.
        -- apply lookup_delete_ne. intros Heq. by apply (Hpath i); [lia|].
        -- intros y Hy. apply Hpath. lia.
    + destruct IH as (j & mt & Hj & Hdir & ->). exists j, mt. split; [lia|].
      rewrite lookup_delete_ne in Hdir; [done|].
      intros Heq. apply get_tree_file_inj in Heq; [lia|done].
  - by exists i, mtime.
  - exists i. split; [lia|]. split_and!; [intros x Hx; lia|done|done].
Qed.

Lemma save_files_prunes data fs :
  prunes_contiguous_suffix self name now fs
    (save_files self name threshold weigh save_file data fs).
Proof.
  unfold save_files, prunes_contiguous_suffix.
  pose proof (save_loop_spec data 0 1%Z [] fs) as Hloop.
  destruct (save_loop _ _ _ _ _ _ _ _) as [[[[i sz] pending] fs1]|e]; cbn -[remove_unused Z.eqb].
  2:{ destruct Hloop as (He & x & mtime & _ & Hdir). exists x, mtime. auto. }
  destruct Hloop as (_ & Hsz & Hwritten & Hframe).
  (* the state after the last shard is flushed *)
  assert ((exists k fs2,
             (if (sz =? 0)%Z then Ok (i, fs1)
              else match save_file i pending fs1 with
                   | Raise e => Raise e
                   | Ok fs2 => Ok (S i, fs2)
                   end) = Ok (k, fs2) /\
             (forall x, x < k -> exists text, fs2 !! shard x = Some (File text now)) /\
             (forall path, (forall x, x < k -> path <> shard x) -> fs2 !! path = fs !! path) /\
             1 <= k)
          \/ exists e x mtime,
             (if (sz =? 0)%Z then Ok (i, fs1)
              else match save_file i pending fs1 with
                   | Raise e => Raise e
                   | Ok fs2 => Ok (S i, fs2)
                   end) = Raise e /\
             is_TreeFileError e = true /\ fs !! shard x = Some (Directory mtime)) as Hflush.
  { destruct (Z.eqb_spec sz 0) as [->|Hsize].
    - left. exists i, fs1. split_and!; try done.
      + intros x Hx. apply Hwritten. lia.
      + intros path Hpath. apply Hframe. intros x Hx. apply Hpath. lia.
      + destruct i; [specialize (Hsz eq_refl); lia|lia].
    - pose proof (Hsave i pending fs1) as Hw.
      destruct (save_file i pending fs1) as [fs2|e].
      + destruct Hw as [text ->]. left. exists (S i), (<[shard i := File text now]> fs1).
        split_and!; try done.
        * intros x Hx. destruct (decide (x = i)) as [->|Hne].
          -- exists text. apply lookup_insert_eq.
          -- destruct (Hwritten x) as [t Ht]; [lia|]. exists t.
             rewrite lookup_insert_ne; [done|].
             intros Heq. apply get_tree_file_inj in Heq; [lia|done].
        * intros path Hpath. rewrite lookup_insert_ne.
          -- apply Hframe. intros x Hx. apply Hpath. lia.
          -- intros Heq. by apply (Hpath i); [lia|].
        * lia.
      + destruct Hw as (He & mtime & Hdir). right. exists e, i, mtime. split_and!; try done.
        rewrite Hframe in Hdir; [done|].
        intros x Hx Heq. apply get_tree_file_inj in Heq; [lia|done]. }
  destruct Hflush as [(k & fs2 & -> & Hwritten2 & Hframe2 & Hk)|(e & x & mtime & -> & He & Hdir)].
  2:{ exists x, mtime. auto. }
  pose proof (remove_unused_spec (S (size fs2)) k fs2 ltac:(lia)) as Hrem.
  destruct (remove_unused _ _ _ _ _) as [fs'|e].
  - destruct Hrem as (j & Hj & Hremoved & Hnone & Hframe3).
    assert (Hbeyond : forall x, k <= x -> fs2 !! shard x = fs !! shard x).
    { intros x Hx. apply Hframe2. intros y Hy Heq.
      apply get_tree_file_inj in Heq; [lia|done]. }
    exists k, j. split_and!.
    + done.
    + done.
    + intros x Hx. destruct (Hwritten2 x Hx) as [text Ht]. exists text.
      rewrite Hframe3; [done|]. intros y Hy Heq.
      apply get_tree_file_inj in Heq; [lia|done].
    + intros x Hx. destruct (Hremoved x Hx) as [Hfile Hgone].
      rewrite Hbeyond in Hfile by lia. done.
    + rewrite Hbeyond in Hnone by lia. done.
    + intros x Hx. rewrite Hframe3, Hbeyond; [done|lia|].
      intros y Hy Heq. apply get_tree_file_inj in Heq; [lia|done].
    + intros path Hpath. rewrite Hframe3, Hframe2; [done| |]; intros y Hy; apply Hpath.
  - destruct Hrem as (j & mtime & Hj & Hdir & ->). exists j, mtime.
    rewrite Hframe2 in Hdir; [auto|].
    intros y Hy Heq. apply get_tree_file_inj in Heq; [lia|done].
Qed.

End TreeSave.
Section TreeStoreFacts.
Import Tree PyDict.
Context `{Json}.
Implicit Types (self : Book) (fs : filesystem).

Lemma save_tree_file_spec now self name i text fs :
  match save_tree_file now self name i text fs with
  | Ok fs' => fs' = <[get_tree_file self name i := File text now]> fs
  | Raise e =>
      is_TreeFileError e = true /\
      exists mtime, fs !! get_tree_file self name i = Some (Directory mtime)
  end.
Proof.
  unfold save_tree_file. destruct (fs !! get_tree_file self name i) as [[t m|m]|]; eauto.
Qed.

Lemma save_meta_file_writes now self : writes_one_shard self "meta" now (save_meta_file now self).
Proof.
  intros i d fs. unfold save_meta_file.
  pose proof (save_tree_file_spec now self "meta" i
    (EDITABLE_HEADER +:+ "scrapbook.meta(" +:+ json_dumps 2 (meta_to_json d) +:+ ")") fs) as Hs.
  destruct (save_tree_file _ _ _ _ _ _); eauto.
Qed.

Lemma save_toc_file_writes now self : writes_one_shard self "toc" now (save_toc_file now self).
Proof.
  intros i d fs. unfold save_toc_file.
  pose proof (save_tree_file_spec now self "toc" i
    (EDITABLE_HEADER +:+ "scrapbook.toc(" +:+ json_dumps 2 (toc_to_json d) +:+ ")") fs) as Hs.
  destruct (save_tree_file _ _ _ _ _ _); eauto.
Qed.

Lemma save_fulltext_file_writes now self :
  writes_one_shard self "fulltext" now (save_fulltext_file now self).
Proof.
  intros i d fs. unfold save_fulltext_file.
  pose proof (save_tree_file_spec now self "fulltext" i
    (GENERATED_HEADER +:+ "scrapbook.fulltext(" +:+ json_dumps 1 (fulltext_to_json d) +:+ ")")
    fs) as Hs.
  destruct (save_tree_file _ _ _ _ _ _); eauto.
Qed.

Lemma fulltext_weight_nonneg (entry : dict string) : (0 <= fulltext_weight entry)%Z.
Proof.
  unfold fulltext_weight.
  assert (forall acc, (0 <= acc)%Z ->
            (0 <= fold_left (fun size pc => (size + Z.of_nat (String.length (snd pc)))%Z)
                            entry acc)%Z) as Hgen.
  { induction entry as [|pc entry IH]; intros acc Hacc; cbn; [done|]. apply IH. lia. }
  by apply Hgen.
Qed.

(** C5.  Shard pruning frame property.  Saving the meta, toc or fulltext
    mapping at time [now] over any files [fs] writes shards [0 .. k-1]
    with [1 <= k], removes the files that were at indices [k .. j-1] where
    [j] is the first index from [k] on with no file, and there the probe
    stops: the shards at [j] and beyond, among them any shard past the gap,
    and every path that is not a shard of that kind, are as they were.
    When a directory stands at a shard index that is written or probed, the
    save raises instead. *)
Theorem save_files_prune_contiguous_suffix now self fs :
  (forall data : meta_t,
      prunes_contiguous_suffix self "meta" now fs (save_meta_files now self data fs)) /\
  (forall data : toc_t,
      prunes_contiguous_suffix self "toc" now fs (save_toc_files now self data fs)) /\
  (forall data : fulltext_t,
      prunes_contiguous_suffix self "fulltext" now fs (save_fulltext_files now self data fs)).
Proof.
  split_and!; intros data.
  - apply save_files_prunes; [apply relative_meta|apply save_meta_file_writes|done].
  - apply save_files_prunes; [apply relative_toc|apply save_toc_file_writes|].
    intros v. unfold toc_weight. lia.
  - apply save_files_prunes; [apply relative_fulltext|apply save_fulltext_file_writes|].
    apply fulltext_weight_nonneg.
Qed.

(** The outcomes of loading one tree file. *)
Lemma load_tree_file_malformed_iff fs file :
  (exists msg, load_tree_file fs file = Raise (TreeFileMalformedError msg)) <->
  (exists text mtime,
      fs !! file = Some (File text mtime) /\
      (Re.search REGEX_TREE_FILE_PREFIX text = None \/
       exists m exc, Re.search REGEX_TREE_FILE_PREFIX text = Some m /\
                     json_loads (Re.group text m) = JSONDecodeError exc)).
Proof.
  unfold load_tree_file. destruct (fs !! file) as [[text mtime|mtime]|] eqn:Hf.
  - destruct (Re.search REGEX_TREE_FILE_PREFIX text) as [m|] eqn:Hm.
    + destruct (json_loads (Re.group text m)) as [v|exc] eqn:Hl.
      * split; [intros [msg Hmsg]; discriminate|].
        intros (t & mt & ? & [?|(m' & exc & ? & ?)]); simplify_eq; congruence.
      * split; [|eauto]. intros _. exists text, mtime. split; [done|]. right. eauto.
    + split; [|eauto]. intros _. exists text, mtime. split; [done|]. by left.
  - split; [intros [msg Hmsg]; discriminate|intros (t & mt & Hfile & _); discriminate].
  - split; [intros [msg Hmsg]; discriminate|intros (t & mt & Hfile & _); discriminate].
Qed.

Lemma load_files_no_FileNotFoundError fs files data :
  (forall file, file ∈ files -> is_Some (fs !! file)) ->
  forall file, load_files fs files data <> Raise (FileNotFoundError file).
Proof.
  revert data. induction files as [|f files IH]; intros data Hall file; cbn; [done|].
  destruct (Hall f) as [n Hn]; [left|].
  unfold load_tree_file at 1. rewrite Hn.
  assert (forall file', file' ∈ files -> is_Some (fs !! file')) as Hall'.
  { intros file' Hin. apply Hall. by right. }
  destruct n as [text mtime|mtime]; [|done].
  destruct (Re.search _ _); [|done].
  destruct (json_loads _) as [v|exc]; [|done].
  destruct v; cbn; try done. by apply IH.
Qed.


Lemma load_tree_file_malformed_names_file fs file msg :
  load_tree_file fs file = Raise (TreeFileMalformedError msg) ->
  exists rest, msg = malformed_msg file +:+ rest.
Proof.
  unfold load_tree_file. destruct (fs !! file) as [[text mtime|mtime]|]; try done.
  destruct (Re.search _ _); [destruct (json_loads _)|]; intros [= <-]; try done.
  - by eexists.
  - exists "". symmetry. apply string_app_nil_r.
Qed.

Lemma load_tree_file_io_iff fs file :
  (exists msg, load_tree_file fs file = Raise (TreeFileIOError msg)) <->
  (exists mtime, fs !! file = Some (Directory mtime)).
Proof.
  unfold load_tree_file. destruct (fs !! file) as [[text mtime|mtime]|].
  - split; [|intros [m Hm]; discriminate].
    destruct (Re.search _ _); [destruct (json_loads _)|]; intros [msg' Hmsg]; discriminate.
  - split; eauto.
  - split; [intros [msg' Hmsg]; discriminate|intros [m Hm]; discriminate].
Qed.

Lemma load_tree_file_absent_iff fs file :
  (exists file', load_tree_file fs file = Raise (FileNotFoundError file')) <-> fs !! file = None.
Proof.
  unfold load_tree_file. destruct (fs !! file) as [[text mtime|mtime]|].
  - split; [|done].
    destruct (Re.search _ _); [destruct (json_loads _)|]; intros [? Hmsg]; discriminate.
  - split; [intros [msg Hmsg]; discriminate|done].
  - split; eauto.
Qed.

(** When every file holds a JSON object, loading them merges the objects
    in order. *)
Lemma load_files_merge fs files (bodies : list (list (string * json))) data :
  Forall2 (fun file members => load_tree_file fs file = Ok (JObj members)) files bodies ->
  load_files fs files data = Ok (fold_left update bodies data).
Proof.
  intros Hall. revert data. induction Hall as [|file members files bodies Hload _ IH];
    intros data; cbn; [done|].
  rewrite Hload. cbn. apply IH.
Qed.

(** C6.  Tree-file load error taxonomy.  Loading a file raises the
    malformed-tree-file error exactly when the file is read and either the
    wrapper pattern finds no match or [json.loads] rejects the captured
    span, and the message names the file; it raises the tree-file I/O error
    exactly when the path exists and cannot be opened; it re-raises
    [FileNotFoundError] exactly when the path does not exist.
    [load_tree_files] for a kind of tree file never raises
    [FileNotFoundError]: it loads the shards [0 .. j-1] that the enumeration
    finds, [j] being the first index with no file, and when each of them
    holds a JSON object the result is their merge in shard order, a later
    shard's value winning; with no shard 0 the result is the empty
    mapping. *)
Theorem load_tree_file_error_taxonomy self fs :
  (forall file,
      (exists msg, load_tree_file fs file = Raise (TreeFileMalformedError msg)) <->
      (exists text mtime,
          fs !! file = Some (File text mtime) /\
          (Re.search REGEX_TREE_FILE_PREFIX text = None \/
           exists m exc, Re.search REGEX_TREE_FILE_PREFIX text = Some m /\
                         json_loads (Re.group text m) = JSONDecodeError exc))) /\
  (forall file msg,
      load_tree_file fs file = Raise (TreeFileMalformedError msg) ->
      exists rest, msg = malformed_msg file +:+ rest) /\
  (forall file,
      (exists msg, load_tree_file fs file = Raise (TreeFileIOError msg)) <->
      (exists mtime, fs !! file = Some (Directory mtime))) /\
  (forall file,
      (exists file', load_tree_file fs file = Raise (FileNotFoundError file')) <->
      fs !! file = None) /\
  (forall name, relative_name name ->
      (forall file, load_tree_files self fs name <> Raise (FileNotFoundError file)) /\
      (fs !! get_tree_file self name 0 = None -> load_tree_files self fs name = Ok []) /\
      exists j,
        fs !! get_tree_file self name j = None /\
        (forall x, x < j -> is_Some (fs !! get_tree_file self name x)) /\
        load_tree_files self fs name
        = load_files fs (map (get_tree_file self name) (seq 0 j)) [] /\
        forall bodies : list (list (string * json)),
          Forall2 (fun x members =>
                     load_tree_file fs (get_tree_file self name x) = Ok (JObj members))
                  (seq 0 j) bodies ->
          load_tree_files self fs name = Ok (fold_left update bodies []) /\
          forall k, get k (fold_left update bodies [])
                    = get k (rev (concat bodies))).
Proof.
  split_and!.
  - apply load_tree_file_malformed_iff.
  - apply load_tree_file_malformed_names_file.
  - apply load_tree_file_io_iff.
  - apply load_tree_file_absent_iff.
  - intros name Hrel.
    destruct (iter_tree_files_spec self name Hrel fs) as (j & Hiter & Hnone & Hall).
    unfold load_tree_files. rewrite Hiter. split_and!.
    + apply load_files_no_FileNotFoundError. intros file Hin.
      apply list_elem_of_fmap in Hin as (x & -> & Hx). apply Hall.
      apply elem_of_seq in Hx. lia.
    + intros H0. destruct j as [|j]; [done|].
      destruct (Hall 0) as [n Hn]; [lia|congruence].
    + exists j. split_and!; try done. intros bodies Hbodies. split.
      * apply load_files_merge. clear -Hbodies.
        induction Hbodies; cbn; constructor; done.
      * intros k. rewrite dict_get_fold_update. by destruct (get k (rev (concat bodies))).
Qed.
End TreeStoreFacts.
Section SaveFulltextDefect.
Import Tree PyDict.
Context `{Json}.

Section Generic.
Context {V : Type} (self : Book) (name : string) (threshold : Z) (weigh : V -> Z).
Context (save_file : nat -> dict V -> filesystem -> outcome filesystem).

Lemma save_loop_app items1 items2 i sz pending fs :
  save_loop threshold weigh save_file (items1 ++ items2) i sz pending fs =
  match save_loop threshold weigh save_file items1 i sz pending fs with
  | Ok (i', sz', pending', fs') => save_loop threshold weigh save_file items2 i' sz' pending' fs'
  | Raise e => Raise e
  end.
Proof.
  revert i sz pending fs. induction items1 as [|[id v] items1 IH]; intros i sz pending fs;
    cbn [app save_loop]; [done|].
  destruct (sz + weigh v >=? threshold)%Z; [|apply IH].
  destruct (save_file i (set id v pending) fs); [apply IH|done].
Qed.

(** Records that add nothing to [size] after a flush never reach the
    threshold: the loop ends with [size = 0] and nothing more written. *)
Lemma save_loop_weightless items i pending fs :
  (0 < threshold)%Z ->
  Forall (fun kv => weigh (snd kv) = 0%Z) items ->
  exists pending',
    save_loop threshold weigh save_file items i 0 pending fs = Ok (i, 0%Z, pending', fs).
Proof.
  intros Hthr Hall. revert pending. induction Hall as [|[id v] items Hv _ IH]; intros pending.
  - by eexists.
  - cbn [save_loop]. cbn in Hv. rewrite Hv, Z.add_0_r.
    destruct (Z.geb_spec 0 threshold); [lia|]. apply IH.
Qed.

Lemma save_files_drops_weightless_tail head tail fs i pending fs1 :
  (0 < threshold)%Z ->
  save_loop threshold weigh save_file head 0 1 [] fs = Ok (i, 0%Z, pending, fs1) ->
  Forall (fun kv => weigh (snd kv) = 0%Z) tail ->
  save_files self name threshold weigh save_file (head ++ tail) fs
  = save_files self name threshold weigh save_file head fs.
Proof.
  intros Hthr Hhead Htail. unfold save_files. rewrite save_loop_app, Hhead.
  destruct (save_loop_weightless tail i pending fs1 Hthr Htail) as [pending' ->]. done.
Qed.
End Generic.

(** With the thresholds of the source: a record whose text reaches the
    128 Mi budget is flushed, and a record with no text after it is not
    written. *)
Lemma save_fulltext_files_drops_empty_record now self id1 path1 content id2 entry2 fs :
  (0 < SAVE_FULLTEXT_THRESHOLD self)%Z ->
  (SAVE_FULLTEXT_THRESHOLD self <= 1 + Z.of_nat (String.length content))%Z ->
  fulltext_weight entry2 = 0%Z ->
  save_fulltext_files now self [(id1, [(path1, content)]); (id2, entry2)] fs
  = save_fulltext_files now self [(id1, [(path1, content)])] fs.
Proof.
  intros Hpos Hfull Hempty. unfold save_fulltext_files, save_files.
  change [(id1, [(path1, content)]); (id2, entry2)]
    with ([(id1, [(path1, content)])] ++ [(id2, entry2)]).
  assert (fulltext_weight [(path1, content)] = Z.of_nat (String.length content)) as Hw
    by (unfold fulltext_weight; cbn; lia).
  rewrite save_loop_app. cbn [save_loop]. rewrite !Hw.
  destruct (Z.geb_spec (1 + Z.of_nat (String.length content))
              (SAVE_FULLTEXT_THRESHOLD self)); [|lia].
  destruct (save_fulltext_file _ _ _ _ _) as [fs1|e]; [|done].
  rewrite Hempty, Z.add_0_r.
  destruct (Z.geb_spec 0 (SAVE_FULLTEXT_THRESHOLD self)); [lia|done].
Qed.

End SaveFulltextDefect.

(** C1 (the defect).  [save_fulltext_files] takes [if size:] for "the
    pending shard holds a record", but [size] counts characters: after a
    shard is flushed, records without text leave it at 0 and are never
    written.  With the threshold at 10, saving [sample_fulltext] writes
    the same files as saving its first record alone; so, whatever
    [json.loads] does, not both mappings are read back as they were
    saved. *)
Theorem save_fulltext_files_loses_records_without_text :
  forall (J : Tree.Json) (now : Z) (fs : gmap string Tree.node),
    Tree.save_fulltext_files now sample_book sample_fulltext fs
    = Tree.save_fulltext_files now sample_book (take 1 sample_fulltext) fs /\
    ~ (Tree.fulltext_round_trips now sample_book sample_fulltext fs /\
       Tree.fulltext_round_trips now sample_book (take 1 sample_fulltext) fs).
Proof.
  intros J now fs.
  assert (Tree.save_fulltext_files now sample_book sample_fulltext fs
          = Tree.save_fulltext_files now sample_book (take 1 sample_fulltext) fs) as Hsame.
  { apply save_fulltext_files_drops_empty_record; [done|cbn; lia|done]. }
  split; [exact Hsame|].
  intros [(fs1 & l1 & Hs1 & Hl1 & Heq1) (fs2 & l2 & Hs2 & Hl2 & Heq2)].
  rewrite Hsame, Hs2 in Hs1. injection Hs1 as <-. rewrite Hl2 in Hl1. injection Hl1 as <-.
  cbn in Heq1, Heq2.
  specialize (Heq1 "20200101000000001"). specialize (Heq2 "20200101000000001").
  rewrite Heq2 in Heq1. discriminate.
Qed.

(** The repository's [test_save_fulltext_files03]: shards 0-4 and 6 exist,
    two records are saved with the threshold at 10.  Shards 0 and 1 are
    written, 2, 3 and 4 are removed, and shard 6, past the gap at 5,
    stays. *)
Example save_fulltext_files_stops_at_gap :
  let old := fun (i : nat) (text : string) =>
               (Tree.get_tree_file sample_book "fulltext" i, Tree.File text 1) in
  let fs : gmap string Tree.node :=
    list_to_map [old 0 "dummy"; old 1 "dummy1"; old 2 "dummy2"; old 3 "dummy3";
                 old 4 "dummy4"; old 6 "dummy6"] in
  let data := [("20200101000000000", [("index.html", "dummy text 1"); ("frame.html", "frame page content")]);
               ("20200101000000001", [("index.html", "dummy text 2")])] in
  exists fs',
    @Tree.save_fulltext_files reference_json 2 sample_book data fs = Tree.Ok fs' /\
    map (fun i => Tree.node_mtime <$> fs' !! Tree.get_tree_file sample_book "fulltext" i)
        [0; 1; 2; 3; 4; 5; 6]
    = [Some 2%Z; Some 2%Z; None; None; None; None; Some 1%Z].
Proof. eexists. split; vm_compute; reflexivity. Qed.

(** The example of the specification: shards 0, 1, 2 and 4 exist and one
    shard is saved; 1 and 2 are removed, 4 stays. *)
Example save_meta_files_stops_at_gap :
  let old := fun (i : nat) => (Tree.get_tree_file sample_book "meta" i, Tree.File "dummy" 1) in
  let fs : gmap string Tree.node := list_to_map [old 0; old 1; old 2; old 4] in
  exists fs',
    @Tree.save_meta_files reference_json 2 sample_book [("20200101000000000", [("title", "Dummy")])] fs
    = Tree.Ok fs' /\
    map (fun i => Tree.node_mtime <$> fs' !! Tree.get_tree_file sample_book "meta" i)
        [0; 1; 2; 3; 4]
    = [Some 2%Z; None; None; None; Some 1%Z].
Proof. eexists. split; vm_compute; reflexivity. Qed.

(** The failing input of C1, run: the second record is not in what is
    loaded back. *)
Example save_then_load_fulltext_sample :
  exists fs',
    @Tree.save_fulltext_files reference_json 2 sample_book sample_fulltext ∅ = Tree.Ok fs' /\
    @Tree.load_tree_files reference_json sample_book fs' "fulltext"
    = Tree.Ok [("20200101000000000",
                Tree.JObj [("index.html", Tree.JObj [("content", Tree.JStr "0123456789")])])].
Proof. eexists. split; vm_compute; reflexivity. Qed.

(** Loading single files: a well-formed file; a missing closing
    parenthesis; no text before the opening parenthesis; a body that is no
    JSON; a directory; no file. *)
Example load_tree_file_outcomes :
  let fs : gmap string Tree.node :=
    list_to_map [("good.js", Tree.File "scrapbook.meta({}) /* end */ ;" 1);
                 ("open.js", Tree.File "scrapbook.meta({}" 1);
                 ("bare.js", Tree.File "({})" 1);
                 ("quotes.js", Tree.File "scrapbook.meta({'a': 1})" 1);
                 ("dir.js", Tree.Directory 1)] in
  @Tree.load_tree_file reference_json fs "good.js" = Tree.Ok (Tree.JObj []) /\
  @Tree.load_tree_file reference_json fs "open.js"
  = Tree.Raise (Tree.TreeFileMalformedError (Tree.malformed_msg "open.js")) /\
  @Tree.load_tree_file reference_json fs "bare.js"
  = Tree.Raise (Tree.TreeFileMalformedError (Tree.malformed_msg "bare.js")) /\
  @Tree.load_tree_file reference_json fs "quotes.js"
  = Tree.Raise (Tree.TreeFileMalformedError
                  (Tree.malformed_msg "quotes.js" +:+ ": Expecting value")) /\
  Tree.is_TreeFileError
    (match @Tree.load_tree_file reference_json fs "dir.js" with
     | Tree.Raise e => e
     | Tree.Ok _ => Tree.TypeError ""
     end) = true /\
  @Tree.load_tree_file reference_json fs "none.js"
  = Tree.Raise (Tree.FileNotFoundError "none.js").
Proof. repeat split; vm_compute; reflexivity. Qed.

Lemma load_tree_files_absent_witness :
  @Tree.load_tree_files reference_json sample_book ∅ "meta" = Tree.Ok [] /\
  forall file,
    @Tree.load_tree_files reference_json sample_book ∅ "meta"
    <> Tree.Raise (Tree.FileNotFoundError file).
Proof.
  destruct (@load_tree_file_error_taxonomy reference_json sample_book ∅)
    as (_ & _ & _ & _ & Hfiles).
  destruct (Hfiles "meta" relative_meta) as (Hnever & Hempty & _).
  split; [apply Hempty; reflexivity|exact Hnever].
Defined.

Section TreeEnvelope.
Import Tree.

Local Abbreviation X := (Re.Alt block_comment (Re.NotChr "(")).

Lemma ltb_succ (p : nat) : (p <? S p)%nat = true.
Proof. apply Nat.ltb_lt. lia. Qed.

Local Ltac run_step :=
  cbn -[Ascii.eqb Nat.ltb Re.is_space];
  rewrite ?Ascii.eqb_refl; cbn -[Ascii.eqb Nat.ltb Re.is_space].

Lemma list_ascii_of_string_app (s t : string) :
  list_ascii_of_string (s +:+ t) = list_ascii_of_string s ++ list_ascii_of_string t.
Proof. induction s as [|c s IH]; [done|]. cbn. by rewrite <- IH. Qed.

Lemma run_star_any l p g k :
  Re.run (Re.Star Re.Any) (Re.mkState p l g) k =
  match l with
  | [] => k (Re.mkState p [] g)
  | c :: tl =>
      match Re.run (Re.Star Re.Any) (Re.mkState (S p) tl g) k with
      | Some m => Some m
      | None => k (Re.mkState p l g)
      end
  end.
Proof.
  destruct l as [|c tl]; [done|]. run_step. by rewrite ltb_succ.
Qed.

(** The greedy [[\s\S]*] gives back one character when what follows fails
    at the end of the text and succeeds just before its last character. *)
Lemma run_star_any_last l c p g k m :
  k (Re.mkState (p + S (length l)) [] g) = None ->
  k (Re.mkState (p + length l) [c] g) = Some m ->
  Re.run (Re.Star Re.Any) (Re.mkState p (l ++ [c]) g) k = Some m.
Proof.
  revert p. induction l as [|x l IH]; intros p Hend Hlast.
  - cbn [app length] in *. rewrite Nat.add_0_r in Hlast. rewrite Nat.add_1_r in Hend.
    rewrite run_star_any. rewrite run_star_any. by rewrite Hend.
  - cbn [app length] in *. rewrite run_star_any.
    rewrite (IH (S p)); [done| |].
    + by replace (S p + S (length l)) with (p + S (S (length l))) by lia.
    + by replace (S p + length l) with (p + S (length l)) by lia.
Qed.

Lemma block_comment_needs_slash c tl p g k :
  c <> "/"%char -> Re.run block_comment (Re.mkState p (c :: tl) g) k = None.
Proof.
  intros Hc. run_step. destruct (Ascii.eqb_spec "/" c) as [<-|]; [done|done].
Qed.

Lemma block_comment_needs_star tl p g k :
  match tl with c' :: _ => c' <> "*"%char | [] => True end ->
  Re.run block_comment (Re.mkState p ("/"%char :: tl) g) k = None.
Proof.
  intros Hc. run_step. destruct tl as [|c' tl]; [done|]. run_step.
  destruct (Ascii.eqb_spec "*" c') as [<-|]; [done|done].
Qed.

(** The first line of the headers, a slash, two stars and a newline, opens
    no one-line block comment. *)
Lemma block_comment_open_line tl p g k :
  Re.run block_comment
    (Re.mkState p ("/"%char :: "*"%char :: "*"%char :: "010"%char :: tl) g) k = None.
Proof. run_step. by rewrite ?ltb_succ. Qed.

Lemma run_star r st k :
  Re.run (Re.Star r) st k = star_rounds r k (length (Re.rest st)) st.
Proof. reflexivity. Qed.

Lemma star_rounds_S r k n st :
  star_rounds r k (S n) st =
  match Re.run r st (fun st' => if (Re.pos st <? Re.pos st')%nat
                                then star_rounds r k n st' else None) with
  | Some m => Some m
  | None => k st
  end.
Proof. reflexivity. Qed.

(** Where no block comment opens and no parenthesis stands, one round of
    the first group takes one character. *)
Lemma run_plain_char c tl p g k :
  negb (Ascii.eqb c "(") = true ->
  negb (Ascii.eqb c "/" && match tl with c' :: _ => Ascii.eqb c' "*" | [] => false end) = true ->
  Re.run X (Re.mkState p (c :: tl) g) k = k (Re.mkState (S p) tl g).
Proof.
  intros Hparen Hcomment. apply negb_true_iff in Hparen, Hcomment.
  cbn [Re.run].
  assert (Re.run block_comment (Re.mkState p (c :: tl) g) k = None) as Hbc.
  { destruct (Ascii.eqb_spec c "/") as [->|Hne].
    - apply block_comment_needs_star. destruct tl as [|c' tl]; [done|].
      cbn in Hcomment. by destruct (Ascii.eqb_spec c' "*").
    - by apply block_comment_needs_slash. }
  fold block_comment. rewrite Hbc.
  cbn -[Ascii.eqb]. by rewrite Ascii.eqb_sym, Hparen.
Qed.

Lemma run_star_skip h t p g k m :
  comment_free h = true ->
  Re.run (Re.Star X) (Re.mkState (p + length h) ("("%char :: t) g) k = Some m ->
  Re.run (Re.Star X) (Re.mkState p (h ++ "("%char :: t) g) k = Some m.
Proof.
  revert p. induction h as [|c h IH]; intros p Hfree Hk.
  - cbn [app length] in *. by rewrite Nat.add_0_r in Hk.
  - cbn [comment_free] in Hfree. apply andb_prop in Hfree as [Hfree Hh].
    apply andb_prop in Hfree as [Hparen Hcomment].
    specialize (IH (S p) Hh).
    cbn [app length] in *. rewrite <- Nat.add_succ_comm in Hk. specialize (IH Hk).
    rewrite run_star. cbn [Re.rest length]. rewrite star_rounds_S.
    rewrite run_plain_char.
    + cbn [Re.pos]. rewrite ltb_succ. rewrite run_star in IH. cbn [Re.rest] in IH.
      by rewrite IH.
    + done.
    + destruct h; done.
Qed.

(** The part of the pattern before the opening parenthesis walks over a
    header and the name of the function, and stops at the parenthesis. *)
Lemma run_prefix (R : Re.regex) h t k m :
  comment_free ("*"%char :: "*"%char :: "010"%char :: h) = true ->
  Re.run R (Re.mkState (4 + length h) ("("%char :: t) None) k = Some m ->
  Re.run (Re.Seq Re.Bol (Re.Seq (Re.Plus X) R))
    (Re.mkState 0 ("/"%char :: "*"%char :: "*"%char :: "010"%char :: h ++ "("%char :: t) None) k
  = Some m.
Proof.
  intros Hfree HR.
  set (k1 := fun st' => Re.run R st' k).
  set (tl := "*"%char :: "*"%char :: "010"%char :: h ++ "("%char :: t).
  change (Re.run X (Re.mkState 0 ("/"%char :: tl) None)
            (fun st' => Re.run (Re.Star X) st' k1) = Some m).
  assert (Re.run X (Re.mkState 0 ("/"%char :: tl) None) (fun st' => Re.run (Re.Star X) st' k1)
          = Re.run (Re.Star X) (Re.mkState 1 tl None) k1) as ->.
  { cbn [Re.run]. fold block_comment. unfold tl. rewrite block_comment_open_line. done. }
  apply (run_star_skip ("*"%char :: "*"%char :: "010"%char :: h) t 1 None k1 m Hfree).
  rewrite run_star. cbn [Re.rest length]. rewrite star_rounds_S.
  cbn [Re.run]. fold block_comment. rewrite block_comment_needs_slash by done.
  cbn [length Nat.add] in *. exact HR.
Qed.

Local Abbreviation trailer :=
  (Re.Star (Re.Alt block_comment (Re.Class (fun c => Re.is_space c || Ascii.eqb c ";")))).

(** From the opening parenthesis on: the group takes everything up to the
    last character, which is the closing parenthesis. *)
Lemma run_payload payload q :
  Re.run (Re.Seq (Re.Chr "(")
            (Re.Seq (Re.Group (Re.Star Re.Any)) (Re.Seq (Re.Chr ")") (Re.Seq trailer Re.Eol))))
    (Re.mkState q ("("%char :: payload ++ [")"%char]) None) Some
  = Some (Re.mkState (q + 2 + length payload) [] (Some (S q, S q + length payload))).
Proof.
  set (k2 := fun st' : Re.mstate =>
               Re.run (Re.Seq (Re.Chr ")") (Re.Seq trailer Re.Eol))
                 (Re.mkState (Re.pos st') (Re.rest st') (Some (S q, Re.pos st'))) Some).
  change (Re.run (Re.Star Re.Any) (Re.mkState (S q) (payload ++ [")"%char]) None) k2
          = Some (Re.mkState (q + 2 + length payload) [] (Some (S q, S q + length payload)))).
  apply run_star_any_last.
  - reflexivity.
  - unfold k2. cbn. do 2 f_equal. lia.
Qed.

(** The pattern on a text that is a header, a name, and a payload between
    parentheses: it matches at the start, and group 1 is the payload. *)
Lemma match_envelope h payload :
  comment_free ("*"%char :: "*"%char :: "010"%char :: h) = true ->
  let s := "/"%char :: "*"%char :: "*"%char :: "010"%char :: h ++ "("%char :: payload ++ [")"%char] in
  Re.match_at REGEX_TREE_FILE_PREFIX s 0
  = Some (Re.mkState (length s) [] (Some (5 + length h, 5 + length h + length payload))).
Proof.
  intros Hfree s. unfold Re.match_at, REGEX_TREE_FILE_PREFIX. rewrite drop_0. unfold s.
  apply run_prefix; [exact Hfree|].
  rewrite run_payload. cbn [length]. rewrite !length_app. cbn [length].
  rewrite !length_app. cbn [length].
  replace (4 + length h + 2 + length payload)
    with (S (S (S (S (length h + S (length payload + 1)))))) by lia.
  reflexivity.
Qed.

Lemma search_from_first r s n m :
  Re.match_at r s 0 = Some m -> Re.search_from r s n 0 = Some m.
Proof. intros Hm. destruct n; cbn [Re.search_from]; by rewrite Hm. Qed.

(** A text made of a header, the name of the function with its opening
    parenthesis, a payload and a closing parenthesis: the pattern finds the
    payload, whatever characters it holds. *)
Lemma search_saved_text (header fname payload : string) :
  let pre := list_ascii_of_string header ++ list_ascii_of_string fname in
  let h := take (length pre - 5) (drop 4 pre) in
  pre = "/"%char :: "*"%char :: "*"%char :: "010"%char :: h ++ ["("%char] ->
  comment_free ("*"%char :: "*"%char :: "010"%char :: h) = true ->
  let text := header +:+ fname +:+ payload +:+ ")" in
  exists m, Re.search REGEX_TREE_FILE_PREFIX text = Some m /\ Re.group text m = payload.
Proof.
  intros pre h Hpre Hfree text.
  assert (list_ascii_of_string text
          = "/"%char :: "*"%char :: "*"%char :: "010"%char :: h
            ++ "("%char :: list_ascii_of_string payload ++ [")"%char]) as Htext.
  { unfold text. rewrite !list_ascii_of_string_app. rewrite app_assoc. fold pre. rewrite Hpre.
    cbn [app list_ascii_of_string]. by rewrite <- app_assoc. }
  eexists. split.
  - unfold Re.search. rewrite Htext. apply search_from_first. by apply match_envelope.
  - unfold Re.group. cbn [Re.group1]. rewrite Htext.
    replace (5 + length h + length (list_ascii_of_string payload) - (5 + length h))
      with (length (list_ascii_of_string payload)) by lia.
    change ("/"%char :: "*"%char :: "*"%char :: "010"%char :: h
            ++ "("%char :: list_ascii_of_string payload ++ [")"%char])
      with (("/"%char :: "*"%char :: "*"%char :: "010"%char :: h)
            ++ ["("%char] ++ list_ascii_of_string payload ++ [")"%char]).
    rewrite app_assoc.
    rewrite drop_app_length'; [|rewrite length_app; cbn [length]; lia].
    rewrite take_app_length. apply string_of_list_ascii_of_string.
Qed.
End TreeEnvelope.
Section DictAppend.
Import PyDict.
Context {V : Type}.
Implicit Types (d : dict V).

Lemma dict_set_fresh d k v : k ∉ keys d -> set k v d = d ++ [(k, v)].
Proof.
  induction d as [|[k' v'] d IH]; intros Hk; cbn; [done|].
  cbn in Hk. apply not_elem_of_cons in Hk as [Hne Hk].
  destruct (String.eqb_spec k k') as [->|_]; [done|]. by rewrite IH.
Qed.

Lemma dict_update_fresh d other : NoDup (keys (d ++ other)) -> update d other = d ++ other.
Proof.
  revert d. induction other as [|[k v] other IH]; intros d Hnd; cbn.
  - by rewrite app_nil_r.
  - assert (k ∉ keys d) as Hk.
    { unfold keys in *. rewrite fmap_app in Hnd. apply NoDup_app in Hnd as (_ & Hdis & _).
      intros Hin. apply (Hdis k Hin). cbn. left. }
    rewrite dict_set_fresh by done. unfold update in IH. rewrite IH.
    + by rewrite <- app_assoc.
    + by rewrite <- app_assoc.
Qed.

Lemma dict_fold_update_fresh (bodies : list (dict V)) d :
  NoDup (keys (d ++ concat bodies)) -> fold_left update bodies d = d ++ concat bodies.
Proof.
  revert d. induction bodies as [|b bodies IH]; intros d Hnd; cbn.
  - by rewrite app_nil_r.
  - cbn in Hnd. rewrite dict_update_fresh.
    + rewrite IH; by rewrite <- app_assoc.
    + unfold keys in *. rewrite app_assoc, fmap_app in Hnd. by apply NoDup_app in Hnd as (? & _).
Qed.

End DictAppend.

Section SaveThenLoad.
Import Tree PyDict.
Context `{Json} {V : Type}.
Context (self : Book) (name : string) (Hrel : relative_name name).
Context (now threshold : Z) (weigh : V -> Z).
Context (save_file : nat -> dict V -> filesystem -> outcome filesystem).
Context (render : dict V -> string) (enc : V -> json) (data0 : dict V).
Implicit Types (fs : filesystem) (i j : nat) (d : dict V).

Local Abbreviation shard := (get_tree_file self name).
Local Abbreviation members := (map (fun kv : string * V => (kv.1, enc kv.2))).

(** The writer of a shard writes [render d]; a file with that text is read
    back as the members of [d], for the runs [d] of consecutive records of
    the mapping that is saved; a record of the mapping adds to [size]. *)
Context (Hsave : forall i d fs, save_file i d fs = save_tree_file now self name i (render d) fs).
Context (Hread : forall d l1 l2, data0 = l1 ++ d ++ l2 ->
                 forall fs file mtime, fs !! file = Some (File (render d) mtime) ->
                 load_tree_file fs file = Ok (JObj (members d))).
Context (Hweigh : forall kv, kv ∈ data0 -> (0 < weigh kv.2)%Z).

Lemma save_file_no_directory i d fs :
  (forall x mtime, fs !! shard x <> Some (Directory mtime)) ->
  save_file i d fs = Ok (<[shard i := File (render d) now]> fs) /\
  (forall x mtime, <[shard i := File (render d) now]> fs !! shard x <> Some (Directory mtime)).
Proof.
  intros Hdirs. split.
  - rewrite Hsave. unfold save_tree_file.
    destruct (fs !! shard i) as [[t m|m]|] eqn:E; try done. by destruct (Hdirs i m).
  - intros x mtime. destruct (decide (shard x = shard i)) as [->|Hne].
    + by rewrite lookup_insert_eq.
    + rewrite lookup_insert_ne by done. apply Hdirs.
Qed.

(** The loop cuts the records into consecutive runs, one per shard written,
    and keeps the rest pending; [size] is 0 only when nothing is pending. *)
Lemma save_loop_shards items i sz pending fs l1 :
  data0 = l1 ++ pending ++ items ->
  NoDup (keys (pending ++ items)) ->
  (0 <= sz)%Z -> (sz = 0%Z -> pending = []) ->
  (forall x mtime, fs !! shard x <> Some (Directory mtime)) ->
  exists i' sz' pending' fs' (chunks : list (dict V)) l1',
    save_loop threshold weigh save_file items i sz pending fs = Ok (i', sz', pending', fs') /\
    i' = i + length chunks /\
    concat chunks ++ pending' = pending ++ items /\
    data0 = l1' ++ pending' /\
    (0 <= sz')%Z /\ (sz' = 0%Z -> pending' = []) /\
    (forall n chunk, chunks !! n = Some chunk ->
       fs' !! shard (i + n) = Some (File (render chunk) now) /\
       exists a b, data0 = a ++ chunk ++ b) /\
    (forall path, (forall x, i <= x < i' -> path <> shard x) -> fs' !! path = fs !! path).
Proof.
  revert i sz pending fs l1. induction items as [|[id v] items IH];
    intros i sz pending fs l1 Hdata Hnd Hsz Hpend Hdirs.
  - exists i, sz, pending, fs, [], l1. cbn. rewrite app_nil_r in Hdata.
    split_and!; try done; try lia. by rewrite app_nil_r.
  - cbn [save_loop].
    assert (id ∉ keys pending) as Hfresh.
    { unfold keys in *. rewrite fmap_app in Hnd. apply NoDup_app in Hnd as (_ & Hdis & _).
      intros Hin. apply (Hdis id Hin). cbn. left. }
    rewrite dict_set_fresh by done.
    assert (0 < weigh v)%Z as Hv.
    { apply (Hweigh (id, v)). rewrite Hdata. apply elem_of_app. right.
      apply elem_of_app. right. left. }
    destruct (sz + weigh v >=? threshold)%Z.
    + destruct (save_file_no_directory i (pending ++ [(id, v)]) fs Hdirs) as [-> Hdirs1].
      destruct (IH (S i) 0%Z [] (<[shard i := File (render (pending ++ [(id, v)])) now]> fs)
                   (l1 ++ pending ++ [(id, v)]))
        as (i' & sz' & pending' & fs' & chunks & l1' & Hloop & Hi' & Hcat & Hd' & Hsz' & Hp' & Hch & Hfr).
      { rewrite Hdata. cbn [app]. by rewrite <- !app_assoc. }
      { cbn [app]. unfold keys in *. rewrite fmap_app in Hnd.
        apply NoDup_app in Hnd as (_ & _ & Hnd). cbn in Hnd. by apply NoDup_cons in Hnd as [_ ?]. }
      { lia. } { done. } { exact Hdirs1. }
      exists i', sz', pending', fs', ((pending ++ [(id, v)]) :: chunks), l1'.
      split; [exact Hloop|]. split_and!; try done.
      * cbn [length]. lia.
      * cbn [concat]. rewrite <- !app_assoc. cbn [app] in Hcat. rewrite Hcat. done.
      * intros [|n] chunk Hn.
        -- cbn in Hn. injection Hn as <-. rewrite Nat.add_0_r. split.
           ++ rewrite Hfr; [apply lookup_insert_eq|].
              intros x Hx Heq. apply get_tree_file_inj in Heq; [lia|done].
           ++ exists l1, items. rewrite Hdata. by rewrite <- !app_assoc.
        -- cbn in Hn. replace (i + S n) with (S i + n) by lia. by apply Hch.
      * intros path Hpath. rewrite Hfr.
        -- apply lookup_insert_ne. intros Heq. apply (Hpath i); [lia|done].
        -- intros x Hx. apply Hpath. lia.
    + destruct (IH i (sz + weigh v)%Z (pending ++ [(id, v)]) fs l1)
        as (i' & sz' & pending' & fs' & chunks & l1' & Hloop & Hi' & Hcat & Hd' & Hsz' & Hp' & Hch & Hfr).
      { rewrite Hdata. by rewrite <- !app_assoc. }
      { by rewrite <- app_assoc. }
      { lia. } { lia. } { done. }
      exists i', sz', pending', fs', chunks, l1'.
      split; [exact Hloop|]. split_and!; try done.
      by rewrite Hcat, <- app_assoc.
Qed.

Lemma members_concat (chunks : list (dict V)) :
  concat (map members chunks) = members (concat chunks).
Proof. induction chunks as [|c chunks IH]; cbn; [done|]. by rewrite IH, map_app. Qed.

Lemma keys_members d : keys (members d) = keys d.
Proof. unfold keys. rewrite map_map. done. Qed.

(** Saving a mapping without repeated ids over files among which no
    directory stands at a shard's path, then loading: the save succeeds and
    the load gives the members of the mapping, in order. *)
Lemma save_files_then_load fs :
  NoDup (keys data0) ->
  (forall x mtime, fs !! shard x <> Some (Directory mtime)) ->
  exists fs',
    save_files self name threshold weigh save_file data0 fs = Ok fs' /\
    load_tree_files self fs' name = Ok (members data0).
Proof.
  intros Hnd Hdirs. unfold save_files.
  destruct (save_loop_shards data0 0 1%Z [] fs [])
    as (i' & sz' & pending' & fs1 & chunks & l1' & Hloop & Hi' & Hcat & Hd' & Hsz' & Hp' & Hch & Hfr);
    [done|done|lia|lia|done|].
  rewrite Hloop. cbn [Nat.add app] in *.
  assert (Hdirs1 : forall x mtime, fs1 !! shard x <> Some (Directory mtime)).
  { intros x mtime. destruct (decide (x < i')) as [Hx|Hx].
    - destruct (lookup_lt_is_Some_2 chunks x) as [c Hc]; [lia|].
      destruct (Hch x c Hc) as [-> _]. done.
    - rewrite Hfr; [apply Hdirs|]. intros y Hy Heq.
      apply get_tree_file_inj in Heq; [lia|done]. }
  assert (exists k fs2 (all : list (dict V)),
             (if (sz' =? 0)%Z then Ok (i', fs1)
              else match save_file i' pending' fs1 with
                   | Raise e => Raise e
                   | Ok fs2 => Ok (S i', fs2)
                   end) = Ok (k, fs2) /\
             k = length all /\ concat all = data0 /\
             (forall n chunk, all !! n = Some chunk ->
                fs2 !! shard n = Some (File (render chunk) now) /\
                exists a b, data0 = a ++ chunk ++ b) /\
             (forall x, k <= x -> fs2 !! shard x = fs !! shard x))
    as (k & fs2 & all & -> & Hk & Hall & Hwritten & Hbeyond).
  { destruct (Z.eqb_spec sz' 0) as [Hz|Hnz].
    - exists i', fs1, chunks. rewrite (Hp' Hz), app_nil_r in Hcat.
      split_and!; try done.
      intros x Hx. apply Hfr. intros y Hy Heq. apply get_tree_file_inj in Heq; [lia|done].
    - destruct (save_file_no_directory i' pending' fs1 Hdirs1) as [-> _].
      exists (S i'), (<[shard i' := File (render pending') now]> fs1), (chunks ++ [pending']).
      split_and!; try done.
      + rewrite length_app. cbn. lia.
      + rewrite concat_app. cbn. by rewrite app_nil_r.
      + intros n chunk Hn. apply lookup_app_Some in Hn as [Hn|[Hlen Hn]].
        * destruct (Hch n chunk Hn) as [Hfile Hseg]. split; [|done].
          rewrite lookup_insert_ne; [done|]. intros Heq.
          apply get_tree_file_inj in Heq; [|done].
          apply lookup_lt_Some in Hn. lia.
        * destruct (n - length chunks) as [|m] eqn:Hm; [|by destruct m].
          cbn in Hn. injection Hn as <-. replace n with i' by lia. split.
          -- apply lookup_insert_eq.
          -- exists l1', []. by rewrite app_nil_r.
      + intros x Hx. rewrite lookup_insert_ne.
        * apply Hfr. intros y Hy Heq. apply get_tree_file_inj in Heq; [lia|done].
        * intros Heq. apply get_tree_file_inj in Heq; [lia|done]. }
  pose proof (remove_unused_spec self name Hrel (S (size fs2)) k fs2 ltac:(lia)) as Hrem.
  destruct (remove_unused self name (S (size fs2)) k fs2) as [fs3|e].
  2:{ destruct Hrem as (j & mtime & Hj & Hdir & _). rewrite Hbeyond in Hdir by done.
      by destruct (Hdirs j mtime). }
  destruct Hrem as (j & Hj & Hremoved & Hnone & Hfr3).
  exists fs3. split; [done|].
  assert (Hkept : forall n chunk, all !! n = Some chunk ->
                    fs3 !! shard n = Some (File (render chunk) now)).
  { intros n chunk Hn. destruct (Hwritten n chunk Hn) as [Hfile _].
    rewrite Hfr3; [done|]. intros y Hy Heq. apply get_tree_file_inj in Heq; [|done].
    apply lookup_lt_Some in Hn. lia. }
  assert (Hgap : fs3 !! shard k = None).
  { destruct (decide (k < j)) as [Hlt|Hge].
    - destruct (Hremoved k) as [_ Hgone]; [lia|done].
    - assert (j = k) as -> by lia. rewrite Hfr3; [done|]. intros y Hy. lia. }
  unfold load_tree_files.
  destruct (iter_tree_files_spec self name Hrel fs3) as (j' & Hiter & Hnone' & Hall').
  assert (j' = k) as ->.
  { destruct (lt_eq_lt_dec j' k) as [[Hlt|Heq]|Hgt]; [|done|].
    - destruct (lookup_lt_is_Some_2 all j') as [c Hc]; [lia|].
      rewrite (Hkept j' c Hc) in Hnone'. done.
    - destruct (Hall' k Hgt) as [nd Hnd']. by rewrite Hgap in Hnd'. }
  rewrite Hiter. rewrite (load_files_merge fs3 _ (map members all) []).
  - f_equal. rewrite dict_fold_update_fresh.
    + cbn [app]. by rewrite members_concat, Hall.
    + cbn [app]. by rewrite members_concat, Hall, keys_members.
  - apply Forall2_same_length_lookup. split.
    + by rewrite !length_map, length_seq.
    + intros n file body Hfile Hbody.
      change (map ?f ?l) with (f <$> l) in Hfile.
      change (map ?f ?l) with (f <$> l) in Hbody.
      rewrite list_lookup_fmap in Hfile. rewrite list_lookup_fmap in Hbody.
      apply fmap_Some in Hbody as (chunk & Hn & ->).
      apply fmap_Some in Hfile as (x & Hx & ->).
      apply lookup_seq in Hx as [-> _]. cbn [Nat.add].
      destruct (Hwritten n chunk Hn) as [_ (a & b & Hseg)].
      apply (Hread chunk a b Hseg fs3 _ now). by apply Hkept.
Qed.

End SaveThenLoad.
Section TreeRoundTrip.
Import Tree PyDict.
Context `{Json}.
Implicit Types (self : Book) (fs : filesystem).

Lemma saved_text_is_read fs file header fname payload mtime :
  (exists m, Re.search REGEX_TREE_FILE_PREFIX (header +:+ fname +:+ payload +:+ ")") = Some m /\
             Re.group (header +:+ fname +:+ payload +:+ ")") m = payload) ->
  fs !! file = Some (File (header +:+ fname +:+ payload +:+ ")") mtime) ->
  load_tree_file fs file =
  match json_loads payload with
  | Loaded v => Ok v
  | JSONDecodeError exc => Raise (TreeFileMalformedError (malformed_msg file +:+ ": " +:+ exc))
  end.
Proof. intros (m & Hm & Hg) Hf. unfold load_tree_file. by rewrite Hf, Hm, Hg. Qed.

Lemma saved_meta_text payload :
  exists m, Re.search REGEX_TREE_FILE_PREFIX
              (EDITABLE_HEADER +:+ "scrapbook.meta(" +:+ payload +:+ ")") = Some m /\
            Re.group (EDITABLE_HEADER +:+ "scrapbook.meta(" +:+ payload +:+ ")") m = payload.
Proof. apply (search_saved_text EDITABLE_HEADER "scrapbook.meta(" payload); reflexivity. Qed.

Lemma saved_toc_text payload :
  exists m, Re.search REGEX_TREE_FILE_PREFIX
              (EDITABLE_HEADER +:+ "scrapbook.toc(" +:+ payload +:+ ")") = Some m /\
            Re.group (EDITABLE_HEADER +:+ "scrapbook.toc(" +:+ payload +:+ ")") m = payload.
Proof. apply (search_saved_text EDITABLE_HEADER "scrapbook.toc(" payload); reflexivity. Qed.

Lemma saved_fulltext_text payload :
  exists m, Re.search REGEX_TREE_FILE_PREFIX
              (GENERATED_HEADER +:+ "scrapbook.fulltext(" +:+ payload +:+ ")") = Some m /\
            Re.group (GENERATED_HEADER +:+ "scrapbook.fulltext(" +:+ payload +:+ ")") m = payload.
Proof. apply (search_saved_text GENERATED_HEADER "scrapbook.fulltext(" payload); reflexivity. Qed.

Lemma saved_shard_is_read now self name i text fs fs' :
  save_tree_file now self name i text fs = Ok fs' ->
  fs' !! get_tree_file self name i = Some (File text now).
Proof.
  intros Hs. pose proof (save_tree_file_spec now self name i text fs) as Hspec.
  rewrite Hs in Hspec. subst fs'. apply lookup_insert_eq.
Qed.

End TreeRoundTrip.
(** Reading back one shard.  A file that [save_meta_file], [save_toc_file]
    or [save_fulltext_file] has written is read by [load_tree_file] as
    [json.loads] of the very text [json.dumps] produced: the pattern finds
    the opening parenthesis after the header and gives up only the last
    closing parenthesis, whatever parentheses, comment marks or line breaks
    the JSON text holds.  It is malformed only if [json.loads] rejects that
    text. *)
Theorem load_tree_file_reads_saved_shard (J : Tree.Json) (now : Z) (self : Tree.Book)
    (i : nat) (fs fs' : gmap string Tree.node) :
  let read (file payload : string) :=
    match Tree.json_loads payload with
    | Tree.Loaded v => Tree.Ok v
    | Tree.JSONDecodeError exc =>
        Tree.Raise (Tree.TreeFileMalformedError (Tree.malformed_msg file +:+ ": " +:+ exc))
    end in
  (forall data, Tree.save_meta_file now self i data fs = Tree.Ok fs' ->
     Tree.load_tree_file fs' (Tree.get_tree_file self "meta" i)
     = read (Tree.get_tree_file self "meta" i) (Tree.json_dumps 2 (Tree.meta_to_json data))) /\
  (forall data, Tree.save_toc_file now self i data fs = Tree.Ok fs' ->
     Tree.load_tree_file fs' (Tree.get_tree_file self "toc" i)
     = read (Tree.get_tree_file self "toc" i) (Tree.json_dumps 2 (Tree.toc_to_json data))) /\
  (forall data, Tree.save_fulltext_file now self i data fs = Tree.Ok fs' ->
     Tree.load_tree_file fs' (Tree.get_tree_file self "fulltext" i)
     = read (Tree.get_tree_file self "fulltext" i)
            (Tree.json_dumps 1 (Tree.fulltext_to_json data))).
Proof.
  intros read. split_and!; intros data Hsave; apply saved_shard_is_read in Hsave.
  - exact (saved_text_is_read _ _ _ _ _ _ (saved_meta_text _) Hsave).
  - exact (saved_text_is_read _ _ _ _ _ _ (saved_toc_text _) Hsave).
  - exact (saved_text_is_read _ _ _ _ _ _ (saved_fulltext_text _) Hsave).
Qed.

Lemma load_tree_file_reads_saved_shard_witness :
  @Tree.load_tree_file reference_json
    (<[Tree.get_tree_file sample_book "meta" 1 :=
         Tree.File (Tree.EDITABLE_HEADER +:+ "scrapbook.meta(" +:+
                    @Tree.json_dumps reference_json 2 (Tree.meta_to_json sample_meta) +:+ ")") 7]> ∅)
    (Tree.get_tree_file sample_book "meta" 1)
  = Tree.Ok (Tree.meta_to_json sample_meta).
Proof.
  destruct (load_tree_file_reads_saved_shard reference_json 7 sample_book 1 ∅
              (<[Tree.get_tree_file sample_book "meta" 1 :=
                   Tree.File (Tree.EDITABLE_HEADER +:+ "scrapbook.meta(" +:+
                              @Tree.json_dumps reference_json 2 (Tree.meta_to_json sample_meta)
                              +:+ ")") 7]> ∅)) as (Hmeta & _ & _).
  rewrite (Hmeta sample_meta); [|reflexivity].
  vm_compute. reflexivity.
Defined.
Section TreeRoundTripKinds.
Import Tree PyDict.
Context `{Json}.
Implicit Types (self : Book) (fs : filesystem).

Lemma meta_to_json_members (d : meta_t) :
  meta_to_json d
  = JObj (map (fun kv : string * dict string =>
                 (kv.1, JObj (map (fun '(k, v) => (k, JStr v)) kv.2))) d).
Proof. unfold meta_to_json. f_equal. apply map_ext. by intros [id attrs]. Qed.

Lemma toc_to_json_members (d : toc_t) :
  toc_to_json d = JObj (map (fun kv : string * list string => (kv.1, JArr (map JStr kv.2))) d).
Proof. unfold toc_to_json. f_equal. apply map_ext. by intros [id children]. Qed.

Lemma fulltext_to_json_members (d : fulltext_t) :
  fulltext_to_json d
  = JObj (map (fun kv : string * dict string =>
                 (kv.1, JObj (map (fun '(path, content) =>
                                     (path, JObj [("content", JStr content)])) kv.2))) d).
Proof. unfold fulltext_to_json. f_equal. apply map_ext. by intros [id entry]. Qed.

Lemma save_meta_files_then_load now self (data : meta_t) fs :
  wf data ->
  (forall i mtime, fs !! get_tree_file self "meta" i <> Some (Directory mtime)) ->
  (forall d l1 l2, data = l1 ++ d ++ l2 ->
     json_loads (json_dumps 2 (meta_to_json d)) = Loaded (meta_to_json d)) ->
  exists fs' loaded,
    save_meta_files now self data fs = Ok fs' /\
    load_tree_files self fs' "meta" = Ok loaded /\
    JObj loaded = meta_to_json data.
Proof.
  intros Hwf Hdirs Hjson.
  destruct (save_files_then_load self "meta" relative_meta now (SAVE_META_THRESHOLD self)
              meta_weight (save_meta_file now self)
              (fun d => EDITABLE_HEADER +:+ "scrapbook.meta(" +:+ json_dumps 2 (meta_to_json d)
                        +:+ ")")
              (fun attrs => JObj (map (fun '(k, v) => (k, JStr v)) attrs)) data) with (fs := fs)
    as (fs' & Hsave & Hload); try done.
  - intros d l1 l2 Hseg fs0 file mtime Hfile.
    rewrite (saved_text_is_read _ _ _ _ _ _ (saved_meta_text _) Hfile).
    by rewrite (Hjson d l1 l2 Hseg), meta_to_json_members.
  - exists fs'. eexists. split; [exact Hsave|]. split; [exact Hload|].
    by rewrite meta_to_json_members.
Qed.

Lemma save_toc_files_then_load now self (data : toc_t) fs :
  wf data ->
  (forall i mtime, fs !! get_tree_file self "toc" i <> Some (Directory mtime)) ->
  (forall d l1 l2, data = l1 ++ d ++ l2 ->
     json_loads (json_dumps 2 (toc_to_json d)) = Loaded (toc_to_json d)) ->
  exists fs' loaded,
    save_toc_files now self data fs = Ok fs' /\
    load_tree_files self fs' "toc" = Ok loaded /\
    JObj loaded = toc_to_json data.
Proof.
  intros Hwf Hdirs Hjson.
  destruct (save_files_then_load self "toc" relative_toc now (SAVE_TOC_THRESHOLD self)
              toc_weight (save_toc_file now self)
              (fun d => EDITABLE_HEADER +:+ "scrapbook.toc(" +:+ json_dumps 2 (toc_to_json d)
                        +:+ ")")
              (fun children => JArr (map JStr children)) data) with (fs := fs)
    as (fs' & Hsave & Hload); try done.
  - intros d l1 l2 Hseg fs0 file mtime Hfile.
    rewrite (saved_text_is_read _ _ _ _ _ _ (saved_toc_text _) Hfile).
    by rewrite (Hjson d l1 l2 Hseg), toc_to_json_members.
  - intros kv _. unfold toc_weight. lia.
  - exists fs'. eexists. split; [exact Hsave|]. split; [exact Hload|].
    by rewrite toc_to_json_members.
Qed.

Lemma save_fulltext_files_then_load now self (data : fulltext_t) fs :
  wf data ->
  Forall (fun kv => (0 < fulltext_weight kv.2)%Z) data ->
  (forall i mtime, fs !! get_tree_file self "fulltext" i <> Some (Directory mtime)) ->
  (forall d l1 l2, data = l1 ++ d ++ l2 ->
     json_loads (json_dumps 1 (fulltext_to_json d)) = Loaded (fulltext_to_json d)) ->
  exists fs' loaded,
    save_fulltext_files now self data fs = Ok fs' /\
    load_tree_files self fs' "fulltext" = Ok loaded /\
    JObj loaded = fulltext_to_json data.
Proof.
  intros Hwf Hweight Hdirs Hjson.
  destruct (save_files_then_load self "fulltext" relative_fulltext now
              (SAVE_FULLTEXT_THRESHOLD self) fulltext_weight (save_fulltext_file now self)
              (fun d => GENERATED_HEADER +:+ "scrapbook.fulltext(" +:+
                        json_dumps 1 (fulltext_to_json d) +:+ ")")
              (fun entry => JObj (map (fun '(path, content) =>
                                         (path, JObj [("content", JStr content)])) entry))
              data) with (fs := fs)
    as (fs' & Hsave & Hload); try done.
  - intros d l1 l2 Hseg fs0 file mtime Hfile.
    rewrite (saved_text_is_read _ _ _ _ _ _ (saved_fulltext_text _) Hfile).
    by rewrite (Hjson d l1 l2 Hseg), fulltext_to_json_members.
  - intros kv Hin. by apply (proj1 (Forall_forall _ _) Hweight).
  - exists fs'. eexists. split; [exact Hsave|]. split; [exact Hload|].
    by rewrite fulltext_to_json_members.
Qed.

End TreeRoundTripKinds.
(** Round trip of the meta and toc mappings.  For a mapping without
    repeated ids, whatever the threshold and whatever tree files are there
    before (no directory standing at a shard's path), [save_meta_files]
    succeeds and [load_tree_files('meta')] on the files it leaves gives the
    mapping back, records in the same order: the shards written are read
    again, and no older shard is, since the save removes the shards that
    follow the ones it wrote up to the first gap, where the enumeration of
    the load stops too.  Likewise for [save_toc_files].  [json.loads] is
    assumed to read back what [json.dumps] printed for the runs of
    consecutive records of the mapping. *)
Theorem save_meta_toc_files_round_trip (J : Tree.Json) (now : Z) (self : Tree.Book)
    (fs : gmap string Tree.node) :
  (forall data : PyDict.dict (PyDict.dict string),
     PyDict.wf data ->
     (forall i mtime, fs !! Tree.get_tree_file self "meta" i <> Some (Tree.Directory mtime)) ->
     (forall d l1 l2, data = l1 ++ d ++ l2 ->
        Tree.json_loads (Tree.json_dumps 2 (Tree.meta_to_json d))
        = Tree.Loaded (Tree.meta_to_json d)) ->
     exists fs' loaded,
       Tree.save_meta_files now self data fs = Tree.Ok fs' /\
       Tree.load_tree_files self fs' "meta" = Tree.Ok loaded /\
       Tree.JObj loaded = Tree.meta_to_json data) /\
  (forall data : PyDict.dict (list string),
     PyDict.wf data ->
     (forall i mtime, fs !! Tree.get_tree_file self "toc" i <> Some (Tree.Directory mtime)) ->
     (forall d l1 l2, data = l1 ++ d ++ l2 ->
        Tree.json_loads (Tree.json_dumps 2 (Tree.toc_to_json d))
        = Tree.Loaded (Tree.toc_to_json d)) ->
     exists fs' loaded,
       Tree.save_toc_files now self data fs = Tree.Ok fs' /\
       Tree.load_tree_files self fs' "toc" = Tree.Ok loaded /\
       Tree.JObj loaded = Tree.toc_to_json data).
Proof.
  split; intros data Hwf Hdirs Hjson.
  - by apply save_meta_files_then_load.
  - by apply save_toc_files_then_load.
Qed.

(** Splitting a list of at most two records in three: the cases. *)
Local Ltac segments Heq l1 d l2 :=
  destruct l1 as [|? [|? [|? ?]]]; destruct d as [|? [|? [|? ?]]];
  destruct l2 as [|? [|? [|? ?]]]; cbn in Heq;
  first [discriminate Heq | inversion Heq; subst; vm_compute; reflexivity].

Lemma save_meta_toc_files_round_trip_witness :
  (exists fs' loaded,
     @Tree.save_meta_files reference_json 7 sample_book sample_meta ∅ = Tree.Ok fs' /\
     @Tree.load_tree_files reference_json sample_book fs' "meta" = Tree.Ok loaded /\
     Tree.JObj loaded = Tree.meta_to_json sample_meta) /\
  (exists fs' loaded,
     @Tree.save_toc_files reference_json 7 sample_book sample_toc ∅ = Tree.Ok fs' /\
     @Tree.load_tree_files reference_json sample_book fs' "toc" = Tree.Ok loaded /\
     Tree.JObj loaded = Tree.toc_to_json sample_toc).
Proof.
  destruct (save_meta_toc_files_round_trip reference_json 7 sample_book ∅) as [Hmeta Htoc].
  split.
  - apply Hmeta.
    + unfold PyDict.wf. cbn. apply (bool_decide_unpack _). vm_compute. exact I.
    + intros i mtime. by rewrite lookup_empty.
    + intros d l1 l2 Heq. unfold sample_meta in Heq. segments Heq l1 d l2.
  - apply Htoc.
    + unfold PyDict.wf. cbn. apply (bool_decide_unpack _). vm_compute. exact I.
    + intros i mtime. by rewrite lookup_empty.
    + intros d l1 l2 Heq. unfold sample_toc in Heq. segments Heq l1 d l2.
Defined.

(** Round trip of the full-text mapping, where it holds.  When every
    record of the mapping has some text (the lengths of its contents add up
    to more than 0), saving with [save_fulltext_files] and loading gives the
    mapping back, as for meta and toc.  (A record without text that follows
    a flushed shard is the case in which it does not.) *)
Theorem save_fulltext_files_round_trip_with_text (J : Tree.Json) (now : Z) (self : Tree.Book)
    (fs : gmap string Tree.node) (data : PyDict.dict (PyDict.dict string)) :
  PyDict.wf data ->
  Forall (fun kv => (0 < Tree.fulltext_weight kv.2)%Z) data ->
  (forall i mtime, fs !! Tree.get_tree_file self "fulltext" i <> Some (Tree.Directory mtime)) ->
  (forall d l1 l2, data = l1 ++ d ++ l2 ->
     Tree.json_loads (Tree.json_dumps 1 (Tree.fulltext_to_json d))
     = Tree.Loaded (Tree.fulltext_to_json d)) ->
  (exists fs' loaded,
     Tree.save_fulltext_files now self data fs = Tree.Ok fs' /\
     Tree.load_tree_files self fs' "fulltext" = Tree.Ok loaded /\
     Tree.JObj loaded = Tree.fulltext_to_json data) /\
  Tree.fulltext_round_trips now self data fs.
Proof.
  intros Hwf Hweight Hdirs Hjson.
  destruct (save_fulltext_files_then_load now self data fs Hwf Hweight Hdirs Hjson)
    as (fs' & loaded & Hsave & Hload & Heq).
  split; [by exists fs', loaded|].
  exists fs', loaded. split; [done|]. split; [done|].
  rewrite <- Heq. done.
Qed.

Lemma save_fulltext_files_round_trip_witness :
  @Tree.fulltext_round_trips reference_json 7 sample_book sample_fulltext_texts ∅.
Proof.
  apply (save_fulltext_files_round_trip_with_text reference_json 7 sample_book ∅
           sample_fulltext_texts).
  - unfold PyDict.wf. cbn. apply (bool_decide_unpack _). vm_compute. exact I.
  - repeat constructor.
  - intros i mtime. by rewrite lookup_empty.
  - intros d l1 l2 Heq. unfold sample_fulltext_texts in Heq. segments Heq l1 d l2.
Defined.

Section SimLockLife.
Import Host.
Implicit Types (self : FileLock) (w : sim).

Lemma set_lock_same self : set_lock self (_lock self) = self.
Proof. by destruct self. Qed.

(** [acquire] on a lock that nobody holds: one exclusive creation, no
    waiting. *)
Lemma sim_acquire_free self w fuel :
  _lock self = false ->
  files w !! file self = None ->
  locks_dir w <> DirDenied ->
  acquire (S fuel) self w =
  Some (Return (set_lock self true),
        {| clock := clock w; locks_dir := DirPresent;
           files := <[file self := clock w]> (files w);
           calls := calls w ++ [CallTime; CallMakedirs (posix_dirname (file self));
                                CallOpenX (file self)] |}).
Proof.
  intros Hl Hf Hdir. unfold acquire. rewrite Hl. cbn -[acquire_loop].
  unfold sim_makedirs. cbn -[acquire_loop].
  destruct (locks_dir w) eqn:Hd; [| |done].
  - cbn [acquire_loop]. unfold acquire_attempt. cbn. unfold sim_open_x. cbn. rewrite Hf. cbn.
    unfold set_files. cbn. by rewrite <- !app_assoc.
  - cbn [acquire_loop]. unfold acquire_attempt. cbn. unfold sim_open_x. cbn. rewrite Hf, Hd. cbn.
    unfold set_files. cbn. rewrite ?Hd. by rewrite <- !app_assoc.
Qed.

Lemma sim_release_held self w mtime :
  _lock self = true ->
  files w !! file self = Some mtime ->
  release self w =
  (Return (set_lock self false),
   {| clock := clock w; locks_dir := locks_dir w; files := delete (file self) (files w);
      calls := calls w ++ [CallRemove (file self)] |}).
Proof.
  intros Hl Hf. unfold release. rewrite Hl. cbn. unfold sim_remove. cbn. by rewrite Hf.
Qed.

Lemma sim_extend_held self w mtime :
  _lock self = true ->
  files w !! file self = Some mtime ->
  extend self w =
  (Return tt,
   {| clock := clock w; locks_dir := locks_dir w; files := <[file self := clock w]> (files w);
      calls := calls w ++ [CallUtime (file self)] |}).
Proof.
  intros Hl Hf. unfold extend. rewrite Hl. cbn. unfold sim_utime. cbn. by rewrite Hf.
Qed.

End SimLockLife.
Section LockErrors.
Import Host.
Context {W : Type} `{OS W}.
Implicit Types (self : FileLock) (w : W) (e : exn).

Lemma acquire_loop_raises fuel self timeout_time w e w' :
  acquire_loop fuel self timeout_time w = Some (Raise e, w') ->
  e = timeout_error self \/ e = generate_error self \/ e = regenerate_error self.
Proof.
  revert w. induction fuel as [|fuel IH]; intros w; cbn [acquire_loop]; [done|].
  unfold acquire_attempt.
  destruct (open_x (file self) w) as [[u| | |] w1]; try (intros [= <- <-]; tauto).
  destruct (time_time w1) as [t w2].
  destruct (t >=? timeout_time)%Z; [intros [= <- <-]; tauto|].
  destruct (os_stat_mtime (file self) w2) as [[m| | |] w3]; try (intros [= <- <-]; tauto).
  - destruct (t >=? m + stale self)%Z; [|apply IH].
    destruct (os_utime (file self) w3) as [[u| | |] w4]; intros [= <- <-]; tauto.
  - apply IH.
Qed.

End LockErrors.

(** The errors of the lock.  In every environment: when [acquire] raises,
    the exception is the timeout error or a generate error (the regenerate
    error included) that carries the lock's name and file, or else the
    [NameError] of the handler of [os.makedirs]; it never raises an extend
    or release error.  When it returns, the lock object is the same one
    marked as held, and nothing was done if it held the lock already.
    [extend] raises only extend errors and [release] only release errors,
    each carrying the lock's name and file; called on a lock that is not
    held they raise the not-acquired error and leave the world as it is;
    a [release] that returns has marked the lock as not held. *)
Theorem FileLock_errors_identify_the_lock (W : Type) (os : Host.OS W) (self : Host.FileLock) :
  (forall fuel w e w',
     Host.acquire fuel self w = Some (Host.Raise e, w') ->
     e = Host.NameError "name 'name' is not defined" \/
     ((Host.is_LockTimeoutError e || Host.is_LockGenerateError e) = true /\
      Host.lock_of e = Some (Host.name self, Host.file self))) /\
  (forall fuel w lock w',
     Host.acquire fuel self w = Some (Host.Return lock, w') ->
     lock = Host.set_lock self true /\ (Host.locked self = true -> w' = w)) /\
  (forall w e w',
     Host.extend self w = (Host.Raise e, w') ->
     is_LockExtendError e = true /\ Host.lock_of e = Some (Host.name self, Host.file self)) /\
  (forall w e w',
     Host.release self w = (Host.Raise e, w') ->
     is_LockReleaseError e = true /\ Host.lock_of e = Some (Host.name self, Host.file self)) /\
  (forall w,
     Host.locked self = false ->
     (exists msg, Host.extend self w
                  = (Host.Raise (Host.LockExtendNotAcquiredError msg (Host.name self)
                                   (Host.file self)), w)) /\
     (exists msg, Host.release self w
                  = (Host.Raise (Host.LockReleaseNotAcquiredError msg (Host.name self)
                                   (Host.file self)), w))) /\
  (forall w lock w',
     Host.release self w = (Host.Return lock, w') ->
     Host.locked self = true /\ Host.locked lock = false /\ Host.file lock = Host.file self).
Proof.
  split_and!.
  - intros fuel w e w'. unfold Host.acquire.
    destruct (Host._lock self); [done|].
    destruct (Host.time_time w) as [now w0].
    destruct (Host.os_makedirs _ w0) as [[u| | |] w1]; try (intros [= <- <-]; by left).
    + destruct (Host.acquire_loop fuel self _ w1) as [[[u'|e'] w2]|] eqn:Hloop; try done.
      intros [= <- <-]. right.
      apply acquire_loop_raises in Hloop as [->|[->| ->]]; done.
    + destruct (Host.acquire_loop fuel self _ w1) as [[[u'|e'] w2]|] eqn:Hloop; try done.
      intros [= <- <-]. right.
      apply acquire_loop_raises in Hloop as [->|[->| ->]]; done.
  - intros fuel w lock w'. unfold Host.acquire, Host.locked.
    destruct (Host._lock self) eqn:Hl.
    { intros [= <- <-]. split; [|done]. rewrite <- Hl. symmetry. apply set_lock_same. }
    destruct (Host.time_time w) as [now w0].
    destruct (Host.os_makedirs _ w0) as [[u| | |] w1]; try done.
    + destruct (Host.acquire_loop fuel self _ w1) as [[[u'|e'] w2]|] eqn:Hloop; try done.
      by intros [= <- <-].
    + destruct (Host.acquire_loop fuel self _ w1) as [[[u'|e'] w2]|] eqn:Hloop; try done.
      by intros [= <- <-].
  - intros w e w'. unfold Host.extend.
    destruct (Host._lock self); cbn [negb]; [|by intros [= <- <-]].
    destruct (Host.os_utime _ w) as [[u| | |] w1]; try done; by intros [= <- <-].
  - intros w e w'. unfold Host.release.
    destruct (Host._lock self); cbn [negb]; [|by intros [= <- <-]].
    destruct (Host.os_remove _ w) as [[u| | |] w1]; try done; by intros [= <- <-].
  - intros w Hl. unfold Host.locked in Hl. unfold Host.extend, Host.release. rewrite Hl.
    cbn [negb]. split; by eexists.
  - intros w lock w'. unfold Host.release, Host.locked.
    destruct (Host._lock self); cbn [negb]; [|done].
    destruct (Host.os_remove _ w) as [[u| | |] w1]; try done. by intros [= <- <-].
Qed.
(** Life of a lock in the simulated file system.  A lock that nobody holds
    (no lock file; the locks directory present or creatable) is acquired at
    once: [acquire] reads the clock, calls [os.makedirs] and creates the
    file exclusively, stamped with the present time, without sleeping.
    [release] then removes the file, so that the lock files are as before,
    and marks the lock as not held; a second [release] raises the
    not-acquired error and makes no call. *)
Theorem FileLock_acquire_release_round_trip (self : Host.FileLock) (w : Host.sim) (fuel : nat) :
  Host.locked self = false ->
  Host.files w !! Host.file self = None ->
  Host.locks_dir w <> Host.DirDenied ->
  exists w1 w2,
    Host.acquire (S fuel) self w = Some (Host.Return (Host.set_lock self true), w1) /\
    Host.clock w1 = Host.clock w /\
    Host.files w1 = <[Host.file self := Host.clock w]> (Host.files w) /\
    Host.calls w1 = Host.calls w ++
      [Host.CallTime; Host.CallMakedirs (Host.posix_dirname (Host.file self));
       Host.CallOpenX (Host.file self)] /\
    Host.release (Host.set_lock self true) w1 = (Host.Return self, w2) /\
    Host.files w2 = Host.files w /\
    Host.calls w2 = Host.calls w1 ++ [Host.CallRemove (Host.file self)] /\
    exists msg,
      Host.release self w2
      = (Host.Raise (Host.LockReleaseNotAcquiredError msg (Host.name self) (Host.file self)), w2).
Proof.
  intros Hl Hf Hdir. unfold Host.locked in Hl.
  eexists _, _. split; [by apply sim_acquire_free|]. cbn [Host.clock Host.files Host.calls].
  split; [done|]. split; [done|]. split; [done|]. split.
  { rewrite (sim_release_held _ _ (Host.clock w)); [|done|cbn; apply lookup_insert_eq].
    f_equal. f_equal. destruct self. cbn in *. by subst. }
  cbn [Host.clock Host.files Host.calls].
  split; [by rewrite delete_insert_id|]. split; [done|].
  unfold Host.release. rewrite Hl. cbn [negb]. by eexists.
Qed.

Lemma FileLock_acquire_release_round_trip_witness :
  exists w1 w2,
    Host.acquire 1 sample_lock sample_free = Some (Host.Return (Host.set_lock sample_lock true), w1) /\
    Host.files w1 = {[ Host.file sample_lock := 1000%Z ]} /\
    Host.release (Host.set_lock sample_lock true) w1 = (Host.Return sample_lock, w2) /\
    Host.files w2 = ∅.
Proof.
  destruct (FileLock_acquire_release_round_trip sample_lock sample_free 0)
    as (w1 & w2 & Hacq & _ & Hfiles & _ & Hrel & Hfiles2 & _);
    [reflexivity|reflexivity|discriminate|].
  exists w1, w2. split; [exact Hacq|]. split; [exact Hfiles|]. split; [exact Hrel|exact Hfiles2].
Defined.

(** [extend] keeps others out.  Called by the holder while the lock file
    exists, [extend] sets the file's time to the present.  A competitor
    whose timeout is not longer than its stale period, and who starts to
    acquire at that moment, finds the lock fresh until its deadline: it
    fails with the timeout error and leaves the lock file as it is.  When
    the lock file has been removed meanwhile, [extend] raises the not-found
    error and creates nothing. *)
Theorem FileLock_extend_defers_takeover (holder : Host.FileLock) (w : Host.sim) :
  Host.locked holder = true ->
  (forall mtime, Host.files w !! Host.file holder = Some mtime ->
     exists w1,
       Host.extend holder w = (Host.Return tt, w1) /\
       Host.clock w1 = Host.clock w /\
       Host.files w1 = <[Host.file holder := Host.clock w]> (Host.files w) /\
       forall other,
         Host.file other = Host.file holder ->
         Host.locked other = false ->
         Host.locks_dir w <> Host.DirDenied ->
         (0 < Host.poll_interval other)%Z ->
         (Host.timeout other <= Host.stale other)%Z ->
         exists fuel w2,
           Host.acquire fuel other w1 = Some (Host.Raise (Host.timeout_error other), w2) /\
           (Host.clock w + Host.timeout other <= Host.clock w2)%Z /\
           Host.files w2 = Host.files w1) /\
  (Host.files w !! Host.file holder = None ->
     exists msg w1,
       Host.extend holder w
       = (Host.Raise (Host.LockExtendNotFoundError msg (Host.name holder) (Host.file holder)), w1) /\
       Host.files w1 = Host.files w).
Proof.
  intros Hl. unfold Host.locked in Hl. split.
  - intros mtime Hf. eexists. split; [by apply (sim_extend_held holder w mtime)|].
    cbn [Host.clock Host.files]. split; [done|]. split; [done|].
    intros other Hfile Hlo Hdir Hpoll Hto.
    set (w1 := {| Host.clock := Host.clock w; Host.locks_dir := Host.locks_dir w;
                  Host.files := <[Host.file holder := Host.clock w]> (Host.files w);
                  Host.calls := Host.calls w ++ [Host.CallUtime (Host.file holder)] |}).
    destruct (sim_acquire_on_held_lock other w1 (Host.clock w))
      as (fuel & k & r & w2 & Hacq & Hclock & Hk & Hout); try done.
    { cbn. rewrite Hfile. apply lookup_insert_eq. }
    cbn [Host.clock w1] in Hout.
    destruct Hout as [(H1 & -> & H3 & _)|(H1 & H2 & _)]; [|lia].
    by exists fuel, w2.
  - intros Hf. unfold Host.extend. rewrite Hl. cbn. unfold Host.sim_utime. cbn. rewrite Hf.
    by eexists _, _.
Qed.

Lemma FileLock_extend_defers_takeover_witness :
  exists w1 fuel w2,
    Host.extend (Host.set_lock sample_lock true) sample_held_stale = (Host.Return tt, w1) /\
    Host.acquire fuel sample_lock w1 = Some (Host.Raise (Host.timeout_error sample_lock), w2) /\
    Host.files w2 = {[ Host.file sample_lock := 1000%Z ]}.
Proof.
  destruct (FileLock_extend_defers_takeover (Host.set_lock sample_lock true) sample_held_stale)
    as [Hheld _]; [reflexivity|].
  destruct (Hheld 300%Z) as (w1 & Hext & _ & Hfiles & Hother); [reflexivity|].
  destruct (Hother sample_lock) as (fuel & w2 & Hacq & _ & Hsame);
    [reflexivity|reflexivity|discriminate|reflexivity|vm_compute; discriminate|].
  exists w1, fuel, w2. split; [exact Hext|]. split; [exact Hacq|].
  rewrite Hsame, Hfiles. vm_compute. reflexivity.
Defined.

Section NormalizeSpace.
Import Indexer.
Implicit Types (l : list ascii) (c : ascii) (b : bool).

Local Abbreviation dw := (Host.dropwhile_bool Re.is_space).
Local Abbreviation ns := (fun c : ascii => negb (Re.is_space c)).

Lemma dropwhile_split l : exists pre, l = pre ++ dw l /\ Forall (fun c => Re.is_space c = true) pre.
Proof.
  induction l as [|c l (pre & Hl & Hpre)]; cbn.
  - by exists [].
  - destruct (Re.is_space c) eqn:Hc.
    + exists (c :: pre). split; [by rewrite Hl at 1|by constructor].
    + by exists [].
Qed.

Lemma dropwhile_head l c r : dw l = c :: r -> Re.is_space c = false.
Proof.
  induction l as [|x l IH]; cbn; [done|].
  destruct (Re.is_space x) eqn:Hx; [done|]. by intros [= <- <-].
Qed.

Lemma dropwhile_fixed l : match l with c :: _ => Re.is_space c = false | [] => True end -> dw l = l.
Proof. destruct l as [|c l]; cbn; [done|]. by intros ->. Qed.

(** [strip] cuts white space off both ends. *)
Lemma strip_split l :
  exists pre post,
    l = pre ++ strip l ++ post /\
    Forall (fun c => Re.is_space c = true) pre /\
    Forall (fun c => Re.is_space c = true) post.
Proof.
  unfold strip. destruct (dropwhile_split l) as (pre & Hl & Hpre).
  destruct (dropwhile_split (rev (dw l))) as (post & Hm & Hpost).
  exists pre, (rev post). split_and!.
  - rewrite Hl at 1. f_equal. rewrite <- rev_app_distr, <- Hm. by rewrite rev_involutive.
  - done.
  - by apply Forall_rev.
Qed.

Lemma strip_first l c r : strip l = c :: r -> Re.is_space c = false.
Proof.
  unfold strip. intros Hs.
  destruct (dropwhile_split (rev (dw l))) as (post & Hm & Hpost).
  apply (f_equal (@rev ascii)) in Hm. rewrite rev_involutive, rev_app_distr, Hs in Hm.
  cbn in Hm. by apply dropwhile_head in Hm.
Qed.

Lemma strip_last l r c : strip l = r ++ [c] -> Re.is_space c = false.
Proof.
  unfold strip. intros Hs. apply (f_equal (@rev ascii)) in Hs.
  rewrite rev_involutive, rev_app_distr in Hs. cbn in Hs. by apply dropwhile_head in Hs.
Qed.

Lemma strip_fixed l :
  (forall c r, l = c :: r -> Re.is_space c = false) ->
  (forall r c, l = r ++ [c] -> Re.is_space c = false) ->
  strip l = l.
Proof.
  intros Hfirst Hlast. unfold strip. rewrite (dropwhile_fixed l).
  - rewrite dropwhile_fixed; [apply rev_involutive|].
    destruct (rev l) as [|c r] eqn:Hr; [done|].
    apply (Hlast (rev r) c). rewrite <- (rev_involutive l), Hr. done.
  - destruct l as [|c r]; [done|]. by apply (Hfirst c r).
Qed.

Lemma space_is_space : Re.is_space " "%char = true.
Proof. reflexivity. Qed.

Lemma sub_spaces_keeps b l : List.filter ns (sub_spaces b l) = List.filter ns l.
Proof.
  revert b. induction l as [|c l IH]; intros b; cbn [sub_spaces List.filter]; [done|].
  destruct (Re.is_space c) eqn:Hc; cbn [negb].
  - destruct b; [apply IH|]. cbn [List.filter]. rewrite space_is_space. apply IH.
  - cbn [List.filter]. rewrite Hc. cbn [negb]. by rewrite IH.
Qed.

Lemma sub_spaces_chars b l c :
  c ∈ sub_spaces b l -> Re.is_space c = true -> c = " "%char.
Proof.
  revert b. induction l as [|x l IH]; intros b; cbn [sub_spaces]; [by intros ?%elem_of_nil|].
  destruct (Re.is_space x) eqn:Hx.
  - destruct b; [apply IH|]. intros [->|Hin]%elem_of_cons; [done|by eapply IH].
  - intros [->|Hin]%elem_of_cons; [congruence|by eapply IH].
Qed.

Lemma sub_spaces_head l c r : sub_spaces true l = c :: r -> Re.is_space c = false.
Proof.
  induction l as [|x l IH]; cbn [sub_spaces]; [done|].
  destruct (Re.is_space x) eqn:Hx; [done|]. by intros [= <- <-].
Qed.

(** After a space in [sub_spaces b l] comes a character that is no white
    space. *)
Lemma sub_spaces_single b l l1 c1 c2 l2 :
  sub_spaces b l = l1 ++ c1 :: c2 :: l2 -> Re.is_space c1 = true -> Re.is_space c2 = false.
Proof.
  revert b l1. induction l as [|x l IH]; intros b l1; cbn [sub_spaces].
  { by destruct l1. }
  destruct (Re.is_space x) eqn:Hx.
  - destruct b; [apply IH|].
    destruct l1 as [|y l1]; cbn [app].
    + intros [= <- Hr] _. by apply sub_spaces_head in Hr.
    + intros [= <- Hr]. exact (IH _ _ Hr).
  - destruct l1 as [|y l1]; cbn [app].
    + intros [= <- Hr]. congruence.
    + intros [= <- Hr]. exact (IH _ _ Hr).
Qed.

Lemma sub_spaces_fixed b l :
  (forall c, c ∈ l -> Re.is_space c = true -> c = " "%char) ->
  (forall l1 c1 c2 l2, l = l1 ++ c1 :: c2 :: l2 -> Re.is_space c1 = true -> Re.is_space c2 = false) ->
  (b = true -> forall c r, l = c :: r -> Re.is_space c = false) ->
  sub_spaces b l = l.
Proof.
  revert b. induction l as [|x l IH]; intros b Hchars Hsingle Hhead; cbn [sub_spaces]; [done|].
  assert (forall c, c ∈ l -> Re.is_space c = true -> c = " "%char) as Hchars'.
  { intros c Hin. apply Hchars. by right. }
  assert (forall l1 c1 c2 l2, l = l1 ++ c1 :: c2 :: l2 ->
            Re.is_space c1 = true -> Re.is_space c2 = false) as Hsingle'.
  { intros l1 c1 c2 l2 ->. exact (Hsingle (x :: l1) c1 c2 l2 eq_refl). }
  destruct (Re.is_space x) eqn:Hx.
  - destruct b; [by rewrite (Hhead eq_refl x l eq_refl) in Hx|].
    rewrite <- (Hchars x) by (done || left). f_equal. apply IH; try done.
    intros _ c r ->. by apply (Hsingle [] x c r).
  - f_equal. apply IH; done.
Qed.

End NormalizeSpace.
Section NormalForm.
Import Indexer.

Lemma filter_white pre :
  Forall (fun c => Re.is_space c = true) pre ->
  List.filter (fun c : ascii => negb (Re.is_space c)) pre = [].
Proof. induction 1 as [|c pre Hc _ IH]; cbn; [done|]. by rewrite Hc. Qed.

Lemma normalize_space_empty : normalize_space "" = "".
Proof. reflexivity. Qed.

(** The text of a cache entry is in normal form: its only white space is
    single spaces between other characters, and the characters that are no
    white space are those of the source text, in order; normalizing again
    changes nothing. *)
Lemma normalize_space_spec (s : string) :
  let t := list_ascii_of_string (normalize_space s) in
  (forall c, c ∈ t -> Re.is_space c = true -> c = " "%char) /\
  (forall c r, t = c :: r -> Re.is_space c = false) /\
  (forall r c, t = r ++ [c] -> Re.is_space c = false) /\
  (forall l1 c1 c2 l2, t = l1 ++ c1 :: c2 :: l2 ->
     Re.is_space c1 = true -> Re.is_space c2 = false) /\
  List.filter (fun c => negb (Re.is_space c)) t
  = List.filter (fun c => negb (Re.is_space c)) (list_ascii_of_string s) /\
  normalize_space (normalize_space s) = normalize_space s.
Proof.
  intros t. unfold normalize_space in t. subst t.
  rewrite list_ascii_of_string_of_list_ascii.
  set (l := list_ascii_of_string s).
  destruct (strip_split (sub_spaces false l)) as (pre & post & Hsplit & Hpre & Hpost).
  set (t := strip (sub_spaces false l)) in *.
  assert (Hchars : forall c, c ∈ t -> Re.is_space c = true -> c = " "%char).
  { intros c Hin. apply (sub_spaces_chars false l). rewrite Hsplit.
    apply elem_of_app. right. apply elem_of_app. by left. }
  assert (Hsingle : forall l1 c1 c2 l2, t = l1 ++ c1 :: c2 :: l2 ->
                      Re.is_space c1 = true -> Re.is_space c2 = false).
  { intros l1 c1 c2 l2 Ht. apply (sub_spaces_single false l (pre ++ l1) c1 c2 (l2 ++ post)).
    rewrite Hsplit, Ht. by rewrite <- !app_assoc. }
  split_and!.
  - exact Hchars.
  - apply strip_first.
  - apply strip_last.
  - exact Hsingle.
  - rewrite <- (sub_spaces_keeps false l). rewrite Hsplit.
    rewrite !List.filter_app, (filter_white pre Hpre), (filter_white post Hpost).
    by rewrite app_nil_r.
  - unfold normalize_space. fold l. fold t. rewrite list_ascii_of_string_of_list_ascii.
    f_equal. rewrite sub_spaces_fixed; [|done|done|done].
    apply strip_fixed; [apply strip_first|apply strip_last].
Qed.

End NormalForm.
(** The text of a cache entry.  [REGEX_TEXT_SPACE_CONVERTER.sub(' ',
    text).strip()], through which every extracted text goes, gives a text
    whose only white space is the space character, that neither starts nor
    ends with one, and in which no two follow each other; the characters
    that are no white space are those of the source, in the same order;
    and a text of that form is left as it is. *)
Theorem normalize_space_normal_form (s : string) :
  let t := list_ascii_of_string (Indexer.normalize_space s) in
  (forall c, c ∈ t -> Re.is_space c = true -> c = " "%char) /\
  (forall c r, t = c :: r -> Re.is_space c = false) /\
  (forall r c, t = r ++ [c] -> Re.is_space c = false) /\
  (forall l1 c1 c2 l2, t = l1 ++ c1 :: c2 :: l2 ->
     Re.is_space c1 = true -> Re.is_space c2 = false) /\
  List.filter (fun c => negb (Re.is_space c)) t
  = List.filter (fun c => negb (Re.is_space c)) (list_ascii_of_string s) /\
  Indexer.normalize_space (Indexer.normalize_space s) = Indexer.normalize_space s.
Proof. apply normalize_space_spec. Qed.

(** A text with tabs, line breaks and a no-break space. *)
Example normalize_space_sample :
  Indexer.normalize_space
    (String "009" (" Full" +:+ String "010" (String "013" ("text " +:+ String "160" "cache  "))))
  = "Full text cache".
Proof. reflexivity. Qed.

Section MonadFacts.
Import Indexer.
Context {S A B : Type}.

Lemma bind_Some (m : M S A) (k : A -> M S B) s r s' :
  bind m k s = Some (r, s') ->
  (exists a s1, m s = Some (Return a, s1) /\ k a s1 = Some (r, s')) \/
  (exists e, m s = Some (Raise e, s') /\ r = Raise e).
Proof.
  unfold bind. destruct (m s) as [[[a|e] s1]|]; [|intros [= <- <-]|done].
  - intros Hk. left. by exists a, s1.
  - right. by exists e.
Qed.

End MonadFacts.

Section ExtractionFacts.
Import Indexer PyDict.
Context {bytes : Type} `{Externals bytes}.
Variable world : World bytes.
Variable data_dir : string.

(** What the extraction of a page returns has been through
    [normalize_space]. *)
Lemma for_fh_normal gfc gfd self item path fh mime ftu t ftu' :
  for_fh gfc gfd self item path fh mime ftu = Some (Return (Some t), ftu') ->
  exists s, t = normalize_space s.
Proof.
  unfold for_fh. destruct mime as [m|]; [|done].
  destruct (negb (truthy m)); [done|].
  destruct (mime_is_html (Some m)).
  - unfold _get_fulltext_cache_html.
    destruct (iter_meta_refresh fh) as [refreshes|e]; [|done].
    intros [(a & s1 & _ & Hk)|(e & _ & ?)]%bind_Some; [|done].
    destruct a as [results [|]].
    + destruct results; [done|]. injection Hk as <- _. by eexists.
    + apply bind_Some in Hk as [(a & s2 & _ & Hk)|(e & _ & ?)]; [|done].
      injection Hk as <- _. by eexists.
  - destruct (String.prefix "text/" m); [|done].
    unfold _get_fulltext_cache_txt. destruct (decode fh _) as [text|e]; [|done].
    intros [= <- _]. by eexists.
Qed.

Lemma get_fulltext_cache_normal fuel self item path ftu t ftu' :
  _get_fulltext_cache world data_dir fuel self item path ftu = Some (Return (Some t), ftu') ->
  exists s, t = normalize_space s.
Proof.
  destruct fuel as [|fuel]; [done|]. cbn [_get_fulltext_cache].
  destruct (_open_file world data_dir item path) as [[fh|]|e]; [|done|done].
  apply for_fh_normal.
Qed.

End ExtractionFacts.

Section HandleFacts.
Import Indexer PyDict.
Context {bytes : Type} `{Externals bytes}.
Variable world : World bytes.
Variable data_dir : string.
Variable self : Generator.
Variable item : FulltextCacheItem.
Implicit Types (st : cache_state) (path : string).

Lemma cached_entry_spec st r st' :
  cached_entry item st = Some (r, st') ->
  st' = st /\
  match r with
  | Return cached => get (id item) (fulltext st) = Some cached
  | Raise e => get (id item) (fulltext st) = None
  end.
Proof.
  unfold cached_entry. destruct (get (id item) (fulltext st)); by intros [= <- <-].
Qed.

Lemma report_update_spec has_update st r st' :
  report_update item has_update st = Some (r, st') ->
  fulltext st' = fulltext st /\ files_to_update st' = files_to_update st /\
  (r = Return true /\
   (has_update = true /\ events st' = events st \/
    has_update = false /\ exists what, events st' = events st ++ [update_event item what])
   \/ (exists e, r = Raise e) /\ events st' = events st /\
      get (id item) (fulltext st) = None).
Proof.
  unfold report_update. destruct has_update.
  - intros [= <- <-]. split_and!; try done. left. split; [done|]. by left.
  - intros [(cached & s1 & Hc & Hk)|(e & Hc & ->)]%bind_Some.
    + apply cached_entry_spec in Hc as [-> _]. injection Hk as <- <-.
      split_and!; try done. left. split; [done|]. right. split; [done|]. by eexists.
    + apply cached_entry_spec in Hc as [-> Hnone]. split_and!; try done. right. eauto.
Qed.

(** *** Properties of the cache that every step keeps

    [P] is a property of [book.fulltext] kept by deleting a path of the
    record at hand and by storing a normalized text for a path of it. *)
Section Kept.
Variable P : dict (dict string) -> Prop.
Hypothesis Hdel : forall ft cached path,
  P ft -> get (id item) ft = Some cached -> P (set (id item) (del path cached) ft).
Hypothesis Hstore : forall ft cached path s,
  P ft -> get (id item) ft = Some cached ->
  P (set (id item) (set path (normalize_space s) cached) ft).

Lemma del_cached_kept path st r st' :
  P (fulltext st) -> del_cached item path st = Some (r, st') ->
  P (fulltext st') /\ files_to_update st' = files_to_update st /\ events st' = events st.
Proof.
  intros HP [(cached & s1 & Hc & Hk)|(e & Hc & ->)]%bind_Some.
  - apply cached_entry_spec in Hc as [-> Hget].
    destruct (contains path cached); injection Hk as <- <-; [|done].
    split; [|done]. by apply Hdel.
  - by apply cached_entry_spec in Hc as [-> _].
Qed.

Lemma drop_cached_kept path hu st r st' :
  P (fulltext st) -> drop_cached item path hu st = Some (r, st') ->
  P (fulltext st') /\ files_to_update st' = files_to_update st.
Proof.
  intros HP [(cached & s1 & Hc & Hk)|(e & Hc & ->)]%bind_Some.
  2:{ by apply cached_entry_spec in Hc as [-> _]. }
  apply cached_entry_spec in Hc as [-> Hget].
  destruct (contains path cached); [|by injection Hk as <- <-].
  apply bind_Some in Hk as [(hu' & s2 & Hr & Hk)|(e & Hr & ->)].
  2:{ apply report_update_spec in Hr as (-> & -> & _). done. }
  apply report_update_spec in Hr as (Hft & Hftu & _).
  apply bind_Some in Hk as [(u & s3 & Hd & Hk)|(e & Hd & ->)].
  - injection Hk as <- <-. apply del_cached_kept in Hd as (HP' & -> & _); [|by rewrite Hft].
    by rewrite Hftu.
  - apply del_cached_kept in Hd as (HP' & -> & _); [|by rewrite Hft]. by rewrite Hftu.
Qed.

Lemma store_cached_kept path s st r st' :
  P (fulltext st) -> store_cached item path (normalize_space s) st = Some (r, st') ->
  P (fulltext st') /\ files_to_update st' = files_to_update st /\ events st' = events st.
Proof.
  intros HP [(cached & s1 & Hc & Hk)|(e & Hc & ->)]%bind_Some.
  - apply cached_entry_spec in Hc as [-> Hget]. injection Hk as <- <-.
    split; [|done]. by apply Hstore.
  - by apply cached_entry_spec in Hc as [-> _].
Qed.

(** The [try] statement never raises: it gives a normalized text, and
    the frontier as the extraction left it. *)
Lemma extract_spec fuel path st r st' :
  extract world data_dir self item fuel path st = Some (r, st') ->
  fulltext st' = fulltext st /\
  exists s, r = Return (normalize_space s) /\
  exists res,
    _get_fulltext_cache world data_dir fuel self item path (files_to_update st)
    = Some (res, files_to_update st') /\
    match res with
    | Return _ => events st' = events st
    | Raise _ => events st' = events st ++ [failure_event item path] /\ normalize_space s = ""
    end.
Proof.
  unfold extract.
  destruct (_get_fulltext_cache world data_dir fuel self item path (files_to_update st))
    as [[[fulltext|e] ftu]|] eqn:Hx; [| |done].
  - intros [= <- <-]. split; [done|].
    destruct fulltext as [text|].
    + destruct (get_fulltext_cache_normal _ _ _ _ _ _ _ _ _ Hx) as [s ->].
      destruct (truthy (normalize_space s)).
      * exists s. split; [done|]. by eexists.
      * exists "". split; [done|]. by eexists.
    + exists "". split; [done|]. by eexists.
  - intros [= <- <-]. split; [done|]. exists "". split; [done|]. by eexists.
Qed.

Lemma handle_path_kept fuel path hu st r st' :
  P (fulltext st) ->
  handle_path world data_dir self item fuel path hu st = Some (r, st') ->
  P (fulltext st').
Proof.
  intros HP. unfold handle_path.
  destruct (Frontier.get (files_to_update st) path) as [[|]|]; [| |by intros [= <- <-]].
  2:{ intros Hd. by apply drop_cached_kept in Hd as [? _]. }
  destruct (_get_mtime world data_dir item path) as [[mtime|]|e]; [| |by intros [= <- <-]].
  2:{ intros Hd. by apply drop_cached_kept in Hd as [? _]. }
  intros [(cached & s1 & Hc & Hk)|(e & Hc & ->)]%bind_Some.
  2:{ by apply cached_entry_spec in Hc as [-> _]. }
  apply cached_entry_spec in Hc as [-> Hget]. cbn [fulltext set_frontier] in *.
  destruct (contains path cached && (mtime <=? cache_last_modified self)%Z);
    [by injection Hk as <- <-|].
  apply bind_Some in Hk as [(hu' & s2 & Hr & Hk)|(e & Hr & ->)].
  2:{ apply report_update_spec in Hr as (-> & _). done. }
  apply report_update_spec in Hr as (Hft & _).
  apply bind_Some in Hk as [(text & s3 & Hx & Hk)|(e & Hx & ->)].
  2:{ apply extract_spec in Hx as (-> & _). by rewrite Hft. }
  apply extract_spec in Hx as (Hft3 & s & [= ->] & _).
  apply bind_Some in Hk as [(u & s4 & Hs & Hk)|(e & Hs & ->)].
  - injection Hk as <- <-. apply store_cached_kept in Hs as [? _]; [done|].
    by rewrite Hft3, Hft.
  - apply store_cached_kept in Hs as [? _]; [done|]. by rewrite Hft3, Hft.
Qed.

Lemma handle_loop_kept fuel i hu st r st' :
  P (fulltext st) ->
  handle_loop world data_dir self item fuel i hu st = Some (r, st') ->
  P (fulltext st').
Proof.
  revert i hu st. induction fuel as [|fuel IH]; intros i hu st HP; cbn [handle_loop]; [done|].
  destruct (Frontier.__next__ (files_to_update st) i) as [[path i']|]; [|by intros [= <- <-]].
  intros [(hu' & s1 & Hp & Hk)|(e & Hp & ->)]%bind_Some.
  - apply handle_path_kept in Hp; [|done]. by apply IH in Hk.
  - by apply handle_path_kept in Hp.
Qed.

End Kept.
End HandleFacts.
Section RecordFacts.
Import Indexer PyDict.
Context {bytes : Type} `{Externals bytes} `{Tree.Json}.
Variable world : World bytes.
Implicit Types (st : cache_state) (ft : dict (dict string)).

Lemma mark_pending_fulltext paths st :
  fulltext (mark_pending paths st) = fulltext st /\
  events (mark_pending paths st) = events st.
Proof. done. Qed.

(** [_collect_files_to_update] yields no event; it creates the empty entry
    of a record that has none and changes no other entry. *)
Lemma collect_spec data_dir self item st r st' :
  _collect_files_to_update world data_dir self item st = Some (r, st') ->
  events st' = events st /\
  match get (id item) (fulltext st) with
  | None => fulltext st' = set (id item) [] (fulltext st)
  | Some _ => fulltext st' = fulltext st
  end.
Proof.
  unfold _collect_files_to_update.
  destruct (get (id item) (fulltext st)) as [cached|].
  - assert (forall x,
              match get_index_paths world data_dir (index item) with
              | Raise e => Some (Raise e, st)
              | Return paths =>
                  Some (Return tt, mark_pending (keys cached) (mark_pending paths st))
              end = Some x -> events x.2 = events st /\ fulltext x.2 = fulltext st) as Hc.
    { intros x. destruct (get_index_paths _ _ _); by intros [= <-]. }
    destruct (is_archive (indexfile item)).
    + destruct (stat_mtime world (indexfile item)) as [mtime|]; [|by intros [= <- <-]].
      destruct (mtime <=? cache_last_modified self)%Z; [by intros [= <- <-]|].
      intros Hx. by apply Hc in Hx.
    + intros Hx. by apply Hc in Hx.
  - destruct (get_index_paths _ _ _); by intros [= <- <-].
Qed.

Section KeptByRecords.
Variable P : dict (dict string) -> Prop.
Hypothesis Hrem : forall ft id, P ft -> P (del id ft).
Hypothesis Hnew : forall ft id, P ft -> get id ft = None -> P (set id [] ft).
Hypothesis Hdel : forall ft id cached path,
  P ft -> get id ft = Some cached -> P (set id (del path cached) ft).
Hypothesis Hstore : forall ft id cached path s,
  P ft -> get id ft = Some cached -> P (set id (set path (normalize_space s) cached) ft).

Lemma remove_entry_kept id st : P (fulltext st) -> P (fulltext (remove_entry id st)).
Proof. unfold remove_entry. destruct (contains id (fulltext st)); cbn; auto. Qed.

Lemma remove_stale_kept meta_ st : P (fulltext st) -> P (fulltext (remove_stale meta_ st)).
Proof.
  unfold remove_stale. generalize (keys (fulltext st)). intros ids. revert st.
  induction ids as [|id ids IH]; intros st HP; cbn; [done|].
  apply IH. destruct (contains id meta_); [done|]. by apply remove_entry_kept.
Qed.

Lemma index_record_kept fuel data_dir self id meta st r st' :
  P (fulltext st) ->
  index_record world fuel data_dir self id meta st = Some (r, st') ->
  P (fulltext st').
Proof.
  intros HP. unfold index_record.
  destruct (get "index" meta) as [index|]; [|intros [= <- <-]; by apply remove_entry_kept].
  destruct (negb (truthy index)); [intros [= <- <-]; by apply remove_entry_kept|].
  destruct (negb (path_exists world _)); [intros [= <- <-]; by apply remove_entry_kept|].
  set (item := mkItem id meta index _).
  intros [(u & s1 & Hc & Hk)|(e & Hc & ->)]%bind_Some.
  - apply collect_spec in Hc as [_ Hc]. cbn [fulltext set_frontier] in Hc.
    eapply (handle_loop_kept world data_dir self item P); [..|exact Hk].
    + intros. by apply Hdel.
    + intros. by apply Hstore.
    + destruct (get (Indexer.id item) (fulltext st)) eqn:E; rewrite Hc; [done|by apply Hnew].
  - apply collect_spec in Hc as [_ Hc]. cbn [fulltext set_frontier] in Hc.
    destruct (get (Indexer.id item) (fulltext st)) eqn:E; rewrite Hc; [done|by apply Hnew].
Qed.

Lemma index_records_kept fuel data_dir self records st r st' :
  P (fulltext st) ->
  index_records world fuel data_dir self records st = Some (r, st') ->
  P (fulltext st').
Proof.
  revert st. induction records as [|[id meta] records IH]; intros st HP; cbn [index_records].
  - by intros [= <- <-].
  - intros [(u & s1 & Hc & Hk)|(e & Hc & ->)]%bind_Some.
    + apply index_record_kept in Hc; [|done]. by apply IH in Hk.
    + by apply index_record_kept in Hc.
Qed.

End KeptByRecords.
End RecordFacts.
Section LoadFacts.
Import Indexer PyDict.
Context `{Tree.Json}.

Lemma traverse_cons {A B} (f : A -> option B) a l :
  traverse f (a :: l)
  = match f a, traverse f l with
    | Some b, Some bs => Some (b :: bs)
    | _, _ => None
    end.
Proof. reflexivity. Qed.

Lemma traverse_keys {B} (f : Tree.json -> option B) members data :
  traverse (member_of f) members = Some data -> keys data = keys members.
Proof.
  revert data. induction members as [|[k j] members IH]; intros data.
  - by intros [= <-].
  - rewrite traverse_cons. unfold member_of at 1. cbn [fst snd].
    destruct (f j) as [b|]; [|done].
    destruct (traverse (member_of f) members) as [bs|]; [|done].
    intros [= <-]. cbn. f_equal. by apply IH.
Qed.

Lemma load_files_wf fs files data d :
  wf data -> Tree.load_files fs files data = Tree.Ok d -> wf d.
Proof.
  revert data. induction files as [|file files IH]; intros data Hwf; cbn.
  - by intros [= <-].
  - destruct (Tree.load_tree_file fs file) as [j|e]; [|done].
    destruct j; cbn; try done. apply IH. by apply dict_wf_update.
Qed.

(** What is loaded from the tree files has no repeated id. *)
Lemma load_typed_wf {B} (f : Tree.json -> option B) book fs name data :
  load_typed f book fs name = Return data -> wf data.
Proof.
  unfold load_typed, Tree.load_tree_files.
  destruct (Tree.load_files fs _ []) as [members|e] eqn:Hl; [|done].
  destruct (traverse (member_of f) members) as [d|] eqn:Ht; [|done].
  intros [= <-]. unfold wf. rewrite (traverse_keys _ _ _ Ht).
  eapply load_files_wf; [|exact Hl]. constructor.
Qed.

(** The fields of the book that loading does not set. *)
Definition same_places (book book' : Tree.Book) : Prop :=
  Tree.tree_dir book' = Tree.tree_dir book /\ Tree.data_dir book' = Tree.data_dir book /\
  Tree.SAVE_META_THRESHOLD book' = Tree.SAVE_META_THRESHOLD book /\
  Tree.SAVE_TOC_THRESHOLD book' = Tree.SAVE_TOC_THRESHOLD book /\
  Tree.SAVE_FULLTEXT_THRESHOLD book' = Tree.SAVE_FULLTEXT_THRESHOLD book.

Lemma iter_tree_files_from_places fuel book book' fs name i :
  Tree.tree_dir book = Tree.tree_dir book' ->
  Tree.iter_tree_files_from fuel book fs name i = Tree.iter_tree_files_from fuel book' fs name i.
Proof.
  intros Hd. revert i. induction fuel as [|fuel IH]; intros i; cbn; [done|].
  unfold Tree.get_tree_file. rewrite Hd. destruct (Tree.exists_ fs _); [|done]. by rewrite IH.
Qed.

(** Loading reads the book's tree directory only. *)
Lemma load_typed_places {B} (f : Tree.json -> option B) book book' fs name :
  Tree.tree_dir book = Tree.tree_dir book' ->
  load_typed f book fs name = load_typed f book' fs name.
Proof.
  intros Hd. unfold load_typed, Tree.load_tree_files, Tree.iter_tree_files.
  by rewrite (iter_tree_files_from_places _ book book').
Qed.

Lemma load_meta_files_spec book fs book' :
  load_meta_files book fs = Return book' ->
  same_places book book' /\ Tree.toc book' = Tree.toc book /\
  Tree.fulltext book' = Tree.fulltext book /\
  exists meta_, Tree.meta book' = Some meta_ /\
    match Tree.meta book with
    | Some m => meta_ = m
    | None => load_typed attrs_of_json book fs "meta" = Return meta_
    end.
Proof.
  unfold load_meta_files, same_places. destruct (Tree.meta book) as [m|] eqn:Hm.
  - intros [= <-]. split_and!; try done. by exists m.
  - destruct (load_typed attrs_of_json book fs "meta") as [data|e]; [|done].
    intros [= <-]. cbn. split_and!; try done. by exists data.
Qed.

Lemma load_toc_files_spec book fs book' :
  load_toc_files book fs = Return book' ->
  same_places book book' /\ Tree.meta book' = Tree.meta book /\
  Tree.fulltext book' = Tree.fulltext book.
Proof.
  unfold load_toc_files, same_places. destruct (Tree.toc book) as [m|] eqn:Hm.
  - by intros [= <-].
  - destruct (load_typed children_of_json book fs "toc") as [data|e]; [|done].
    by intros [= <-].
Qed.

Lemma load_fulltext_files_spec book fs book' :
  load_fulltext_files book fs = Return book' ->
  same_places book book' /\ Tree.meta book' = Tree.meta book /\
  exists orig, Tree.fulltext book' = Some orig /\
    match Tree.fulltext book with
    | Some f => orig = f
    | None => load_typed entry_of_json book fs "fulltext" = Return orig
    end.
Proof.
  unfold load_fulltext_files, same_places. destruct (Tree.fulltext book) as [m|] eqn:Hm.
  - intros [= <-]. split_and!; try done. by exists m.
  - destruct (load_typed entry_of_json book fs "fulltext") as [data|e]; [|done].
    intros [= <-]. cbn. split_and!; try done. by exists data.
Qed.

End LoadFacts.

Section RunFacts.
Import Indexer PyDict.
Context {bytes : Type} `{Externals bytes} `{Tree.Json}.
Variable world : World bytes.

(** The shape of a run that returns: the mappings are loaded (or were
    there), the stale entries removed, the records indexed in the order of
    [book.meta], and the shards saved when the mapping has changed, touched
    otherwise. *)
Lemma run_returns fuel now book fs inclusive_frames evs book' fs' :
  run world fuel now book fs inclusive_frames = Some (evs, Return (book', fs')) ->
  exists book1 meta_ orig st',
    same_places book book1 /\
    Tree.meta book1 = Some meta_ /\ Tree.fulltext book1 = Some orig /\
    meta_before book fs = Return meta_ /\
    fulltext_before book fs = Return orig /\
    index_records world fuel (Tree.data_dir book)
      (mkGenerator inclusive_frames (newest_fulltext_file book fs)) meta_
      (remove_stale meta_
         (mkCache orig Frontier.__init__ [mkInfo info "Generating fulltext cache..."]))
    = Some (Return tt, st') /\
    book' = set_book_fulltext book1 (fulltext st') /\
    evs = events st' /\
    (if fulltext_differs (fulltext st') orig
     then Tree.save_fulltext_files now book' (fulltext st') fs = Tree.Ok fs'
     else fs' = fold_left (touch now) (Tree.iter_fulltext_files book' fs) fs).
Proof.
  unfold run.
  destruct (load_meta_files book fs) as [b1|e] eqn:H1; [|done].
  destruct (load_toc_files b1 fs) as [b2|e] eqn:H2; [|done].
  destruct (load_fulltext_files b2 fs) as [b3|e] eqn:H3; [|done].
  apply load_meta_files_spec in H1 as (Hp1 & Ht1 & Hf1 & meta_ & Hm1 & Hmeta).
  apply load_toc_files_spec in H2 as (Hp2 & Hm2 & Hf2).
  pose proof H3 as H3'.
  apply load_fulltext_files_spec in H3 as (Hp3 & Hm3 & orig & Hf3 & Horig).
  assert (same_places book b3) as Hp.
  { unfold same_places in *. destruct Hp1 as (?&?&?&?&?), Hp2 as (?&?&?&?&?), Hp3 as (?&?&?&?&?).
    split_and!; congruence. }
  assert (Tree.meta b3 = Some meta_) as Hm by congruence.
  rewrite Hm, Hf3. cbv beta iota delta [default from_option Datatypes.id].
  destruct Hp as (Hp_tree & Hp_data & Hp_rest). rewrite Hp_data.
  match goal with
  | |- context [index_records ?a1 ?a2 ?a3 ?a4 ?a5 ?a6] =>
      destruct (index_records a1 a2 a3 a4 a5 a6) as [[[u|e] st']|] eqn:Hi; [|done|done]
  end.
  destruct u. intros H4.
  exists b3, meta_, orig, st'. revert H4.
  assert (meta_before book fs = Return meta_) as Hmbefore.
  { unfold meta_before. destruct (Tree.meta book); by subst. }
  assert (fulltext_before book fs = Return orig) as Hbefore.
  { unfold fulltext_before. rewrite Hf2, Hf1 in Horig.
    destruct (Tree.fulltext book); [by subst|].
    rewrite <- Horig. apply load_typed_places.
    destruct Hp1 as (?&_), Hp2 as (?&_). congruence. }
  destruct (fulltext_differs (fulltext st') orig).
  - destruct (Tree.save_fulltext_files now _ (fulltext st') fs) as [fs1|e] eqn:Hs; [|done].
    intros [= <- <- <-]. split_and!; try done.
  - intros [= <- <- <-]. split_and!; try done.
Qed.

End RunFacts.
Section DictElements.
Import PyDict.
Context {V : Type}.
Implicit Types (d : dict V).

Lemma dict_get_elem d k v : get k d = Some v -> (k, v) ∈ d.
Proof.
  induction d as [|[k' v'] d IH]; cbn; [done|].
  destruct (String.eqb_spec k k') as [->|_]; [intros [= ->]; left|right; auto].
Qed.

Lemma dict_elem_set d k v x : x ∈ set k v d -> x = (k, v) \/ x ∈ d.
Proof.
  induction d as [|[k' v'] d IH]; cbn.
  - intros ->%list_elem_of_singleton. by left.
  - destruct (String.eqb k k').
    + intros [->|Hin]%elem_of_cons; [by left|right; by right].
    + intros [->|Hin]%elem_of_cons; [right; left|].
      destruct (IH Hin) as [->|?]; [by left|right; by right].
Qed.

Lemma dict_elem_del d k x : x ∈ del k d -> x ∈ d.
Proof.
  induction d as [|[k' v'] d IH]; cbn; [done|].
  destruct (String.eqb k k'); [by right|].
  intros [->|Hin]%elem_of_cons; [left|right; auto].
Qed.

End DictElements.

Section NormalizedCache.
Import Indexer PyDict.

Lemma texts_normalized_del ft id : texts_normalized ft -> texts_normalized (del id ft).
Proof. intros Hn i e p t Hin. apply (Hn i e p t). by apply dict_elem_del in Hin. Qed.

Lemma texts_normalized_set ft id entry :
  texts_normalized ft ->
  (forall path text, (path, text) ∈ entry -> normalize_space text = text) ->
  texts_normalized (set id entry ft).
Proof.
  intros Hn He i e p t Hin. apply dict_elem_set in Hin as [[= -> ->]|Hin]; [apply He|].
  by apply (Hn i e p t).
Qed.

End NormalizedCache.

(** The texts of the cache stay normalized.  When every text of the
    mapping a run starts from is as [normalize_space] leaves it, so is every
    text of the mapping it ends with: an entry is only removed, created
    empty, relieved of a path, or given the text of an extraction, and that
    text has gone through [normalize_space] (or is empty, after a failure
    or for a file that has no text). *)
Theorem run_keeps_texts_normalized {bytes : Type} (E : Indexer.Externals bytes) (J : Tree.Json)
    (world : Indexer.World bytes) (fuel : nat) (now : Z) (book book' : Tree.Book)
    (fs fs' : gmap string Tree.node) (inclusive_frames : bool) (evs : list Indexer.Info)
    (orig : PyDict.dict (PyDict.dict string)) :
  Indexer.run world fuel now book fs inclusive_frames
  = Some (evs, Indexer.Return (book', fs')) ->
  fulltext_before book fs = Indexer.Return orig ->
  texts_normalized orig ->
  exists ft', Tree.fulltext book' = Some ft' /\ texts_normalized ft'.
Proof.
  intros Hrun Horig Hnorm.
  apply run_returns in Hrun
    as (book1 & meta_ & orig' & st' & _ & _ & _ & _ & Horig' & Hrec & -> & _).
  rewrite Horig in Horig'. injection Horig' as <-.
  exists (Indexer.fulltext st'). split; [done|].
  eapply (index_records_kept world texts_normalized); [..|exact Hrec].
  - intros ft id. apply texts_normalized_del.
  - intros ft id Hn _. apply texts_normalized_set; [done|]. by intros p t ?%elem_of_nil.
  - intros ft id cached path Hn Hget. apply texts_normalized_set; [done|].
    intros p t Hin. apply dict_elem_del in Hin.
    apply (Hn id cached p t); [by apply dict_get_elem|done].
  - intros ft id cached path s Hn Hget. apply texts_normalized_set; [done|].
    intros p t Hin. apply dict_elem_set in Hin as [[= -> ->]|Hin].
    + apply normalize_space_spec.
    + apply (Hn id cached p t); [by apply dict_get_elem|done].
  - apply remove_stale_kept; [|done]. intros ft id. apply texts_normalized_del.
Qed.
Section TouchFacts.
Import Indexer.
Implicit Types (fs : gmap string Tree.node) (file path : string).

Lemma touch_alter now fs file : touch now fs file = alter (retime now) file fs.
Proof.
  unfold touch. apply map_eq. intros path.
  destruct (decide (path = file)) as [->|Hne].
  - rewrite lookup_alter_eq. destruct (fs !! file) as [[t m|m]|] eqn:E; rewrite ?E; cbn;
      by rewrite ?lookup_insert_eq.
  - rewrite lookup_alter_ne by done.
    destruct (fs !! file) as [[t m|m]|]; by rewrite ?lookup_insert_ne.
Qed.

Lemma fold_touch_lookup now files fs path :
  fold_left (touch now) files fs !! path
  = if bool_decide (path ∈ files) then retime now <$> fs !! path else fs !! path.
Proof.
  revert fs. induction files as [|file files IH]; intros fs; cbn [fold_left]; [done|].
  rewrite IH, touch_alter.
  destruct (decide (path = file)) as [->|Hne].
  - rewrite lookup_alter_eq. rewrite (bool_decide_eq_true_2 (file ∈ file :: files)) by left.
    case_bool_decide; [|done]. destruct (fs !! file) as [[t m|m]|]; done.
  - rewrite lookup_alter_ne by done.
    destruct (bool_decide (path ∈ files)) eqn:E.
    + apply bool_decide_eq_true_1 in E.
      by rewrite (bool_decide_eq_true_2 (path ∈ file :: files)) by (by right).
    + apply bool_decide_eq_false_1 in E.
      rewrite (bool_decide_eq_false_2 (path ∈ file :: files)); [done|].
      intros [?|?]%elem_of_cons; done.
Qed.

End TouchFacts.

Section RunFiles.
Import Indexer PyDict.
Context {bytes : Type} `{Externals bytes} `{Tree.Json}.
Variable world : World bytes.
Implicit Types (fs : gmap string Tree.node) (book : Tree.Book).

Lemma get_tree_file_places book book' name i :
  Tree.tree_dir book' = Tree.tree_dir book ->
  Tree.get_tree_file book' name i = Tree.get_tree_file book name i.
Proof. intros Hd. unfold Tree.get_tree_file. by rewrite Hd. Qed.

(** Two file systems with the same shards present have the same
    enumeration. *)
Lemma iter_tree_files_same_presence book name fs fs' :
  Tree.relative_name name ->
  (forall i, is_Some (fs' !! Tree.get_tree_file book name i)
             <-> is_Some (fs !! Tree.get_tree_file book name i)) ->
  Tree.iter_tree_files book fs' name = Tree.iter_tree_files book fs name.
Proof.
  intros Hrel Hsame.
  destruct (iter_tree_files_spec book name Hrel fs) as (j & -> & Hnone & Hall).
  destruct (iter_tree_files_spec book name Hrel fs') as (j' & -> & Hnone' & Hall').
  assert (j' = j) as ->; [|done].
  destruct (lt_eq_lt_dec j' j) as [[Hlt|Heq]|Hgt]; [|done|].
  - apply Hall, Hsame in Hlt. rewrite Hnone' in Hlt. by destruct Hlt.
  - apply Hall', Hsame in Hgt. rewrite Hnone in Hgt. by destruct Hgt.
Qed.

Lemma save_fulltext_files_effect now book (data : dict (dict string)) fs fs' :
  Tree.save_fulltext_files now book data fs = Tree.Ok fs' ->
  (forall path, (forall i, path <> Tree.get_tree_file book "fulltext" i) ->
     fs' !! path = fs !! path) /\
  (forall file, file ∈ Tree.iter_fulltext_files book fs' ->
     Tree.node_mtime <$> fs' !! file = Some now).
Proof.
  intros Hsave.
  pose proof (save_files_prunes book "fulltext" relative_fulltext now
                (Tree.SAVE_FULLTEXT_THRESHOLD book) Tree.fulltext_weight
                (Tree.save_fulltext_file now book) (save_fulltext_file_writes now book)
                fulltext_weight_nonneg data fs) as Hp.
  unfold Tree.save_fulltext_files in Hsave. rewrite Hsave in Hp.
  destruct Hp as (k & j & Hkj & Hwritten & Hremoved & Hnone & Hbeyond & Hframe).
  split; [exact Hframe|].
  intros file Hin. unfold Tree.iter_fulltext_files in Hin.
  destruct (iter_tree_files_spec book "fulltext" relative_fulltext fs')
    as (j' & Hiter & Hnone' & Hall').
  rewrite Hiter in Hin. apply list_elem_of_fmap in Hin as (x & -> & Hx).
  apply elem_of_seq in Hx.
  assert (fs' !! Tree.get_tree_file book "fulltext" k = None) as Hgap.
  { destruct (decide (k < j)) as [Hlt|Hge].
    - by destruct (Hremoved k ltac:(lia)).
    - assert (j = k) as -> by lia. by rewrite Hbeyond. }
  assert (x < k) as Hxk.
  { destruct (decide (x < k)); [done|]. destruct (Hall' k ltac:(lia)) as [nd Hnd].
    by rewrite Hgap in Hnd. }
  destruct (Hwritten x Hxk) as [text ->]. done.
Qed.

End RunFiles.

(** What a run does to the tree files.  A run that returns has changed no
    path but full-text shards of the book: the meta and toc files, and every
    other file, are as they were.  And every full-text shard that the
    enumeration finds afterwards carries the time of the run: the shards are
    either saved anew, or, when the mapping has not changed, touched "to
    prevent falsely detected as outdated". *)
Theorem run_writes_fulltext_shards_only {bytes : Type} (E : Indexer.Externals bytes)
    (J : Tree.Json) (world : Indexer.World bytes) (fuel : nat) (now : Z)
    (book book' : Tree.Book) (fs fs' : gmap string Tree.node) (inclusive_frames : bool)
    (evs : list Indexer.Info) :
  Indexer.run world fuel now book fs inclusive_frames
  = Some (evs, Indexer.Return (book', fs')) ->
  Tree.tree_dir book' = Tree.tree_dir book /\
  (forall path, (forall i, path <> Tree.get_tree_file book "fulltext" i) ->
     fs' !! path = fs !! path) /\
  (forall i, fs' !! Tree.get_tree_file book "meta" i = fs !! Tree.get_tree_file book "meta" i /\
             fs' !! Tree.get_tree_file book "toc" i = fs !! Tree.get_tree_file book "toc" i) /\
  (forall file, file ∈ Tree.iter_fulltext_files book' fs' ->
     Tree.node_mtime <$> fs' !! file = Some now).
Proof.
  intros Hrun.
  apply run_returns in Hrun
    as (book1 & meta_ & orig & st' & Hplaces & _ & _ & _ & _ & _ & -> & _ & Hfiles).
  destruct Hplaces as (Hdir & _).
  set (book' := Indexer.set_book_fulltext book1 (Indexer.fulltext st')) in *.
  assert (Tree.tree_dir book' = Tree.tree_dir book) as Hdir' by done.
  assert (Hshard : forall name i,
            Tree.get_tree_file book' name i = Tree.get_tree_file book name i).
  { intros name i. by apply get_tree_file_places. }
  assert ((forall path, (forall i, path <> Tree.get_tree_file book "fulltext" i) ->
               fs' !! path = fs !! path) /\
            (forall file, file ∈ Tree.iter_fulltext_files book' fs' ->
               Tree.node_mtime <$> fs' !! file = Some now)) as [Hframe Htime].
  { destruct (Indexer.fulltext_differs (Indexer.fulltext st') orig).
    - apply save_fulltext_files_effect in Hfiles as [Hframe Htime]. split; [|done].
      intros path Hpath. apply Hframe. intros i. rewrite Hshard. apply Hpath.
    - split.
      + intros path Hpath. rewrite Hfiles, fold_touch_lookup.
        rewrite bool_decide_eq_false_2; [done|]. unfold Tree.iter_fulltext_files.
        destruct (iter_tree_files_spec book' "fulltext" relative_fulltext fs) as (j & -> & _).
        intros (x & -> & _)%list_elem_of_fmap. by apply (Hpath x).
      + intros file Hin. unfold Tree.iter_fulltext_files in *.
        rewrite (iter_tree_files_same_presence book' "fulltext" fs fs' relative_fulltext) in Hin.
        2:{ intros i. rewrite Hfiles, fold_touch_lookup. case_bool_decide; [|done].
            by rewrite fmap_is_Some. }
        rewrite Hfiles, fold_touch_lookup, bool_decide_eq_true_2 by done.
        destruct (iter_tree_files_spec book' "fulltext" relative_fulltext fs)
          as (j & Hiter & _ & Hall).
        rewrite Hiter in Hin. apply list_elem_of_fmap in Hin as (x & -> & Hx).
        apply elem_of_seq in Hx. destruct (Hall x ltac:(lia)) as [[t m|m] ->]; done. }
  split_and!; try done.
  intros i. split; apply Hframe; intros i'.
  - apply (get_tree_file_kinds book "meta" "fulltext" i i' relative_meta relative_fulltext).
    intros s1 s2. discriminate.
  - apply (get_tree_file_kinds book "toc" "fulltext" i i' relative_toc relative_fulltext).
    intros s1 s2. discriminate.
Qed.
Section DomainFacts.
Import Indexer PyDict.
Context {bytes : Type} `{Externals bytes} `{Tree.Json}.
Variable world : World bytes.
Implicit Types (st : cache_state) (ft : dict (dict string)) (k id : string).

Lemma dict_elem_get {V} (d : dict V) k v : wf d -> (k, v) ∈ d -> get k d = Some v.
Proof.
  unfold wf, keys. induction d as [|[k' v'] d IH]; cbn; intros Hnd Hin; [by apply elem_of_nil in Hin|].
  apply NoDup_cons in Hnd as [Hnin Hnd].
  apply elem_of_cons in Hin as [[= -> ->]|Hin]; [by rewrite String.eqb_refl|].
  destruct (String.eqb_spec k k') as [->|_]; [|by apply IH].
  destruct Hnin. apply list_elem_of_fmap. by exists (k', v).
Qed.

Lemma remove_entry_domain id st :
  wf (fulltext st) ->
  wf (fulltext (remove_entry id st)) /\
  forall k, is_Some (get k (fulltext (remove_entry id st)))
            <-> k <> id /\ is_Some (get k (fulltext st)).
Proof.
  intros Hwf. unfold remove_entry. destruct (contains id (fulltext st)) eqn:Hc; cbn.
  - split; [by apply dict_wf_del|]. intros k. rewrite dict_get_del by done.
    destruct (String.eqb_spec k id) as [->|Hne].
    + split; [by intros [? ?]|by intros [? _]].
    + tauto.
  - split; [done|]. intros k. split; [|tauto]. intros Hk. split; [|done].
    intros ->. unfold contains in Hc. destruct Hk as [v Hv]. by rewrite Hv in Hc.
Qed.

Lemma remove_stale_domain meta_ st :
  wf (fulltext st) ->
  wf (fulltext (remove_stale meta_ st)) /\
  forall k, is_Some (get k (fulltext (remove_stale meta_ st)))
            <-> is_Some (get k (fulltext st)) /\ contains k meta_ = true.
Proof.
  intros Hwf. unfold remove_stale.
  assert (forall ids st0, wf (fulltext st0) ->
            let res := fold_left (fun st id => if contains id meta_ then st
                                               else remove_entry id st) ids st0 in
            wf (fulltext res) /\
            forall k, is_Some (get k (fulltext res))
                      <-> is_Some (get k (fulltext st0)) /\
                          (k ∈ ids -> contains k meta_ = true)) as Hgen.
  { induction ids as [|id ids IH]; intros st0 Hwf0; cbn.
    - split; [done|]. intros k. split; [|tauto]. intros ?. split; [done|]. by intros ?%elem_of_nil.
    - destruct (contains id meta_) eqn:Hc.
      + destruct (IH st0 Hwf0) as [Hw Hd]. split; [done|]. intros k. rewrite Hd.
        split; intros [Hk Hin]; (split; [done|]).
        * intros [->|?]%elem_of_cons; auto.
        * intros ?. apply Hin. by right.
      + destruct (remove_entry_domain id st0 Hwf0) as [Hw1 Hd1].
        destruct (IH (remove_entry id st0) Hw1) as [Hw Hd]. split; [done|].
        intros k. rewrite Hd, Hd1. split.
        * intros [[Hne Hk] Hin]. split; [done|]. intros [->|?]%elem_of_cons; [done|auto].
        * intros [Hk Hin]. split_and!; try done.
          -- intros ->. rewrite Hin in Hc; [done|left].
          -- intros ?. apply Hin. by right. }
  destruct (Hgen (keys (fulltext st)) st Hwf) as [Hw Hd]. split; [done|].
  intros k. rewrite Hd. split; intros [Hk Hin]; [|tauto]. split; [done|]. apply Hin.
  apply dict_contains_keys. unfold contains. by destruct Hk as [v ->].
Qed.

Lemma index_record_domain fuel data_dir self id meta st st' :
  wf (fulltext st) ->
  index_record world fuel data_dir self id meta st = Some (Return tt, st') ->
  wf (fulltext st') /\
  forall k, is_Some (get k (fulltext st'))
            <-> if has_index_file world data_dir meta
                then k = id \/ is_Some (get k (fulltext st))
                else k <> id /\ is_Some (get k (fulltext st)).
Proof.
  intros Hwf. unfold index_record, has_index_file.
  destruct (get "index" meta) as [index|];
    [|intros [= <-]; by apply remove_entry_domain].
  destruct (truthy index); cbn [negb andb];
    [|intros [= <-]; by apply remove_entry_domain].
  destruct (path_exists world _); cbn [negb];
    [|intros [= <-]; by apply remove_entry_domain].
  set (item := mkItem id meta index _).
  intros [(u & s1 & Hc & Hk)|(e & _ & ?)]%bind_Some; [|done].
  apply collect_spec in Hc as [_ Hc]. cbn [fulltext set_frontier Indexer.id item] in Hc.
  set (P := fun ft => wf ft /\ is_Some (get id ft) /\
                      forall k, is_Some (get k ft) <-> k = id \/ is_Some (get k (fulltext st))).
  assert (P (fulltext s1)) as HP1.
  { unfold P. destruct (get id (fulltext st)) as [cached|] eqn:E; rewrite Hc.
    - split; [done|]. split; [by rewrite E|]. intros k. split; [tauto|].
      intros [->|?]; [by rewrite E|done].
    - split; [by apply dict_wf_set|]. rewrite dict_get_set, String.eqb_refl. split; [done|].
      intros k. rewrite dict_get_set. destruct (String.eqb_spec k id) as [->|Hne]; [|tauto].
      split; [by left|done]. }
  assert (forall ft x, P ft -> P (set id x ft)) as Hset.
  { intros ft x (Hw & Hid & Hdom). split; [by apply dict_wf_set|].
    rewrite dict_get_set, String.eqb_refl. split; [done|].
    intros k. rewrite dict_get_set. destruct (String.eqb_spec k id) as [->|Hne].
    - split; [by left|done].
    - apply Hdom. }
  destruct (handle_loop_kept world data_dir self item P) with (fuel := fuel) (i := 0)
    (hu := false) (st := s1) (r := Return tt) (st' := st') as (Hw & _ & Hd); try done.
  - intros ft cached path HP _. by apply Hset.
  - intros ft cached path s HP _. by apply Hset.
Qed.

Lemma index_records_domain fuel data_dir self records st st' :
  wf (fulltext st) -> wf records ->
  index_records world fuel data_dir self records st = Some (Return tt, st') ->
  wf (fulltext st') /\
  forall k, is_Some (get k (fulltext st'))
            <-> (exists m, (k, m) ∈ records /\ has_index_file world data_dir m = true) \/
                ((k ∉ keys records) /\ is_Some (get k (fulltext st))).
Proof.
  revert st. induction records as [|[id meta] records IH]; intros st Hwf Hnd;
    cbn [index_records].
  - intros [= <-]. split; [done|]. intros k. split; [|by intros [(m & ?%elem_of_nil & _)|[_ ?]]].
    intros Hk. right. split; [|done]. by intros ?%elem_of_nil.
  - unfold wf in Hnd. cbn in Hnd. apply NoDup_cons in Hnd as [Hnin Hnd].
    intros [(u & s1 & Hr & Hk)|(e & _ & ?)]%bind_Some; [|done]. destruct u.
    apply index_record_domain in Hr as [Hw1 Hd1]; [|done].
    apply IH in Hk as [Hw Hd]; [|done|done]. split; [done|].
    intros k. rewrite Hd, Hd1. cbn [keys map fst]. rewrite not_elem_of_cons. split.
    + intros [(m & Hin & Hv)|[Hk1 Hk2]].
      * left. exists m. split; [by right|done].
      * destruct (has_index_file world data_dir meta) eqn:Hv.
        -- destruct Hk2 as [->|Hk2]; [left; exists meta; split; [left|done]|].
           destruct (decide (k = id)) as [->|Hne]; [left; exists meta; split; [left|done]|].
           right. done.
        -- destruct Hk2 as [Hne Hk2]. by right.
    + intros [(m & Hin & Hv)|[[Hne Hk1] Hk2]].
      * apply elem_of_cons in Hin as [[= -> ->]|Hin].
        -- right. split; [done|]. rewrite Hv. by left.
        -- left. by exists m.
      * right. split; [done|]. destruct (has_index_file world data_dir meta); auto.
Qed.

End DomainFacts.

(** The records that have a cache entry.  After a run that returns, the
    ids of [book.fulltext] are exactly the ids of [book.meta] whose record
    has an [index] that is not empty and whose index file exists: entries of
    records that are gone, or without such a file, have been removed, an
    entry has been created for each of the others, and none is repeated.
    (The mappings the run starts from are taken without repeated ids, as
    Python's dictionaries are.) *)
Theorem run_cache_domain {bytes : Type} (E : Indexer.Externals bytes) (J : Tree.Json)
    (world : Indexer.World bytes) (fuel : nat) (now : Z) (book book' : Tree.Book)
    (fs fs' : gmap string Tree.node) (inclusive_frames : bool) (evs : list Indexer.Info)
    (meta_ orig : PyDict.dict (PyDict.dict string)) :
  Indexer.run world fuel now book fs inclusive_frames
  = Some (evs, Indexer.Return (book', fs')) ->
  meta_before book fs = Indexer.Return meta_ ->
  fulltext_before book fs = Indexer.Return orig ->
  PyDict.wf meta_ -> PyDict.wf orig ->
  exists ft',
    Tree.fulltext book' = Some ft' /\ Tree.meta book' = Some meta_ /\ PyDict.wf ft' /\
    forall id,
      is_Some (PyDict.get id ft') <->
      exists m, PyDict.get id meta_ = Some m /\
                Indexer.has_index_file world (Tree.data_dir book) m = true.
Proof.
  intros Hrun Hmeta Horig Hwm Hwo.
  apply run_returns in Hrun
    as (book1 & meta' & orig' & st' & _ & Hm1 & _ & Hmeta' & Horig' & Hrec & -> & _).
  rewrite Hmeta in Hmeta'. injection Hmeta' as <-.
  rewrite Horig in Horig'. injection Horig' as <-.
  exists (Indexer.fulltext st'). split; [done|]. split; [done|].
  destruct (remove_stale_domain meta_
              (Indexer.mkCache orig Frontier.__init__
                 [Indexer.mkInfo Indexer.info "Generating fulltext cache..."]) Hwo)
    as [Hw0 Hd0].
  apply index_records_domain in Hrec as [Hw Hd]; [|done|done]. split; [done|].
  intros id. rewrite Hd. split.
  - intros [(m & Hin & Hv)|[Hnin Hk]].
    + exists m. split; [by apply dict_elem_get|done].
    + apply Hd0 in Hk as [_ Hc]. by apply dict_contains_keys in Hc.
  - intros (m & Hget & Hv). left. exists m. split; [by apply dict_get_elem|done].
Qed.
(** A run on sample data returns: its other outcomes are ruled out by
    evaluation. *)
Local Ltac run_returned Hrun :=
  apply (f_equal (fun r => match r with
                           | Some (_, Indexer.Return _) => true
                           | _ => false
                           end)) in Hrun;
  vm_compute in Hrun; discriminate Hrun.

Lemma run_keeps_texts_normalized_witness :
  exists evs book' fs' ft',
    @Indexer.run _ sample_externals reference_json (sample_site 5) 20 100
      (sample_loaded_book []) ∅ true = Some (evs, Indexer.Return (book', fs')) /\
    Tree.fulltext book' = Some ft' /\ texts_normalized ft'.
Proof.
  destruct (@Indexer.run _ sample_externals reference_json (sample_site 5) 20 100
              (sample_loaded_book []) ∅ true) as [[evs [[book' fs']|e]]|] eqn:Hrun;
    [|run_returned Hrun|run_returned Hrun].
  destruct (run_keeps_texts_normalized sample_externals reference_json (sample_site 5) 20 100
              (sample_loaded_book []) book' ∅ fs' true evs [] Hrun eq_refl)
    as (ft' & Hft & Hn).
  { intros id entry path text Hin. clear Hrun. by apply elem_of_nil in Hin. }
  exists evs, book', fs', ft'. exact (conj eq_refl (conj Hft Hn)).
Defined.

Lemma run_writes_fulltext_shards_only_witness :
  exists evs book' fs',
    @Indexer.run _ sample_externals reference_json (sample_site 5) 20 100
      (sample_loaded_book []) ∅ true = Some (evs, Indexer.Return (book', fs')) /\
    (forall file, file ∈ Tree.iter_fulltext_files book' fs' ->
       Tree.node_mtime <$> fs' !! file = Some 100%Z) /\
    fs' !! "readme.txt" = None.
Proof.
  destruct (@Indexer.run _ sample_externals reference_json (sample_site 5) 20 100
              (sample_loaded_book []) ∅ true) as [[evs [[book' fs']|e]]|] eqn:Hrun;
    [|run_returned Hrun|run_returned Hrun].
  destruct (run_writes_fulltext_shards_only sample_externals reference_json (sample_site 5)
              20 100 (sample_loaded_book []) book' ∅ fs' true evs Hrun)
    as (_ & Hframe & _ & Htime).
  exists evs, book', fs'. split; [done|]. split; [exact Htime|].
  rewrite Hframe; [done|]. intros i. unfold Tree.get_tree_file, Tree.path_join. cbn.
  discriminate.
Defined.

Lemma run_cache_domain_witness :
  exists evs book' fs' ft',
    @Indexer.run _ sample_externals reference_json (sample_site 5) 20 100
      (sample_loaded_book [("19990101000000000", [("index.html", "gone")])]) ∅ true
    = Some (evs, Indexer.Return (book', fs')) /\
    Tree.fulltext book' = Some ft' /\
    is_Some (PyDict.get "20200101000000000" ft') /\
    ~ is_Some (PyDict.get "19990101000000000" ft').
Proof.
  set (orig := [("19990101000000000", [("index.html", "gone")])]).
  destruct (@Indexer.run _ sample_externals reference_json (sample_site 5) 20 100
              (sample_loaded_book orig) ∅ true) as [[evs [[book' fs']|e]]|] eqn:Hrun;
    [|run_returned Hrun|run_returned Hrun].
  destruct (run_cache_domain sample_externals reference_json (sample_site 5) 20 100
              (sample_loaded_book orig) book' ∅ fs' true evs
              [("20200101000000000", [("index", "20200101000000000/index.html")])] orig
              Hrun eq_refl eq_refl)
    as (ft' & Hft & _ & _ & Hdom).
  { apply (bool_decide_unpack _). vm_compute. exact I. }
  { apply (bool_decide_unpack _). vm_compute. exact I. }
  exists evs, book', fs', ft'. split; [done|]. split; [done|]. split.
  - apply Hdom. eexists. split; [reflexivity|]. vm_compute. reflexivity.
  - intros (m & Hm & _)%Hdom. vm_compute in Hm. discriminate Hm.
Defined.

Section CollectFacts.
Import Indexer PyDict.
Context {bytes : Type} `{Externals bytes} `{Tree.Json}.
Variable world : World bytes.
Implicit Types (st : cache_state) (ftu : frontier).

Lemma get_setitem ftu k v k' :
  Frontier.get (Frontier.__setitem__ ftu k v) k'
  = if decide (k = k') then Some v else Frontier.get ftu k'.
Proof.
  unfold Frontier.get, Frontier.__setitem__. cbn.
  destruct (decide (k = k')) as [->|Hne]; [apply lookup_insert_eq|by apply lookup_insert_ne].
Qed.

Lemma assign_all_values (paths : list string) ftu k v :
  Frontier.get (Frontier.assign_all (map (fun p => (p, true)) paths) ftu) k = Some v ->
  v = true \/ Frontier.get ftu k = Some v.
Proof.
  revert ftu. induction paths as [|p paths IH]; intros ftu; cbn [map]; [by right|].
  rewrite assign_all_cons. intros Hv. apply IH in Hv as [->|Hv]; [by left|].
  rewrite get_setitem in Hv. destruct (decide (p = k)); [left; congruence|by right].
Qed.

(** After assignments of [True] to a new frontier, its keys are the paths
    assigned, each once at the place of its first assignment, and every one
    is pending. *)
Lemma assign_all_pending (paths : list string) :
  let ftu := Frontier.assign_all (map (fun p => (p, true)) paths) Frontier.__init__ in
  Frontier._keys ftu = first_seen paths /\
  forall k, k ∈ paths -> Frontier.get ftu k = Some true.
Proof.
  intros ftu. split.
  - unfold ftu. rewrite keys_from_init. f_equal. rewrite <- list_fmap_compose.
    clear. induction paths as [|p paths IH]; cbn; [done|]. by rewrite IH.
  - intros k Hk.
    assert (Frontier.wf ftu) as Hwf by apply wf_assign_all, wf_init_dict.
    assert (k ∈ Frontier._keys ftu) as Hin.
    { apply (assigned_key_elem (map (fun p => (p, true)) paths) Frontier.__init__ (k, true));
        [apply wf_init_dict|]. apply list_elem_of_fmap. by exists k. }
    apply Hwf in Hin as [v Hv].
    destruct (assign_all_values paths Frontier.__init__ k v Hv) as [->|Hx]; [done|].
    unfold Frontier.get in Hx. cbn in Hx. by rewrite lookup_empty in Hx.
Qed.

Lemma mark_pending_twice paths1 paths2 st :
  mark_pending paths2 (mark_pending paths1 st)
  = set_frontier (Frontier.assign_all (map (fun p => (p, true)) (paths1 ++ paths2))
                    (files_to_update st)) st.
Proof.
  unfold mark_pending, set_frontier. cbn. f_equal.
  by rewrite map_app, assign_all_app.
Qed.

End CollectFacts.
(** What is put on the frontier of a record.  [_collect_files_to_update]
    starts from a new frontier.  (1) For a record without cache entry it
    creates the empty entry and marks the index paths as pending.  (2) For
    an archive record with an entry, whose container is not newer than the
    newest full-text shard, it marks nothing: the frontier stays empty and
    [_handle_files_to_update] then returns at once, leaving cache and events
    as they are, without looking at any member of the archive.  (3) For any
    other record with an entry it marks the index paths and then the paths
    of the entry.  The keys of the frontier are these paths, each once, in
    the order of their first occurrence; the entries of the cache are not
    changed and no event is yielded. *)
Theorem collect_files_to_update_cases {bytes : Type} (E : Indexer.Externals bytes)
    (J : Tree.Json) (world : Indexer.World bytes) (data_dir : string)
    (self : Indexer.Generator) (item : Indexer.FulltextCacheItem)
    (st : Indexer.cache_state) (paths : list string) :
  Indexer.files_to_update st = Frontier.__init__ ->
  Indexer.get_index_paths world data_dir (Indexer.index item) = Indexer.Return paths ->
  let pending (l : list string) (st' : Indexer.cache_state) :=
    Frontier._keys (Indexer.files_to_update st') = first_seen l /\
    (forall k, k ∈ l -> Frontier.get (Indexer.files_to_update st') k = Some true) /\
    Indexer.events st' = Indexer.events st in
  (PyDict.get (Indexer.id item) (Indexer.fulltext st) = None ->
     exists st',
       Indexer._collect_files_to_update world data_dir self item st
       = Some (Indexer.Return tt, st') /\
       Indexer.fulltext st' = PyDict.set (Indexer.id item) [] (Indexer.fulltext st) /\
       pending paths st') /\
  (forall cached mtime,
     PyDict.get (Indexer.id item) (Indexer.fulltext st) = Some cached ->
     Indexer.is_archive (Indexer.indexfile item) = true ->
     Indexer.stat_mtime world (Indexer.indexfile item) = Some mtime ->
     (mtime <= Indexer.cache_last_modified self)%Z ->
     Indexer._collect_files_to_update world data_dir self item st
     = Some (Indexer.Return tt, st) /\
     forall fuel,
       Indexer._handle_files_to_update world data_dir self item (S fuel) st
       = Some (Indexer.Return tt, st)) /\
  (forall cached,
     PyDict.get (Indexer.id item) (Indexer.fulltext st) = Some cached ->
     (Indexer.is_archive (Indexer.indexfile item) = false \/
      exists mtime, Indexer.stat_mtime world (Indexer.indexfile item) = Some mtime /\
                    (Indexer.cache_last_modified self < mtime)%Z) ->
     exists st',
       Indexer._collect_files_to_update world data_dir self item st
       = Some (Indexer.Return tt, st') /\
       Indexer.fulltext st' = Indexer.fulltext st /\
       pending (paths ++ PyDict.keys cached) st').
Proof.
  intros Hnew Hpaths pending. split_and!.
  - intros Hnone. unfold Indexer._collect_files_to_update. rewrite Hnone, Hpaths.
    eexists. split; [done|]. split; [done|].
    unfold pending, Indexer.mark_pending. cbn. rewrite Hnew.
    destruct (assign_all_pending paths) as [Hk Hv]. done.
  - intros cached mtime Hget Harch Hstat Hle.
    unfold Indexer._collect_files_to_update. rewrite Hget, Harch, Hstat.
    destruct (Z.leb_spec mtime (Indexer.cache_last_modified self)); [|lia].
    split; [done|]. intros fuel.
    unfold Indexer._handle_files_to_update. cbn [Indexer.handle_loop]. by rewrite Hnew.
  - intros cached Hget Hnewer.
    unfold Indexer._collect_files_to_update. rewrite Hget, Hpaths, mark_pending_twice.
    assert (exists st',
              Some (Indexer.Return tt,
                    Indexer.set_frontier
                      (Frontier.assign_all (map (fun p => (p, true)) (paths ++ PyDict.keys cached))
                         (Indexer.files_to_update st)) st)
              = Some (Indexer.Return tt, st') /\
              Indexer.fulltext st' = Indexer.fulltext st /\
              pending (paths ++ PyDict.keys cached) st') as Hres.
    { eexists. split; [done|]. split; [done|]. unfold pending. cbn. rewrite Hnew.
      destruct (assign_all_pending (paths ++ PyDict.keys cached)) as [Hk Hv]. done. }
    destruct Hnewer as [->|(mtime & -> & Hlt)]; [done|].
    destruct (Indexer.is_archive (Indexer.indexfile item)); [|done].
    destruct (Z.leb_spec mtime (Indexer.cache_last_modified self)); [lia|done].
Qed.
Lemma collect_files_to_update_cases_witness :
  let world := sample_world [("root/r.htz", (5%Z, sample_broken))] in
  let item := Indexer.mkItem "r" [("index", "r.htz")] "r.htz" "root/r.htz" in
  let st := Indexer.mkCache [("r", [("index.html", "text")])] Frontier.__init__ [] in
  Indexer._collect_files_to_update world "root" (Indexer.mkGenerator true 100) item st
  = Some (Indexer.Return tt, st) /\
  Indexer._handle_files_to_update world "root" (Indexer.mkGenerator true 100) item 1 st
  = Some (Indexer.Return tt, st).
Proof.
  intros world item st.
  destruct (collect_files_to_update_cases sample_externals reference_json world "root"
              (Indexer.mkGenerator true 100) item st ["index.html"] eq_refl eq_refl)
    as (_ & Hskip & _).
  destruct (Hskip [("index.html", "text")] 5%Z) as [Hc Hh];
    [reflexivity|reflexivity|reflexivity|vm_compute; discriminate|].
  split; [exact Hc|exact (Hh 0)].
Defined.

Section FailureFacts.
Import Indexer PyDict.
Context {bytes : Type} `{Externals bytes} `{Tree.Json}.
Variable world : World bytes.
Variable data_dir : string.
Variable self : Generator.
Variable item : FulltextCacheItem.
Implicit Types (st : cache_state) (path : string).

(** A pending path with a source that is not cached, or is newer than
    the cache: extraction runs, and the entry gets its text, which is empty
    when the extraction raises. *)
Lemma handle_path_extracts fuel path hu st mtime cached res ftu' :
  Frontier.get (files_to_update st) path = Some true ->
  _get_mtime world data_dir item path = Return (Some mtime) ->
  get (id item) (fulltext st) = Some cached ->
  contains path cached = false \/ (cache_last_modified self < mtime)%Z ->
  _get_fulltext_cache world data_dir fuel self item path
    (Frontier.__setitem__ (files_to_update st) path false) = Some (res, ftu') ->
  handle_path world data_dir self item fuel path hu st =
  Some (Return true,
        {| fulltext :=
             set (id item)
               (set path (match res with
                          | Return (Some text) => if truthy text then text else ""
                          | _ => ""
                          end) cached) (fulltext st);
           files_to_update := ftu';
           events :=
             (events st ++
              (if hu then []
               else [update_event item (match cached with [] => "Creating" | _ => "Updating" end)]))
             ++ match res with Raise _ => [failure_event item path] | Return _ => [] end |}).
Proof.
  intros Hpending Hmtime Hget Hdue Hx. unfold handle_path. rewrite Hpending, Hmtime.
  unfold bind at 1. unfold cached_entry at 1. cbn [fulltext set_frontier]. rewrite Hget.
  assert (contains path cached && (mtime <=? cache_last_modified self)%Z = false) as ->.
  { destruct Hdue as [->|Hlt]; [done|]. apply andb_false_iff. right. by apply Z.leb_gt. }
  unfold bind at 1.
  assert (report_update item hu
            (set_frontier (Frontier.__setitem__ (files_to_update st) path false) st)
          = Some (Return true,
                  {| fulltext := fulltext st;
                     files_to_update := Frontier.__setitem__ (files_to_update st) path false;
                     events := events st ++
                       (if hu then []
                        else [update_event item
                                (match cached with [] => "Creating" | _ => "Updating" end)]) |}))
    as ->.
  { unfold report_update. destruct hu.
    - unfold ret, set_frontier. by rewrite app_nil_r.
    - unfold bind, cached_entry. cbn [fulltext set_frontier]. rewrite Hget. done. }
  unfold bind at 1. unfold extract. cbn [files_to_update]. rewrite Hx.
  destruct res as [[text|]|e]; unfold bind, store_cached, cached_entry; cbn;
    unfold bind; cbn; rewrite Hget; cbn; unfold set_fulltext, ret; cbn;
    rewrite ?app_nil_r; done.
Qed.

(** [if path in book.fulltext[id]: report; delete]: the outcome. *)
Lemma drop_cached_outcome path hu st cached :
  get (id item) (fulltext st) = Some cached ->
  drop_cached item path hu st =
  if contains path cached then
    Some (Return true,
          {| fulltext := set (id item) (del path cached) (fulltext st);
             files_to_update := files_to_update st;
             events := events st ++
               (if hu then []
                else [update_event item
                        (match cached with [] => "Creating" | _ => "Updating" end)]) |})
  else Some (Return hu, st).
Proof.
  intros Hget. unfold drop_cached, bind, cached_entry. rewrite Hget.
  destruct (contains path cached) eqn:Hc; [|done].
  unfold report_update. destruct hu.
  - unfold ret, del_cached, bind, cached_entry. rewrite Hget, Hc. unfold set_fulltext.
    by rewrite app_nil_r.
  - unfold bind, cached_entry. rewrite Hget. unfold del_cached, bind, cached_entry, emit.
    cbn. rewrite Hget, Hc. done.
Qed.

End FailureFacts.

(** What is done with a path of the frontier.  For a record with a cache
    entry, the body of the loop of [_handle_files_to_update] does one of
    four things.  (1) A path marked [False] (settled elsewhere, as an
    inlined frame is) loses its text in the entry, if it has one.  (2) A
    pending path whose source does not exist loses its text likewise.
    (3) A pending path that has a text in the entry and whose source is not
    newer than the newest full-text shard is left alone: nothing is
    extracted, whatever the fuel, and no event is yielded.  (4) Any other
    pending path is extracted, and the entry gets the text (empty when there
    is none).  A pending path is marked [False] first in every case, and the
    first change to the entry is announced by one event. *)
Theorem handle_path_decisions {bytes : Type} (E : Indexer.Externals bytes)
    (world : Indexer.World bytes) (data_dir : string) (self : Indexer.Generator)
    (item : Indexer.FulltextCacheItem) (fuel : nat) (path : string) (has_update : bool)
    (st : Indexer.cache_state) (cached : PyDict.dict string) :
  PyDict.get (Indexer.id item) (Indexer.fulltext st) = Some cached ->
  let announced :=
    Indexer.events st ++
    (if has_update then []
     else [Indexer.update_event item (match cached with [] => "Creating" | _ => "Updating" end)]) in
  let settled := Frontier.__setitem__ (Indexer.files_to_update st) path false in
  let dropped (ftu : Frontier.MutatingDict bool) :=
    if PyDict.contains path cached then
      Some (Indexer.Return true,
            Indexer.mkCache
              (PyDict.set (Indexer.id item) (PyDict.del path cached) (Indexer.fulltext st))
              ftu announced)
    else Some (Indexer.Return has_update,
               Indexer.mkCache (Indexer.fulltext st) ftu (Indexer.events st)) in
  (Frontier.get (Indexer.files_to_update st) path = Some false ->
     Indexer.handle_path world data_dir self item fuel path has_update st
     = dropped (Indexer.files_to_update st)) /\
  (Frontier.get (Indexer.files_to_update st) path = Some true ->
     Indexer._get_mtime world data_dir item path = Indexer.Return None ->
     Indexer.handle_path world data_dir self item fuel path has_update st = dropped settled) /\
  (forall mtime,
     Frontier.get (Indexer.files_to_update st) path = Some true ->
     Indexer._get_mtime world data_dir item path = Indexer.Return (Some mtime) ->
     PyDict.contains path cached = true ->
     (mtime <= Indexer.cache_last_modified self)%Z ->
     Indexer.handle_path world data_dir self item fuel path has_update st
     = Some (Indexer.Return has_update,
             Indexer.mkCache (Indexer.fulltext st) settled (Indexer.events st))) /\
  (forall mtime text ftu',
     Frontier.get (Indexer.files_to_update st) path = Some true ->
     Indexer._get_mtime world data_dir item path = Indexer.Return (Some mtime) ->
     PyDict.contains path cached = false \/ (Indexer.cache_last_modified self < mtime)%Z ->
     Indexer._get_fulltext_cache world data_dir fuel self item path settled
     = Some (Indexer.Return text, ftu') ->
     Indexer.handle_path world data_dir self item fuel path has_update st
     = Some (Indexer.Return true,
             Indexer.mkCache
               (PyDict.set (Indexer.id item)
                  (PyDict.set path
                     (match text with
                      | Some t => if Indexer.truthy t then t else ""
                      | None => ""
                      end) cached) (Indexer.fulltext st))
               ftu' announced)).
Proof.
  intros Hget announced settled dropped. split_and!.
  - intros Hfalse. unfold Indexer.handle_path. rewrite Hfalse.
    rewrite (drop_cached_outcome item path has_update st cached Hget).
    unfold dropped. destruct (PyDict.contains path cached); [done|]. by destruct st.
  - intros Htrue Hmissing. unfold Indexer.handle_path. rewrite Htrue, Hmissing.
    unfold settled.
    rewrite (drop_cached_outcome item path has_update (Indexer.set_frontier _ st) cached Hget).
    unfold dropped. by destruct (PyDict.contains path cached).
  - intros mtime Htrue Hmtime Hcached Hle. unfold Indexer.handle_path.
    rewrite Htrue, Hmtime. unfold Indexer.bind, Indexer.cached_entry.
    cbn [Indexer.fulltext Indexer.set_frontier]. rewrite Hget, Hcached.
    destruct (Z.leb_spec mtime (Indexer.cache_last_modified self)); [done|lia].
  - intros mtime text ftu' Htrue Hmtime Hdue Hx.
    rewrite (handle_path_extracts world data_dir self item fuel path has_update st mtime cached
               (Indexer.Return text) ftu' Htrue Hmtime Hget Hdue Hx).
    by rewrite app_nil_r.
Qed.

(** A failed extraction.  When the extraction of a path that is due raises
    any exception, [_handle_files_to_update] does not: the path gets the
    empty text in the entry of the record, an event of type [error] (not a
    warning) that names the record and the path is yielded after the
    announcement of the update, the frontier is as the extraction left it,
    and the loop goes on with the next path of the frontier. *)
Theorem extraction_failure_is_reported_and_passed {bytes : Type}
    (E : Indexer.Externals bytes) (world : Indexer.World bytes) (data_dir : string)
    (self : Indexer.Generator) (item : Indexer.FulltextCacheItem) (fuel i : nat)
    (path : string) (has_update : bool) (st : Indexer.cache_state)
    (cached : PyDict.dict string) (mtime : Z) (e : Indexer.exn)
    (ftu' : Frontier.MutatingDict bool) :
  Frontier._keys (Indexer.files_to_update st) !! i = Some path ->
  Frontier.get (Indexer.files_to_update st) path = Some true ->
  Indexer._get_mtime world data_dir item path = Indexer.Return (Some mtime) ->
  PyDict.get (Indexer.id item) (Indexer.fulltext st) = Some cached ->
  PyDict.contains path cached = false \/ (Indexer.cache_last_modified self < mtime)%Z ->
  Indexer._get_fulltext_cache world data_dir fuel self item path
    (Frontier.__setitem__ (Indexer.files_to_update st) path false)
  = Some (Indexer.Raise e, ftu') ->
  exists st',
    Indexer.handle_path world data_dir self item fuel path has_update st
    = Some (Indexer.Return true, st') /\
    Indexer.fulltext st'
    = PyDict.set (Indexer.id item) (PyDict.set path "" cached) (Indexer.fulltext st) /\
    Indexer.files_to_update st' = ftu' /\
    (exists announcement,
       Indexer.events st' = (Indexer.events st ++ announcement)
                            ++ [Indexer.failure_event item path] /\
       (has_update = true -> announcement = [])) /\
    Indexer.type (Indexer.failure_event item path) = Indexer.error /\
    Indexer.handle_loop world data_dir self item (S fuel) i has_update st
    = Indexer.handle_loop world data_dir self item fuel (S i) true st'.
Proof.
  intros Hkey Htrue Hmtime Hget Hdue Hx.
  pose proof (handle_path_extracts world data_dir self item fuel path has_update st mtime cached
                (Indexer.Raise e) ftu' Htrue Hmtime Hget Hdue Hx) as Hp.
  eexists. split; [exact Hp|]. cbn [Indexer.fulltext Indexer.files_to_update Indexer.events].
  split; [done|]. split; [done|]. split.
  { eexists. split; [done|]. by intros ->. }
  split; [done|].
  cbn [Indexer.handle_loop]. unfold Frontier.__next__. rewrite Hkey.
  unfold Indexer.bind. by rewrite Hp.
Qed.
Lemma handle_path_decisions_witness :
  let settled := Frontier.__setitem__ (Indexer.files_to_update sample_framed_state)
                   "gone.html" false in
  Indexer.handle_path sample_framed_world "root" (Indexer.mkGenerator true 0)
    sample_framed_item 9 "gone.html" false sample_framed_state
  = Some (Indexer.Return true,
          Indexer.mkCache [("r", [("f.html", "old")])] settled
            [Indexer.update_event sample_framed_item "Updating"]).
Proof.
  intros settled.
  destruct (handle_path_decisions sample_externals sample_framed_world "root"
              (Indexer.mkGenerator true 0) sample_framed_item 9 "gone.html" false
              sample_framed_state [("f.html", "old"); ("gone.html", "old")] eq_refl)
    as (_ & Hmissing & _).
  rewrite Hmissing; reflexivity.
Defined.

Lemma extraction_failure_is_reported_and_passed_witness :
  let world := sample_world [("root/r/index.html", (5%Z, sample_broken))] in
  let st := Indexer.mkCache [("r", [])]
              (Frontier.assign_all [("index.html", true)] Frontier.__init__) [] in
  exists st',
    Indexer.handle_path world "root" (Indexer.mkGenerator true 0) sample_framed_item 5
      "index.html" false st
    = Some (Indexer.Return true, st') /\
    Indexer.fulltext st' = [("r", [("index.html", "")])] /\
    Indexer.events st'
    = [Indexer.update_event sample_framed_item "Creating";
       Indexer.failure_event sample_framed_item "index.html"].
Proof.
  intros world st.
  destruct (extraction_failure_is_reported_and_passed sample_externals world "root"
              (Indexer.mkGenerator true 0) sample_framed_item 5 0 "index.html" false st []
              5%Z (Indexer.LibraryError "XMLSyntaxError")
              (Frontier.__setitem__ (Indexer.files_to_update st) "index.html" false)
              eq_refl eq_refl eq_refl eq_refl (or_introl eq_refl) eq_refl)
    as (st' & Hp & Hft & _ & _ & _).
  exists st'. split; [exact Hp|]. split; [exact Hft|].
  clear Hft. vm_compute in Hp. injection Hp as <-. reflexivity.
Defined.
Section GrowFacts.
Import Indexer.
Context {bytes : Type} `{Externals bytes}.
Implicit Types (ftu : frontier) (k : string).

Local Abbreviation adv f f' := (grows f f' /\ (Frontier.wf f -> Frontier.wf f')).

Lemma adv_refl ftu : adv ftu ftu.
Proof. split; [split|]; [reflexivity|done|done]. Qed.

Lemma adv_trans ftu1 ftu2 ftu3 : adv ftu1 ftu2 -> adv ftu2 ftu3 -> adv ftu1 ftu3.
Proof.
  intros [[Hp1 Hf1] Hw1] [[Hp2 Hf2] Hw2]. split; [split|]; [by etrans|auto|auto].
Qed.

Lemma get_setitem_frontier ftu k k' (v : bool) :
  Frontier.get (Frontier.__setitem__ ftu k v) k'
  = if decide (k = k') then Some v else Frontier.get ftu k'.
Proof.
  unfold Frontier.get, Frontier.__setitem__. cbn.
  destruct (decide (k = k')) as [->|Hne]; [by rewrite lookup_insert_eq|].
  by rewrite lookup_insert_ne.
Qed.

Lemma keys_setitem_prefix ftu k (v : bool) :
  Frontier._keys ftu `prefix_of` Frontier._keys (Frontier.__setitem__ ftu k v).
Proof.
  unfold Frontier.__setitem__. cbn. destruct (Frontier.__contains__ ftu k); [done|].
  by apply prefix_app_r.
Qed.

Lemma adv_settle ftu k : adv ftu (Frontier.__setitem__ ftu k false).
Proof.
  split; [split|]; [apply keys_setitem_prefix| |apply wf_setitem].
  intros k' Hk'. rewrite get_setitem_frontier. by destruct (decide (k = k')).
Qed.

Lemma adv_add ftu k :
  Frontier.__contains__ ftu k = false -> adv ftu (Frontier.__setitem__ ftu k true).
Proof.
  intros Hc. split; [split|]; [apply keys_setitem_prefix| |apply wf_setitem].
  intros k' Hk'. rewrite get_setitem_frontier.
  destruct (decide (k = k')) as [<-|]; [|done].
  unfold Frontier.__contains__, Frontier.get in *. rewrite Hk' in Hc.
  apply bool_decide_eq_false in Hc. by destruct Hc.
Qed.

Lemma add_pending_adv target ftu r ftu' :
  add_pending target ftu = Some (r, ftu') -> adv ftu ftu'.
Proof.
  unfold add_pending. destruct target as [t|]; [|intros [= <- <-]; apply adv_refl].
  destruct (truthy t); cbn; [|intros [= <- <-]; apply adv_refl].
  destruct (Frontier.__contains__ ftu t) eqn:Hc; cbn; intros [= <- <-];
    [apply adv_refl|by apply adv_add].
Qed.

Section PageGrows.
Variable get_fulltext_cache : string -> extraction (option string).
Variable get_fulltext_cache_for_data : bytes -> string -> extraction (option string).
Hypothesis Hpath : forall target ftu r ftu',
  get_fulltext_cache target ftu = Some (r, ftu') -> adv ftu ftu'.
Hypothesis Hdata : forall data mime ftu r ftu',
  get_fulltext_cache_for_data data mime ftu = Some (r, ftu') -> adv ftu ftu'.
Variable self : Generator.
Variable item : FulltextCacheItem.
Variable path : option string.

Lemma add_datauri_content_adv url results ftu r ftu' :
  add_datauri_content get_fulltext_cache_for_data url results ftu = Some (r, ftu') ->
  adv ftu ftu'.
Proof.
  unfold add_datauri_content. destruct (parse_datauri url) as [[data mime]|].
  - intros [(a & s1 & Hm & Hk)|(e & Hm & _)]%bind_Some.
    + injection Hk as <- <-. by eapply Hdata.
    + by eapply Hdata.
  - intros [= <- <-]. apply adv_refl.
Qed.

Lemma meta_refresh_loop_adv refreshes results instant ftu r ftu' :
  meta_refresh_loop get_fulltext_cache_for_data path refreshes results instant ftu
  = Some (r, ftu') ->
  adv ftu ftu'.
Proof.
  revert results instant ftu.
  induction refreshes as [|[time url] rest IH]; intros results instant ftu;
    cbn [meta_refresh_loop].
  - intros [= <- <-]. apply adv_refl.
  - destruct url as [u|]; [|apply IH].
    destruct (truthy u); [|apply IH].
    destruct (String.prefix "data:" u).
    + intros [(a & s1 & Hm & Hk)|(e & Hm & _)]%bind_Some.
      * eapply adv_trans; [by eapply add_datauri_content_adv|by eapply IH].
      * by eapply add_datauri_content_adv.
    + intros [(a & s1 & Hm & Hk)|(e & Hm & _)]%bind_Some.
      * eapply adv_trans; [by eapply add_pending_adv|by eapply IH].
      * by eapply add_pending_adv.
Qed.

Lemma visit_link_adv url results ftu r ftu' :
  visit_link get_fulltext_cache_for_data path url results ftu = Some (r, ftu') ->
  adv ftu ftu'.
Proof.
  unfold visit_link. destruct (String.prefix "data:" url).
  - apply add_datauri_content_adv.
  - intros [(a & s1 & Hm & Hk)|(e & Hm & _)]%bind_Some.
    + injection Hk as <- <-. by eapply add_pending_adv.
    + by eapply add_pending_adv.
Qed.

Lemma visit_frame_adv url results ftu r ftu' :
  visit_frame get_fulltext_cache get_fulltext_cache_for_data self path url results ftu
  = Some (r, ftu') ->
  adv ftu ftu'.
Proof.
  unfold visit_frame. destruct (String.prefix "data:" url).
  { apply add_datauri_content_adv. }
  destruct (get_relative_file_path path url) as [target|];
    [|intros [= <- <-]; apply adv_refl].
  destruct (truthy target); [|intros [= <- <-]; apply adv_refl].
  destruct (inclusive_frames self).
  - assert (bind (get_fulltext_cache target)
                 (fun fulltext => ret (append_text results fulltext))
                 (Frontier.__setitem__ ftu target false) = Some (r, ftu') ->
            adv ftu ftu') as Hinline.
    { intros [(a & s1 & Hm & Hk)|(e & Hm & _)]%bind_Some.
      - injection Hk as <- <-. eapply adv_trans; [apply adv_settle|by eapply Hpath].
      - eapply adv_trans; [apply adv_settle|by eapply Hpath]. }
    destruct (Frontier.get ftu target) as [[|]|]; [exact Hinline| |exact Hinline].
    intros [= <- <-]. apply adv_refl.
  - intros [(a & s1 & Hm & Hk)|(e & Hm & _)]%bind_Some.
    + injection Hk as <- <-. by eapply add_pending_adv.
    + by eapply add_pending_adv.
Qed.

Lemma walk_adv parse_events exclusion_stack results ftu r ftu' :
  walk get_fulltext_cache get_fulltext_cache_for_data self path
       parse_events exclusion_stack results ftu = Some (r, ftu') ->
  adv ftu ftu'.
Proof.
  revert exclusion_stack results ftu.
  induction parse_events as [|ev rest IH]; intros stack results ftu; cbn [walk].
  - intros [= <- <-]. apply adv_refl.
  - destruct ev as [elem text|elem text|what].
    + destruct stack as [|top stack]; [|apply IH].
      intros [(a & s1 & Hm & Hk)|(e & Hm & _)]%bind_Some.
      * eapply adv_trans.
        -- destruct (in_tags (tag elem) ["a"; "area"]).
           { destruct (PyDict.get "href" (attrib elem)).
             - by eapply visit_link_adv.
             - injection Hm as <- <-. apply adv_refl. }
           destruct (in_tags (tag elem) ["iframe"; "frame"]).
           { destruct (PyDict.get "src" (attrib elem)).
             - by eapply visit_frame_adv.
             - injection Hm as <- <-. apply adv_refl. }
           injection Hm as <- <-. apply adv_refl.
        -- destruct (in_tags (tag elem) FULLTEXT_EXCLUDE_TAGS); by eapply IH.
      * destruct (in_tags (tag elem) ["a"; "area"]).
        { destruct (PyDict.get "href" (attrib elem)); [by eapply visit_link_adv|done]. }
        destruct (in_tags (tag elem) ["iframe"; "frame"]); [|done].
        destruct (PyDict.get "src" (attrib elem)); [by eapply visit_frame_adv|done].
    + apply IH.
    + intros [= <- <-]. apply adv_refl.
Qed.

Lemma for_fh_adv fh mime ftu r ftu' :
  for_fh get_fulltext_cache get_fulltext_cache_for_data self item path fh mime ftu
  = Some (r, ftu') ->
  adv ftu ftu'.
Proof.
  unfold for_fh. destruct mime as [m|]; [|intros [= <- <-]; apply adv_refl].
  destruct (negb (truthy m)); [intros [= <- <-]; apply adv_refl|].
  destruct (mime_is_html (Some m)).
  - unfold _get_fulltext_cache_html.
    destruct (iter_meta_refresh fh) as [refreshes|e]; [|intros [= <- <-]; apply adv_refl].
    intros [(a & s1 & Hm & Hk)|(e & Hm & _)]%bind_Some;
      [|by eapply meta_refresh_loop_adv].
    eapply adv_trans; [by eapply meta_refresh_loop_adv|].
    destruct a as [results [|]].
    + destruct results; injection Hk as <- <-; apply adv_refl.
    + apply bind_Some in Hk as [(a & s2 & Hw & Hk)|(e & Hw & _)].
      * injection Hk as <- <-. by eapply walk_adv.
      * by eapply walk_adv.
  - destruct (String.prefix "text/" m); [|intros [= <- <-]; apply adv_refl].
    unfold _get_fulltext_cache_txt.
    destruct (decode fh _); intros [= <- <-]; apply adv_refl.
Qed.

End PageGrows.

Variable world : World bytes.
Variable data_dir : string.

Lemma get_fulltext_cache_adv_both fuel self item :
  (forall path ftu r ftu',
     _get_fulltext_cache world data_dir fuel self item path ftu = Some (r, ftu') ->
     adv ftu ftu') /\
  (forall path fh mime ftu r ftu',
     _get_fulltext_cache_for_fh world data_dir fuel self item path fh mime ftu
     = Some (r, ftu') ->
     adv ftu ftu').
Proof.
  induction fuel as [|fuel [IHp IHd]]; [by split|].
  assert (forall data mime ftu r ftu',
            _get_fulltext_cache_for_fh world data_dir fuel self item None data (Some mime) ftu
            = Some (r, ftu') -> adv ftu ftu') as IHd'.
  { intros data mime. apply IHd. }
  split.
  - intros path ftu r ftu'. cbn [_get_fulltext_cache].
    destruct (_open_file world data_dir item path) as [[fh|]|e];
      [|intros [= <- <-]; apply adv_refl|intros [= <- <-]; apply adv_refl].
    by apply for_fh_adv.
  - intros path fh mime ftu r ftu'. cbn [_get_fulltext_cache_for_fh].
    by apply for_fh_adv.
Qed.

Lemma get_fulltext_cache_adv fuel self item path ftu r ftu' :
  _get_fulltext_cache world data_dir fuel self item path ftu = Some (r, ftu') ->
  adv ftu ftu'.
Proof. apply get_fulltext_cache_adv_both. Qed.

End GrowFacts.
Section SettleFacts.
Import Indexer PyDict.
Context {bytes : Type} `{Externals bytes}.
Variable world : World bytes.
Variable data_dir : string.
Variable self : Generator.
Variable item : FulltextCacheItem.
Implicit Types (st : cache_state) (path k : string) (cached : dict string).

(** The only failure of [_get_mtime]: the archive cannot be opened. *)
Lemma get_mtime_raises path e :
  _get_mtime world data_dir item path = Raise e ->
  is_archive (index item) = true /\ e = BadZipFile (Tree.path_join data_dir (index item)).
Proof.
  unfold _get_mtime. destruct (is_archive (index item)); [|done].
  destruct (zipfile world _) as [zh|]; [by destruct (zh path) as [[]|]|].
  by intros [= <-].
Qed.

Lemma dict_get_set_same {V} (d : dict V) k v : get k (set k v d) = Some v.
Proof. by rewrite dict_get_set, String.eqb_refl. Qed.

Lemma dict_get_set_other {V} (d : dict V) k k' v : k <> k' -> get k (set k' v d) = get k d.
Proof. intros Hne. rewrite dict_get_set. by destruct (String.eqb_spec k k'). Qed.

Lemma dict_get_del_same {V} (d : dict V) k : wf d -> get k (del k d) = None.
Proof. intros Hwf. by rewrite dict_get_del, String.eqb_refl. Qed.

Lemma dict_get_del_other {V} (d : dict V) k k' : wf d -> k <> k' -> get k (del k' d) = get k d.
Proof. intros Hwf Hne. rewrite dict_get_del by done. by destruct (String.eqb_spec k k'). Qed.

(** Dropping the text of a path: the entry after it. *)
Lemma drop_cached_step path hu st cached r st' :
  get (id item) (fulltext st) = Some cached -> wf cached ->
  drop_cached item path hu st = Some (r, st') ->
  files_to_update st' = files_to_update st /\
  (exists hu', r = Return hu') /\
  exists cached',
    get (id item) (fulltext st') = Some cached' /\ wf cached' /\
    (forall k, k <> path -> get k cached' = get k cached) /\
    contains path cached' = false.
Proof.
  intros Hget Hwf. rewrite (drop_cached_outcome item path hu st cached Hget).
  destruct (contains path cached) eqn:Hc; intros [= <- <-]; cbn.
  - split; [done|]. split; [by eexists|]. exists (del path cached).
    rewrite dict_get_set_same. split_and!; [done|by apply dict_wf_del| |].
    + intros k Hk. by apply dict_get_del_other.
    + unfold contains. by rewrite dict_get_del_same.
  - split; [done|]. split; [by eexists|]. by exists cached.
Qed.

(** One path of the frontier: what the body of the loop leaves. *)
Lemma handle_path_step fuel path hu st cached r st' :
  get (id item) (fulltext st) = Some cached -> wf cached ->
  is_Some (Frontier.get (files_to_update st) path) ->
  handle_path world data_dir self item fuel path hu st = Some (r, st') ->
  (grows (files_to_update st) (files_to_update st') /\
   (Frontier.wf (files_to_update st) -> Frontier.wf (files_to_update st'))) /\
  exists cached',
    get (id item) (fulltext st') = Some cached' /\ wf cached' /\
    (forall k, k <> path -> get k cached' = get k cached) /\
    match r with
    | Return _ =>
        Frontier.get (files_to_update st') path = Some false /\
        (contains path cached' = true ->
         exists mtime, _get_mtime world data_dir item path = Return (Some mtime))
    | Raise e =>
        is_archive (index item) = true /\
        e = BadZipFile (Tree.path_join data_dir (index item))
    end.
Proof.
  intros Hget Hwf [v Hv]. unfold handle_path. rewrite Hv. destruct v.
  2:{ intros (Hftu & [hu' ->] & cached' & Hget' & Hwf' & Hother & Hgone)%
        (drop_cached_step _ _ _ cached); [|done|done].
      rewrite Hftu. split; [apply adv_refl|]. exists cached'. split_and!; try done.
      by rewrite Hgone. }
  pose proof (adv_settle (files_to_update st) path) as Hsettle.
  assert (Frontier.get (Frontier.__setitem__ (files_to_update st) path false) path
          = Some false) as Hfalse.
  { rewrite get_setitem_frontier. by destruct (decide (path = path)). }
  destruct (_get_mtime world data_dir item path) as [[mtime|]|e] eqn:Hmtime.
  - intros [(c & s1 & Hc & Hk)|(e & Hc & ->)]%bind_Some.
    2:{ apply cached_entry_spec in Hc as [_ Hnone]. cbn in Hnone. congruence. }
    apply cached_entry_spec in Hc as [-> Hget1]. cbn [fulltext set_frontier] in Hget1.
    assert (c = cached) as -> by congruence.
    destruct (contains path cached && (mtime <=? cache_last_modified self)%Z).
    { injection Hk as <- <-. cbn. split; [done|]. exists cached.
      split_and!; try done. by eexists. }
    apply bind_Some in Hk as [(hu1 & s2 & Hr & Hk)|(e & Hr & ->)].
    2:{ apply report_update_spec in Hr as (_ & _ & [[? _]|(_ & _ & Hnone)]); [done|].
        cbn in Hnone. congruence. }
    apply report_update_spec in Hr as (Hft2 & Hftu2 & _).
    cbn [fulltext files_to_update set_frontier] in Hft2, Hftu2.
    apply bind_Some in Hk as [(text & s3 & Hx & Hk)|(e & Hx & ->)].
    2:{ by apply extract_spec in Hx as (_ & s & ? & _). }
    apply extract_spec in Hx as (Hft3 & _ & _ & res & Hx & _).
    rewrite Hftu2 in Hx. apply get_fulltext_cache_adv in Hx.
    apply bind_Some in Hk as [(u & s4 & Hs & Hk)|(e & Hs & ->)].
    2:{ apply bind_Some in Hs as [(c & s5 & Hc & Hs)|(e' & Hc & _)]; [done|].
        apply cached_entry_spec in Hc as [_ Hnone]. congruence. }
    injection Hk as <- <-.
    apply bind_Some in Hs as [(c & s5 & Hc & Hs)|(e' & Hc & ?)]; [|done].
    apply cached_entry_spec in Hc as [-> Hget3]. injection Hs as _ <-.
    assert (c = cached) as -> by congruence. cbn.
    split; [exact (adv_trans _ _ _ Hsettle Hx)|]. exists (set path text cached).
    rewrite dict_get_set_same. split_and!; [done|by apply dict_wf_set| | |by eexists].
    + intros k Hk. by apply dict_get_set_other.
    + by apply Hx.
  - intros (Hftu & [hu' ->] & cached' & Hget' & Hwf' & Hother & Hgone)%
      (drop_cached_step _ _ _ cached); [|done|done].
    rewrite Hftu. cbn. split; [done|]. exists cached'. split_and!; try done.
    by rewrite Hgone.
  - intros [= <- <-]. cbn. split; [done|]. exists cached.
    apply get_mtime_raises in Hmtime as [? ?]. by split_and!.
Qed.

(** The loop from position [i]: every path before [i] is settled, and has a
    source if it has a text. *)
Lemma handle_loop_settles fuel i hu st cached r st' :
  Frontier.wf (files_to_update st) ->
  get (id item) (fulltext st) = Some cached -> wf cached ->
  (forall j k, (j < i)%nat -> Frontier._keys (files_to_update st) !! j = Some k ->
     Frontier.get (files_to_update st) k = Some false /\
     (contains k cached = true ->
      exists mtime, _get_mtime world data_dir item k = Return (Some mtime))) ->
  handle_loop world data_dir self item fuel i hu st = Some (r, st') ->
  grows (files_to_update st) (files_to_update st') /\
  Frontier.wf (files_to_update st') /\
  exists cached',
    get (id item) (fulltext st') = Some cached' /\ wf cached' /\
    (forall k, k ∉ Frontier._keys (files_to_update st') -> get k cached' = get k cached) /\
    match r with
    | Return _ =>
        forall k, k ∈ Frontier._keys (files_to_update st') ->
          Frontier.get (files_to_update st') k = Some false /\
          (contains k cached' = true ->
           exists mtime, _get_mtime world data_dir item k = Return (Some mtime))
    | Raise e =>
        is_archive (index item) = true /\
        e = BadZipFile (Tree.path_join data_dir (index item))
    end.
Proof.
  revert i hu st cached r st'.
  induction fuel as [|fuel IH]; intros i hu st cached r st' Hwff Hget Hwf Hbefore;
    cbn [handle_loop]; [done|].
  unfold Frontier.__next__.
  destruct (Frontier._keys (files_to_update st) !! i) as [path|] eqn:Hkey.
  - assert (path ∈ Frontier._keys (files_to_update st)) as Hin
      by (by eapply list_elem_of_lookup_2).
    assert (is_Some (Frontier.get (files_to_update st) path)) as Hsome
      by (by apply Hwff).
    intros [(hu1 & st1 & Hp & Hk)|(e & Hp & ->)]%bind_Some.
    + apply (handle_path_step _ _ _ _ cached) in Hp
        as ([Hgrow Hwff1] & cached1 & Hget1 & Hwf1 & Hother & Hfalse & Hsrc);
        [|done|done|done].
      destruct Hgrow as [Hprefix Hstay].
      apply (IH _ _ _ cached1) in Hk
        as ([Hprefix' Hstay'] & Hwff' & cached' & Hget' & Hwf' & Hout & Hr);
        [|by apply Hwff1|done|done|].
      * split; [split; [by etrans|by auto]|]. split; [done|].
        exists cached'. split_and!; try done.
        intros k Hk. rewrite Hout by done. apply Hother. intros ->.
        apply Hk. destruct Hprefix' as [l1 ->]. destruct Hprefix as [l2 ->].
        rewrite !elem_of_app. auto.
      * intros j k Hj Hjk.
        assert (Frontier._keys (files_to_update st) !! j = Some k) as Hjk0.
        { destruct (lookup_lt_is_Some_2 (Frontier._keys (files_to_update st)) j) as [k0 Hk0].
          { apply lookup_lt_Some in Hkey. lia. }
          pose proof (prefix_lookup_Some _ _ _ _ Hk0 Hprefix) as Hk1. congruence. }
        destruct (decide (j = i)) as [->|Hne].
        -- assert (k = path) as -> by congruence. done.
        -- assert (k <> path) as Hkp.
           { intros ->. destruct Hwff as [Hnodup _].
             exact (Hne (NoDup_lookup _ _ _ _ Hnodup Hjk0 Hkey)). }
           destruct (Hbefore j k ltac:(lia) Hjk0) as [Hf Hs].
           split; [by apply Hstay|]. unfold contains. rewrite Hother by done. exact Hs.
    + apply (handle_path_step _ _ _ _ cached) in Hp
        as ([Hgrow Hwff1] & cached1 & Hget1 & Hwf1 & Hother & Harch & He);
        [|done|done|done].
      split; [done|]. split; [by apply Hwff1|]. exists cached1. split_and!; try done.
      intros k Hk. apply Hother. intros ->. apply Hk.
      destruct Hgrow as [[l ->] _]. rewrite elem_of_app. auto.
  - intros [= <- <-]. split; [split; [reflexivity|done]|]. split; [done|].
    exists cached. split_and!; try done.
    intros k [j Hj]%list_elem_of_lookup_1. apply (Hbefore j k); [|done].
    apply lookup_lt_Some in Hj. apply lookup_ge_None in Hkey. lia.
Qed.

End SettleFacts.
(** The extraction of a path only makes the frontier grow, whatever its
    outcome (a text, nothing, or an exception): the paths met so far keep
    their places in the order of iteration, new paths come after them, a
    path that is settled (marked [False]) is never made pending again, and
    the keys stay distinct.  This holds through frames, [meta] refreshes and
    [data:] URLs at any depth. *)
Theorem extraction_only_grows_the_frontier {bytes : Type} (E : Indexer.Externals bytes)
    (world : Indexer.World bytes) (data_dir : string) (fuel : nat)
    (self : Indexer.Generator) (item : Indexer.FulltextCacheItem) (path : string)
    (ftu ftu' : Indexer.frontier) (r : Indexer.outcome (option string)) :
  Indexer._get_fulltext_cache world data_dir fuel self item path ftu = Some (r, ftu') ->
  grows ftu ftu' /\ (Frontier.wf ftu -> Frontier.wf ftu').
Proof. apply get_fulltext_cache_adv. Qed.

Lemma extraction_only_grows_the_frontier_witness :
  let ftu := Frontier.__setitem__ (Indexer.files_to_update sample_framed_state)
               "index.html" false in
  exists ftu',
    Indexer._get_fulltext_cache sample_framed_world "root" 9 (Indexer.mkGenerator true 0)
      sample_framed_item "index.html" ftu
    = Some (Indexer.Return (Some "x in the frame"), ftu') /\
    grows ftu ftu'.
Proof.
  intros ftu.
  destruct (Indexer._get_fulltext_cache sample_framed_world "root" 9
              (Indexer.mkGenerator true 0) sample_framed_item "index.html" ftu)
    as [[r ftu']|] eqn:Hx; [|vm_compute in Hx; discriminate].
  destruct (extraction_only_grows_the_frontier sample_externals sample_framed_world "root" 9
              (Indexer.mkGenerator true 0) sample_framed_item "index.html" ftu ftu' r Hx)
    as [Hgrows _].
  exists ftu'. split; [|exact Hgrows].
  vm_compute in Hx. injection Hx as Hr _. by rewrite <- Hr.
Defined.


(** After the update of a record no text is left for a file that is not
    there.  When [_handle_files_to_update] returns, every path of the
    frontier that has a text in the entry of the record has a source (a
    file, or a member of the archive); the text of a path that is not in the
    frontier is as it was. *)
Theorem handled_texts_have_sources {bytes : Type}
    (E : Indexer.Externals bytes) (world : Indexer.World bytes) (data_dir : string)
    (self : Indexer.Generator) (item : Indexer.FulltextCacheItem) (fuel : nat)
    (st st' : Indexer.cache_state) (cached : PyDict.dict string) :
  Frontier.wf (Indexer.files_to_update st) ->
  PyDict.get (Indexer.id item) (Indexer.fulltext st) = Some cached ->
  PyDict.wf cached ->
  Indexer._handle_files_to_update world data_dir self item fuel st
  = Some (Indexer.Return tt, st') ->
  exists cached',
    PyDict.get (Indexer.id item) (Indexer.fulltext st') = Some cached' /\
    PyDict.wf cached' /\
    (forall k, k ∈ Frontier._keys (Indexer.files_to_update st') ->
       PyDict.contains k cached' = true ->
       exists mtime, Indexer._get_mtime world data_dir item k = Indexer.Return (Some mtime)) /\
    (forall k, k ∉ Frontier._keys (Indexer.files_to_update st') ->
       PyDict.get k cached' = PyDict.get k cached).
Proof.
  intros Hwff Hget Hwf Hrun.
  apply (handle_loop_settles _ _ _ _ _ _ _ _ cached) in Hrun
    as (_ & _ & cached' & Hget' & Hwf' & Hout & Hr); [|done|done|done|intros j k Hj; lia].
  exists cached'. split_and!; try done. intros k Hk. by apply Hr.
Qed.

Lemma sample_framed_state_wf :
  Frontier.wf (Indexer.files_to_update sample_framed_state) /\
  PyDict.wf [("f.html", "old"); ("gone.html", "old")].
Proof.
  split; [apply wf_assign_all, wf_init_dict|].
  apply (bool_decide_unpack _). vm_compute. exact I.
Qed.


Lemma handled_texts_have_sources_witness :
  exists st' cached',
    Indexer._handle_files_to_update sample_framed_world "root" (Indexer.mkGenerator true 0)
      sample_framed_item 9 sample_framed_state
    = Some (Indexer.Return tt, st') /\
    PyDict.get "r" (Indexer.fulltext st') = Some cached' /\
    PyDict.keys cached' = ["index.html"] /\
    forall k, PyDict.contains k cached' = true ->
      exists mtime,
        Indexer._get_mtime sample_framed_world "root" sample_framed_item k
        = Indexer.Return (Some mtime).
Proof.
  destruct (Indexer._handle_files_to_update sample_framed_world "root"
              (Indexer.mkGenerator true 0) sample_framed_item 9 sample_framed_state)
    as [[r st']|] eqn:Hrun; [|vm_compute in Hrun; discriminate].
  assert (r = Indexer.Return tt) as ->.
  { vm_compute in Hrun. by injection Hrun as <- _. }
  destruct (handled_texts_have_sources sample_externals sample_framed_world
              "root" (Indexer.mkGenerator true 0) sample_framed_item 9 sample_framed_state st'
              [("f.html", "old"); ("gone.html", "old")]
              (proj1 sample_framed_state_wf) eq_refl (proj2 sample_framed_state_wf) Hrun)
    as (cached' & Hget' & _ & Hin & _).
  vm_compute in Hrun. injection Hrun as Hst. subst st'.
  vm_compute in Hget'. injection Hget' as <-.
  eexists _, _. split; [reflexivity|]. split; [reflexivity|]. split; [reflexivity|].
  intros k Hk. apply Hin; [|exact Hk].
  apply dict_contains_keys in Hk. vm_compute in Hk.
  apply list_elem_of_singleton in Hk as ->. vm_compute. set_solver.
Defined.

Section ShardLayout.
Import Tree PyDict.
Context `{Json} {V : Type}.
Context (self : Book) (name : string) (Hrel : relative_name name).
Context (now threshold : Z) (weigh : V -> Z).
Context (save_file : nat -> dict V -> filesystem -> outcome filesystem).
Context (render : dict V -> string).
Implicit Types (fs : filesystem) (i j : nat) (d : dict V).

Local Abbreviation shard := (get_tree_file self name).

Context (Hsave : forall i d fs, save_file i d fs = save_tree_file now self name i (render d) fs).

Lemma total_weight_app d1 d2 :
  total_weight weigh (d1 ++ d2) = (total_weight weigh d1 + total_weight weigh d2)%Z.
Proof. unfold total_weight. induction d1 as [|kv d1 IH]; cbn; [done|]. rewrite IH. lia. Qed.

Lemma save_file_writes i d fs :
  (forall x mtime, fs !! shard x <> Some (Directory mtime)) ->
  save_file i d fs = Ok (<[shard i := File (render d) now]> fs) /\
  (forall x mtime, <[shard i := File (render d) now]> fs !! shard x <> Some (Directory mtime)).
Proof.
  intros Hdirs. split.
  - rewrite Hsave. unfold save_tree_file.
    destruct (fs !! shard i) as [[t m|m]|] eqn:E; try done. by destruct (Hdirs i m).
  - intros x mtime. destruct (decide (shard x = shard i)) as [->|Hne].
    + by rewrite lookup_insert_eq.
    + rewrite lookup_insert_ne by done. apply Hdirs.
Qed.

(** The loop, from a state whose [size] is [c] more than the weight of the
    pending records: the runs it writes, each full with its last record. *)
Lemma save_loop_layout items i sz pending fs c :
  (forall kv, kv ∈ pending ++ items -> (0 < weigh kv.2)%Z) ->
  NoDup (keys (pending ++ items)) ->
  sz = (c + total_weight weigh pending)%Z ->
  (pending <> [] -> (sz < threshold)%Z) ->
  (forall x mtime, fs !! shard x <> Some (Directory mtime)) ->
  exists i' sz' pending' fs' (chunks : list (dict V)),
    save_loop threshold weigh save_file items i sz pending fs = Ok (i', sz', pending', fs') /\
    i' = i + length chunks /\
    concat chunks ++ pending' = pending ++ items /\
    sz' = ((match chunks with [] => c | _ :: _ => 0 end) + total_weight weigh pending')%Z /\
    (pending' <> [] -> (sz' < threshold)%Z) /\
    (forall n chunk, chunks !! n = Some chunk ->
       fs' !! shard (i + n) = Some (File (render chunk) now) /\
       exists body last,
         chunk = body ++ [last] /\
         (threshold <= (match n with O => c | S _ => 0 end) + total_weight weigh chunk)%Z /\
         (body <> [] ->
          ((match n with O => c | S _ => 0 end) + total_weight weigh body < threshold)%Z)) /\
    (forall path, (forall x, i <= x < i' -> path <> shard x) -> fs' !! path = fs !! path) /\
    (forall x mtime, fs' !! shard x <> Some (Directory mtime)).
Proof.
  revert i sz pending fs c. induction items as [|[id v] items IH];
    intros i sz pending fs c Hpos Hnd Hsz Hunder Hdirs.
  - exists i, sz, pending, fs, []. cbn. rewrite app_nil_r.
    split_and!; try done; lia.
  - cbn [save_loop].
    assert (id ∉ keys pending) as Hfresh.
    { unfold keys in *. rewrite fmap_app in Hnd. apply NoDup_app in Hnd as (_ & Hdis & _).
      intros Hin. apply (Hdis id Hin). cbn. left. }
    rewrite dict_set_fresh by done.
    assert (total_weight weigh (pending ++ [(id, v)])
            = (total_weight weigh pending + weigh v)%Z) as Htotal.
    { rewrite total_weight_app. cbn. lia. }
    destruct (Z.geb_spec (sz + weigh v) threshold) as [Hfull|Hless].
    + destruct (save_file_writes i (pending ++ [(id, v)]) fs Hdirs) as [-> Hdirs1].
      destruct (IH (S i) 0%Z [] (<[shard i := File (render (pending ++ [(id, v)])) now]> fs) 0%Z)
        as (i' & sz' & pending' & fs' & chunks & Hloop & Hi' & Hcat & Hsz' & Hunder' & Hch
            & Hfr & Hdirs');
        [| |done|done|exact Hdirs1|].
      { intros kv Hkv. apply Hpos. rewrite elem_of_app. right. by right. }
      { cbn [app]. unfold keys in *. rewrite fmap_app in Hnd.
        apply NoDup_app in Hnd as (_ & _ & Hnd). cbn in Hnd.
        by apply NoDup_cons in Hnd as [_ ?]. }
      exists i', sz', pending', fs', ((pending ++ [(id, v)]) :: chunks).
      split; [exact Hloop|]. split_and!; try done.
      * cbn [length]. lia.
      * cbn [concat]. rewrite <- !app_assoc. cbn [app] in Hcat. rewrite Hcat. done.
      * rewrite Hsz'. by destruct chunks.
      * intros [|n] chunk Hn.
        -- cbn in Hn. injection Hn as <-. rewrite Nat.add_0_r. split.
           ++ rewrite Hfr; [apply lookup_insert_eq|].
              intros x Hx Heq. apply get_tree_file_inj in Heq; [lia|done].
           ++ exists pending, (id, v). split; [done|]. rewrite Htotal. split; [lia|].
              intros Hne. specialize (Hunder Hne). lia.
        -- cbn in Hn. replace (i + S n) with (S i + n) by lia.
           destruct (Hch n chunk Hn) as [Hfile (body & last & Hchunk & Hreach & Hbefore)].
           split; [done|]. exists body, last. split; [done|].
           destruct n; split; try done; lia.
      * intros path Hpath. rewrite Hfr.
        -- apply lookup_insert_ne. intros Heq. apply (Hpath i); [lia|done].
        -- intros x Hx. apply Hpath. lia.
    + destruct (IH i (sz + weigh v)%Z (pending ++ [(id, v)]) fs c)
        as (i' & sz' & pending' & fs' & chunks & Hloop & Hi' & Hcat & Hsz' & Hunder' & Hch
            & Hfr & Hdirs').
      { intros kv Hkv. apply Hpos. by rewrite <- app_assoc in Hkv. }
      { by rewrite <- app_assoc. }
      { rewrite Htotal. lia. }
      { intros _. lia. }
      { done. }
      exists i', sz', pending', fs', chunks.
      split; [exact Hloop|]. split_and!; try done.
      by rewrite Hcat, <- app_assoc.
Qed.

Lemma total_weight_positive d :
  (forall kv, kv ∈ d -> (0 < weigh kv.2)%Z) -> d <> [] -> (0 < total_weight weigh d)%Z.
Proof.
  intros Hpos Hne.
  assert (forall d', (forall kv, kv ∈ d' -> (0 < weigh kv.2)%Z) ->
                     (0 <= total_weight weigh d')%Z) as Hnonneg.
  { unfold total_weight. induction d' as [|kv d' IH]; intros Hd'; cbn; [lia|].
    assert (0 < weigh kv.2)%Z by (apply Hd'; left).
    assert (0 <= foldr (fun kv size => (weigh kv.2 + size)%Z) 0%Z d')%Z; [|lia].
    apply IH. intros x Hx. apply Hd'. by right. }
  destruct d as [|kv d]; [done|].
  change (0 < weigh kv.2 + total_weight weigh d)%Z.
  assert (0 < weigh kv.2)%Z by (apply Hpos; left).
  assert (0 <= total_weight weigh d)%Z; [|lia].
  apply Hnonneg. intros x Hx. apply Hpos. by right.
Qed.

(** The layout of the shards a save leaves, for records without repeated
    ids, each of which adds to [size], over files among which no directory
    stands at a shard's path. *)
Lemma save_files_layout (data : dict V) fs :
  (forall kv, kv ∈ data -> (0 < weigh kv.2)%Z) ->
  NoDup (keys data) ->
  (forall x mtime, fs !! shard x <> Some (Directory mtime)) ->
  shard_layout self name now threshold weigh render data
    (save_files self name threshold weigh save_file data fs).
Proof.
  intros Hpos Hnd Hdirs. unfold save_files.
  destruct (save_loop_layout data 0 1%Z [] fs 1%Z)
    as (i' & sz' & pending' & fs1 & chunks & Hloop & Hi' & Hcat & Hsz' & Hunder' & Hch
        & Hfr & Hdirs1); [done|done|cbn; lia|done|done|].
  rewrite Hloop. cbn [Nat.add app] in *.
  assert (forall kv, kv ∈ pending' -> (0 < weigh kv.2)%Z) as Hpos'.
  { intros kv Hkv. apply Hpos. rewrite <- Hcat. apply elem_of_app. by right. }
  assert (Hfull : forall n chunk, chunks !! n = Some chunk ->
            exists body last,
              chunk = body ++ [last] /\
              (threshold <= initial_size n + total_weight weigh chunk)%Z /\
              (body <> [] -> (initial_size n + total_weight weigh body < threshold)%Z)).
  { intros n chunk Hn. destruct (Hch n chunk Hn) as [_ Hb]. by destruct n. }
  assert (Hrest : pending' <> [] ->
            (initial_size (length chunks) + total_weight weigh pending' < threshold)%Z).
  { intros Hne. specialize (Hunder' Hne). rewrite Hsz' in Hunder'. by destruct chunks. }
  destruct (Z.eqb_spec sz' 0) as [Hz|Hnz].
  - (* nothing is pending: the last shard written is full *)
    assert (pending' = []) as ->.
    { destruct pending' as [|kv p]; [done|].
      pose proof (total_weight_positive (kv :: p) Hpos' ltac:(done)).
      destruct chunks; lia. }
    assert (chunks <> []) as Hsome by (intros ->; cbn in Hsz'; lia).
    pose proof (remove_unused_spec self name Hrel (S (size fs1)) i' fs1 ltac:(lia)) as Hrem.
    destruct (remove_unused self name (S (size fs1)) i' fs1) as [fs3|e].
    2:{ destruct Hrem as (j & mtime & _ & Hdir & _). by destruct (Hdirs1 j mtime). }
    destruct Hrem as (j & Hj & Hremoved & Hnone & Hfr3).
    exists fs3, chunks, []. rewrite app_nil_r in Hcat. rewrite app_nil_r.
    split_and!; try done.
    + intros n chunk Hn. split; [|by apply Hfull].
      destruct (Hch n chunk Hn) as [Hfile _]. rewrite Hfr3; [done|].
      intros y Hy Heq. apply get_tree_file_inj in Heq; [|done].
      apply lookup_lt_Some in Hn. lia.
    + destruct chunks as [|c0 chunks]; [done|]. rewrite <- Hi'.
      destruct (decide (i' < j)) as [Hlt|Hge].
      * destruct (Hremoved i') as [_ Hgone]; [lia|done].
      * assert (j = i') as -> by lia. rewrite Hfr3; [done|]. intros y Hy. lia.
  - (* the pending records make the last shard *)
    destruct (save_file_writes i' pending' fs1 Hdirs1) as [-> Hdirs2].
    set (fs2 := <[shard i' := File (render pending') now]> fs1) in *.
    pose proof (remove_unused_spec self name Hrel (S (size fs2)) (S i') fs2 ltac:(lia)) as Hrem.
    destruct (remove_unused self name (S (size fs2)) (S i') fs2) as [fs3|e].
    2:{ destruct Hrem as (j & mtime & _ & Hdir & _). by destruct (Hdirs2 j mtime). }
    destruct Hrem as (j & Hj & Hremoved & Hnone & Hfr3).
    assert (fs3 !! shard i' = Some (File (render pending') now)) as Hlast.
    { rewrite Hfr3; [apply lookup_insert_eq|].
      intros y Hy Heq. apply get_tree_file_inj in Heq; [lia|done]. }
    assert (fs3 !! shard (S i') = None) as Hgap.
    { destruct (decide (S i' < j)) as [Hlt|Hge].
      - destruct (Hremoved (S i')) as [_ Hgone]; [lia|done].
      - assert (j = S i') as -> by lia. rewrite Hfr3; [done|]. intros y Hy. lia. }
    exists fs3, chunks, pending'. split_and!; try done.
    + intros n chunk Hn. split; [|by apply Hfull].
      destruct (Hch n chunk Hn) as [Hfile _]. rewrite Hfr3.
      * unfold fs2. rewrite lookup_insert_ne; [done|]. intros Heq.
        apply get_tree_file_inj in Heq; [|done]. apply lookup_lt_Some in Hn. lia.
      * intros y Hy Heq. apply get_tree_file_inj in Heq; [|done].
        apply lookup_lt_Some in Hn. lia.
    + rewrite <- Hi'. destruct chunks as [|c0 chunks]; [done|].
      destruct pending' as [|kv p]; [|done].
      cbn in Hsz'. lia.
Qed.

End ShardLayout.

Section ShardLayoutKinds.
Import Tree PyDict.
Context `{Json}.

(** The layout of the shards.  [save_meta_files] and [save_toc_files], for
    a mapping without repeated ids over files among which no directory
    stands at a shard's path, cut the records in order into shards: a shard
    is closed by the record with which [size] reaches the threshold, where
    [size] starts at 1 for the first shard and at 0 for the others, so the
    first shard takes one unit less; a last shard holds the records left
    under the threshold, and is written also when the mapping is empty but
    not when the records end with a full shard; no shard follows the last
    one written.  [save_fulltext_files] does the same when every record has
    some text. *)
Theorem save_files_shard_layout (now : Z) (self : Book) (fs : filesystem) :
  (forall data : meta_t,
     wf data ->
     (forall i mtime, fs !! get_tree_file self "meta" i <> Some (Directory mtime)) ->
     shard_layout self "meta" now (SAVE_META_THRESHOLD self) meta_weight
       (fun d => EDITABLE_HEADER +:+ "scrapbook.meta(" +:+ json_dumps 2 (meta_to_json d) +:+ ")")
       data (save_meta_files now self data fs)) /\
  (forall data : toc_t,
     wf data ->
     (forall i mtime, fs !! get_tree_file self "toc" i <> Some (Directory mtime)) ->
     shard_layout self "toc" now (SAVE_TOC_THRESHOLD self) toc_weight
       (fun d => EDITABLE_HEADER +:+ "scrapbook.toc(" +:+ json_dumps 2 (toc_to_json d) +:+ ")")
       data (save_toc_files now self data fs)) /\
  (forall data : fulltext_t,
     wf data ->
     Forall (fun kv => (0 < fulltext_weight kv.2)%Z) data ->
     (forall i mtime, fs !! get_tree_file self "fulltext" i <> Some (Directory mtime)) ->
     shard_layout self "fulltext" now (SAVE_FULLTEXT_THRESHOLD self) fulltext_weight
       (fun d => GENERATED_HEADER +:+ "scrapbook.fulltext(" +:+
                 json_dumps 1 (fulltext_to_json d) +:+ ")")
       data (save_fulltext_files now self data fs)).
Proof.
  split_and!.
  - intros data Hwf Hdirs.
    apply (save_files_layout self "meta" relative_meta now (SAVE_META_THRESHOLD self)
             meta_weight (save_meta_file now self)); try done.
  - intros data Hwf Hdirs.
    apply (save_files_layout self "toc" relative_toc now (SAVE_TOC_THRESHOLD self)
             toc_weight (save_toc_file now self)); try done.
    intros kv _. unfold toc_weight. lia.
  - intros data Hwf Hweight Hdirs.
    apply (save_files_layout self "fulltext" relative_fulltext now
             (SAVE_FULLTEXT_THRESHOLD self) fulltext_weight (save_fulltext_file now self));
      try done.
    intros kv Hin. by apply (proj1 (Forall_forall _ _) Hweight).
Qed.

End ShardLayoutKinds.
Lemma save_files_shard_layout_witness :
  shard_layout sample_book "meta" 7 3 Tree.meta_weight
    (fun d => Tree.EDITABLE_HEADER +:+ "scrapbook.meta(" +:+
              @Tree.json_dumps reference_json 2 (Tree.meta_to_json d) +:+ ")")
    sample_meta (@Tree.save_meta_files reference_json 7 sample_book sample_meta ∅).
Proof.
  destruct (@save_files_shard_layout reference_json 7 sample_book ∅) as [Hmeta _].
  apply Hmeta.
  - apply (bool_decide_unpack _). vm_compute. exact I.
  - intros i mtime. by rewrite lookup_empty.
Defined.
(** Frames.  Without [inclusive_frames] a frame is handled exactly as a
    link is: its target becomes pending if it is new, and its text is not
    taken.  With [inclusive_frames], a frame whose target is already settled
    (marked [False]) contributes nothing, so a page is never inlined twice
    and a cycle of frames ends; any other target is marked [False] first and
    extracted at once, its text is appended to the texts of the framing page
    (an exception passes to the framing page), and the target is still
    settled afterwards, so that the loop over the frontier gives it no entry
    of its own. *)
Theorem frame_is_inlined_or_linked {bytes : Type} (E : Indexer.Externals bytes)
    (world : Indexer.World bytes) (data_dir : string) (fuel : nat)
    (self : Indexer.Generator) (item : Indexer.FulltextCacheItem)
    (path : option string) (url : string) (results : list string)
    (ftu : Indexer.frontier) :
  let get_fulltext_cache := Indexer._get_fulltext_cache world data_dir fuel self item in
  let get_fulltext_cache_for_data := fun data mime =>
    Indexer._get_fulltext_cache_for_fh world data_dir fuel self item None data (Some mime) in
  let visit := Indexer.visit_frame get_fulltext_cache get_fulltext_cache_for_data
                 self path url results in
  (Indexer.inclusive_frames self = false ->
   visit ftu = Indexer.visit_link get_fulltext_cache_for_data path url results ftu) /\
  (forall target,
     Indexer.inclusive_frames self = true ->
     String.prefix "data:" url = false ->
     Indexer.get_relative_file_path path url = Some target ->
     Indexer.truthy target = true ->
     (Frontier.get ftu target = Some false ->
      visit ftu = Some (Indexer.Return results, ftu)) /\
     (forall r ftu',
        Frontier.get ftu target <> Some false ->
        get_fulltext_cache target (Frontier.__setitem__ ftu target false) = Some (r, ftu') ->
        visit ftu
        = Some (match r with
                | Indexer.Return text => Indexer.Return (Indexer.append_text results text)
                | Indexer.Raise e => Indexer.Raise e
                end, ftu') /\
        Frontier.get ftu' target = Some false)).
Proof.
  intros gfc gfd visit. split.
  - intros Hexcl. unfold visit, Indexer.visit_frame, Indexer.visit_link. rewrite Hexcl.
    destruct (String.prefix "data:" url); [done|].
    destruct (Indexer.get_relative_file_path path url) as [target|]; [|done].
    unfold Indexer.bind, Indexer.add_pending.
    destruct (Indexer.truthy target); [done|done].
  - intros target Hincl Hdata Htarget Htruthy.
    unfold visit, Indexer.visit_frame. rewrite Hdata, Htarget, Htruthy, Hincl. split.
    + by intros ->.
    + intros r ftu' Hnot Hx. split.
      * unfold Indexer.bind. fold gfc. rewrite Hx.
        destruct (Frontier.get ftu target) as [[|]|]; [|done|]; by destruct r.
      * apply get_fulltext_cache_adv in Hx as [[_ Hstay] _]. apply Hstay.
        rewrite get_setitem_frontier. by destruct (decide (target = target)).
Qed.

Lemma frame_is_inlined_or_linked_witness :
  exists ftu',
    Indexer.visit_frame
      (Indexer._get_fulltext_cache sample_framed_world "root" 5 (Indexer.mkGenerator true 0)
         sample_framed_item)
      (fun data mime =>
         Indexer._get_fulltext_cache_for_fh sample_framed_world "root" 5
           (Indexer.mkGenerator true 0) sample_framed_item None data (Some mime))
      (Indexer.mkGenerator true 0) (Some "index.html") "f.html" ["x"]
      (Indexer.files_to_update sample_framed_state)
    = Some (Indexer.Return ["x"; "in the frame"], ftu') /\
    Frontier.get ftu' "f.html" = Some false.
Proof.
  destruct (Indexer._get_fulltext_cache sample_framed_world "root" 5
              (Indexer.mkGenerator true 0) sample_framed_item "f.html"
              (Frontier.__setitem__ (Indexer.files_to_update sample_framed_state)
                 "f.html" false)) as [[r ftu']|] eqn:Hx; [|vm_compute in Hx; discriminate].
  destruct (frame_is_inlined_or_linked sample_externals sample_framed_world "root" 5
              (Indexer.mkGenerator true 0) sample_framed_item (Some "index.html") "f.html"
              ["x"] (Indexer.files_to_update sample_framed_state)) as [_ Hinline].
  destruct (Hinline "f.html" eq_refl eq_refl eq_refl eq_refl) as [_ Hfresh].
  destruct (Hfresh r ftu' ltac:(vm_compute; discriminate) Hx) as [Hvisit Hsettled].
  exists ftu'. split; [|exact Hsettled].
  rewrite Hvisit. vm_compute in Hx. injection Hx as <- _. reflexivity.
Defined.

Section IsolationFacts.
Import Indexer PyDict.
Context {bytes : Type} `{Externals bytes} `{Tree.Json}.
Variable world : World bytes.
Implicit Types (st : cache_state) (ft : dict (dict string)) (id : string).

Lemma dict_get_del_ne {V} (d : dict V) k k' : k <> k' -> get k (del k' d) = get k d.
Proof.
  intros Hne. induction d as [|[k0 v0] d IH]; cbn; [done|].
  destruct (String.eqb_spec k' k0) as [->|Hne0]; cbn.
  - by destruct (String.eqb_spec k k0).
  - destruct (String.eqb k k0); [done|exact IH].
Qed.

Lemma remove_entry_other id id' st :
  id <> id' -> get id (fulltext (remove_entry id' st)) = get id (fulltext st).
Proof.
  intros Hne. unfold remove_entry. destruct (contains id' (fulltext st)); [|done].
  cbn. by apply dict_get_del_ne.
Qed.

(** The entries of the records that are in [book.meta] are not stale. *)
Lemma remove_stale_keeps meta_ id st :
  contains id meta_ = true ->
  get id (fulltext (remove_stale meta_ st)) = get id (fulltext st).
Proof.
  intros Hin. unfold remove_stale. generalize (keys (fulltext st)). intros ids. revert st.
  induction ids as [|id' ids IH]; intros st; cbn; [done|].
  rewrite IH. destruct (contains id' meta_) eqn:Hc; [done|].
  apply remove_entry_other. intros ->. congruence.
Qed.

(** Indexing a record touches the entry of no other record. *)
Lemma index_record_other fuel data_dir self id id' meta st r st' :
  id <> id' ->
  index_record world fuel data_dir self id' meta st = Some (r, st') ->
  get id (fulltext st') = get id (fulltext st).
Proof.
  intros Hne. unfold index_record.
  destruct (get "index" meta) as [index|];
    [|intros [= <- <-]; by apply remove_entry_other].
  destruct (negb (truthy index)); [intros [= <- <-]; by apply remove_entry_other|].
  destruct (negb (path_exists world _)); [intros [= <- <-]; by apply remove_entry_other|].
  set (item := mkItem id' meta index (Tree.path_join data_dir index)).
  assert (forall s1, get id (fulltext s1) = get id (fulltext st) ->
            forall r1 s2, _handle_files_to_update world data_dir self item fuel s1
                          = Some (r1, s2) ->
            get id (fulltext s2) = get id (fulltext st)) as Hhandle.
  { intros s1 Hs1 r1 s2 Hh.
    apply (handle_loop_kept world data_dir self item
             (fun ft => get id ft = get id (fulltext st))) in Hh; [done| | |done].
    - intros ft cached path Hft _. by rewrite dict_get_set_other.
    - intros ft cached path s Hft _. by rewrite dict_get_set_other. }
  intros [(u & s1 & Hc & Hk)|(e & Hc & ->)]%bind_Some.
  - apply collect_spec in Hc as [_ Hc].
    unfold item in Hc. cbn [fulltext set_frontier Indexer.id] in Hc.
    eapply Hhandle; [|exact Hk].
    destruct (get id' (fulltext st)); rewrite Hc; [done|]. by rewrite dict_get_set_other.
  - apply collect_spec in Hc as [_ Hc].
    unfold item in Hc. cbn [fulltext set_frontier Indexer.id] in Hc.
    destruct (get id' (fulltext st)); rewrite Hc; [done|]. by rewrite dict_get_set_other.
Qed.

Lemma index_records_other fuel data_dir self id records st r st' :
  id ∉ keys records ->
  index_records world fuel data_dir self records st = Some (r, st') ->
  get id (fulltext st') = get id (fulltext st).
Proof.
  revert st. induction records as [|[id' meta] records IH]; intros st Hnin;
    cbn [index_records]; [by intros [= <- <-]|].
  assert (id <> id') as Hne by (intros ->; apply Hnin; left).
  assert (id ∉ keys records) as Hnin' by (intros Hin; apply Hnin; by right).
  intros [(u & s1 & Hr & Hk)|(e & Hr & ->)]%bind_Some.
  - rewrite (IH s1 Hnin' Hk). by eapply index_record_other.
  - by eapply index_record_other.
Qed.

(** The record of an archive that is not newer than the cache: nothing is
    done, and the archive is not opened. *)
Lemma index_record_skips fuel data_dir self id meta index mtime cached st :
  get "index" meta = Some index ->
  truthy index = true ->
  path_exists world (Tree.path_join data_dir index) = true ->
  is_archive (Tree.path_join data_dir index) = true ->
  stat_mtime world (Tree.path_join data_dir index) = Some mtime ->
  (mtime <= cache_last_modified self)%Z ->
  get id (fulltext st) = Some cached ->
  index_record world (S fuel) data_dir self id meta st
  = Some (Return tt, set_frontier Frontier.__init__ st).
Proof.
  intros Hindex Htruthy Hexists Harch Hstat Hle Hget.
  unfold index_record. rewrite Hindex, Htruthy, Hexists. cbn [negb].
  unfold bind, _collect_files_to_update. cbn [fulltext set_frontier Indexer.id indexfile].
  rewrite Hget, Harch, Hstat.
  destruct (Z.leb_spec mtime (cache_last_modified self)); [|lia].
  unfold _handle_files_to_update. by cbn.
Qed.

Lemma index_records_skip fuel data_dir self id meta index mtime cached records st r st' :
  wf records ->
  get id records = Some meta ->
  get "index" meta = Some index ->
  truthy index = true ->
  path_exists world (Tree.path_join data_dir index) = true ->
  is_archive (Tree.path_join data_dir index) = true ->
  stat_mtime world (Tree.path_join data_dir index) = Some mtime ->
  (mtime <= cache_last_modified self)%Z ->
  get id (fulltext st) = Some cached ->
  index_records world fuel data_dir self records st = Some (r, st') ->
  get id (fulltext st') = Some cached.
Proof.
  intros Hwf Hmeta Hindex Htruthy Hexists Harch Hstat Hle. revert st.
  induction records as [|[id' meta'] records IH]; intros st Hget; [done|].
  cbn [index_records]. unfold wf in Hwf. cbn in Hwf. apply NoDup_cons in Hwf as [Hnin Hwf].
  cbn in Hmeta. destruct (String.eqb_spec id id') as [<-|Hne].
  - injection Hmeta as ->.
    intros [(u & s1 & Hr & Hk)|(e & Hr & ->)]%bind_Some.
    + apply index_records_other with (id := id) in Hk; [|done]. rewrite Hk.
      destruct fuel as [|fuel]; [|].
      * unfold index_record in Hr. rewrite Hindex, Htruthy, Hexists in Hr. cbn [negb] in Hr.
        apply bind_Some in Hr as [(u' & s2 & Hc & Hh)|(e & Hc & ?)]; [done|done].
      * rewrite (index_record_skips fuel data_dir self id meta index mtime cached st) in Hr
          by done.
        by injection Hr as _ <-.
    + destruct fuel as [|fuel].
      * unfold index_record in Hr. rewrite Hindex, Htruthy, Hexists in Hr. cbn [negb] in Hr.
        apply bind_Some in Hr as [(u' & s2 & Hc & Hh)|(e' & Hc & ?)]; [done|].
        apply collect_spec in Hc as [_ Hc]. cbn [fulltext set_frontier Indexer.id] in Hc.
        rewrite Hget in Hc. by rewrite Hc.
      * rewrite (index_record_skips fuel data_dir self id meta index mtime cached st) in Hr
          by done.
        done.
  - intros [(u & s1 & Hr & Hk)|(e & Hr & ->)]%bind_Some.
    + apply (IH Hwf Hmeta s1); [|done].
      rewrite (index_record_other _ _ _ _ _ _ _ _ _ Hne Hr). done.
    + rewrite (index_record_other _ _ _ _ _ _ _ _ _ Hne Hr). done.
Qed.

End IsolationFacts.

(** An archive that has not changed is left alone.  When the container of
    a record is an archive that exists and is not newer than the newest
    full-text shard, and the record has a cache entry, a run that returns
    leaves that entry exactly as it was, whatever the other records are:
    nothing of the archive is extracted again.  (The ids of [book.meta] are
    taken without repetition, as Python's dictionaries are.) *)
Theorem run_leaves_unmodified_archive_alone {bytes : Type} (E : Indexer.Externals bytes)
    (J : Tree.Json) (world : Indexer.World bytes) (fuel : nat) (now : Z)
    (book book' : Tree.Book) (fs fs' : gmap string Tree.node) (inclusive_frames : bool)
    (evs : list Indexer.Info) (meta_ orig : PyDict.dict (PyDict.dict string))
    (id index : string) (meta cached : PyDict.dict string) (mtime : Z) :
  Indexer.run world fuel now book fs inclusive_frames
  = Some (evs, Indexer.Return (book', fs')) ->
  meta_before book fs = Indexer.Return meta_ ->
  fulltext_before book fs = Indexer.Return orig ->
  PyDict.wf meta_ ->
  PyDict.get id meta_ = Some meta ->
  PyDict.get "index" meta = Some index ->
  Indexer.truthy index = true ->
  Indexer.path_exists world (Tree.path_join (Tree.data_dir book) index) = true ->
  Indexer.is_archive (Tree.path_join (Tree.data_dir book) index) = true ->
  Indexer.stat_mtime world (Tree.path_join (Tree.data_dir book) index) = Some mtime ->
  (mtime <= Indexer.newest_fulltext_file book fs)%Z ->
  PyDict.get id orig = Some cached ->
  exists ft', Tree.fulltext book' = Some ft' /\ PyDict.get id ft' = Some cached.
Proof.
  intros Hrun Hmeta Horig Hwf Hid Hindex Htruthy Hexists Harch Hstat Hle Hcached.
  apply run_returns in Hrun
    as (book1 & meta' & orig' & st' & _ & _ & _ & Hmeta' & Horig' & Hrec & -> & _).
  rewrite Hmeta in Hmeta'. injection Hmeta' as <-.
  rewrite Horig in Horig'. injection Horig' as <-.
  exists (Indexer.fulltext st'). split; [done|].
  eapply (index_records_skip world) in Hrec; try done.
  rewrite remove_stale_keeps; [done|]. unfold PyDict.contains. by rewrite Hid.
Qed.

Lemma run_leaves_unmodified_archive_alone_witness :
  exists evs book' fs' ft',
    @Indexer.run _ sample_externals reference_json sample_archive_world 3 100
      sample_archive_book sample_archive_files true
    = Some (evs, Indexer.Return (book', fs')) /\
    Tree.fulltext book' = Some ft' /\
    PyDict.get "a" ft' = Some [("index.html", "old text")].
Proof.
  destruct (@Indexer.run _ sample_externals reference_json sample_archive_world 3 100
              sample_archive_book sample_archive_files true)
    as [[evs [[book' fs']|e]]|] eqn:Hrun;
    [|run_returned Hrun|run_returned Hrun].
  destruct (run_leaves_unmodified_archive_alone sample_externals reference_json
              sample_archive_world 3 100 sample_archive_book book' sample_archive_files fs'
              true evs [("a", [("index", "a.htz")])] [("a", [("index.html", "old text")])]
              "a" "a.htz" [("index", "a.htz")] [("index.html", "old text")] 5%Z
              Hrun eq_refl eq_refl)
    as (ft' & Hft & Hget); try reflexivity.
  { apply (bool_decide_unpack _). vm_compute. exact I. }
  { vm_compute. discriminate. }
  exists evs, book', fs', ft'. exact (conj eq_refl (conj Hft Hget)).
Defined.
Section WalkFacts.
Import Indexer.
Context {bytes : Type} `{Externals bytes}.
Variable get_fulltext_cache : string -> extraction (option string).
Variable get_fulltext_cache_for_data : bytes -> string -> extraction (option string).
Variable self : Generator.
Variable path : option string.

Local Abbreviation walk_page :=
  (walk get_fulltext_cache get_fulltext_cache_for_data self path).

(** While [elem] is on the exclusion stack, the events inside it are passed
    over. *)
Lemma walk_inside elem inner rest results ftu :
  forallb (inside_of elem) inner = true ->
  walk_page (inner ++ rest) [elem_id elem] results ftu
  = walk_page rest [elem_id elem] results ftu.
Proof.
  induction inner as [|ev inner IH]; [done|]. cbn [forallb].
  intros [Hev Hinner]%andb_true_iff. cbn [app].
  destruct ev as [e text|e text|what]; [| |done].
  - cbn [walk]. by apply IH.
  - cbn [walk rev app]. cbn in Hev. apply negb_true_iff in Hev. rewrite Hev. by apply IH.
Qed.

Lemma excluded_is_no_link t :
  in_tags t FULLTEXT_EXCLUDE_TAGS = true -> in_tags t ["a"; "area"] = false.
Proof.
  unfold in_tags. intros (x & Hx & Heq)%existsb_exists.
  apply String.eqb_eq in Heq. subst x.
  repeat (destruct Hx as [<-|Hx]; [reflexivity|]). destruct Hx.
Qed.

End WalkFacts.

(** What is inside an excluded element is not indexed.  For an element
    whose tag is in [FULLTEXT_EXCLUDE_TAGS] ([title], [style], [script],
    ...), met while no exclusion is in force, the walk goes on exactly as if
    the element were empty: the texts inside it are not collected and the
    links and frames inside it are not followed, up to its own end event.
    When the element is not itself a frame, all it contributes is the text
    that precedes it. *)
Theorem excluded_content_is_skipped {bytes : Type} (E : Indexer.Externals bytes)
    (get_fulltext_cache : string -> Indexer.extraction (option string))
    (get_fulltext_cache_for_data : bytes -> string -> Indexer.extraction (option string))
    (self : Indexer.Generator) (path : option string) (elem : Indexer.element)
    (before inside : option string) (inner rest : list Indexer.parse_event)
    (results : list string) (ftu : Indexer.frontier) :
  Indexer.in_tags (Indexer.tag elem) Indexer.FULLTEXT_EXCLUDE_TAGS = true ->
  forallb (inside_of elem) inner = true ->
  let walk := Indexer.walk get_fulltext_cache get_fulltext_cache_for_data self path in
  walk (Indexer.EvStart elem before :: inner ++ Indexer.EvEnd elem inside :: rest)
       [] results ftu
  = walk (Indexer.EvStart elem before :: Indexer.EvEnd elem inside :: rest) [] results ftu /\
  (Indexer.in_tags (Indexer.tag elem) ["iframe"; "frame"] = false ->
   walk (Indexer.EvStart elem before :: inner ++ Indexer.EvEnd elem inside :: rest)
        [] results ftu
   = walk rest [] (Indexer.append_text results before) ftu).
Proof.
  intros Hexcl Hinner walk.
  assert (forall results' ftu',
            walk (inner ++ Indexer.EvEnd elem inside :: rest) [Indexer.elem_id elem]
                 results' ftu'
            = walk rest [] results' ftu') as Hskip.
  { intros results' ftu'. unfold walk. rewrite walk_inside by done.
    cbn [Indexer.walk rev app]. by rewrite Nat.eqb_refl. }
  split.
  - unfold walk. cbn [Indexer.walk]. rewrite Hexcl. cbn [app].
    unfold Indexer.bind.
    match goal with |- match ?v ftu with _ => _ end = _ => destruct (v ftu) as [[[r|e] s]|] end;
      [|done|done].
    fold walk. rewrite Hskip. unfold walk. cbn [Indexer.walk rev app].
    by rewrite Nat.eqb_refl.
  - intros Hframe. unfold walk. cbn [Indexer.walk].
    rewrite Hexcl, Hframe, (excluded_is_no_link _ Hexcl). cbn [app].
    unfold Indexer.bind, Indexer.ret. fold walk. apply Hskip.
Qed.

Lemma excluded_content_is_skipped_witness :
  let script := sample_elem 1 "script" "type" "text/javascript" in
  let link := sample_elem 2 "a" "href" "b.html" in
  Indexer.walk
    (Indexer._get_fulltext_cache sample_framed_world "root" 5 (Indexer.mkGenerator true 0)
       sample_framed_item)
    (fun data mime =>
       Indexer._get_fulltext_cache_for_fh sample_framed_world "root" 5
         (Indexer.mkGenerator true 0) sample_framed_item None data (Some mime))
    (Indexer.mkGenerator true 0) (Some "index.html")
    (Indexer.EvStart script (Some "shown")
     :: [Indexer.EvStart link (Some "code"); Indexer.EvEnd link (Some "more code")]
     ++ Indexer.EvEnd script (Some "last code") :: [])
    [] [] Frontier.__init__
  = Some (Indexer.Return ["shown"], Frontier.__init__).
Proof.
  intros script link.
  destruct (excluded_content_is_skipped sample_externals
              (Indexer._get_fulltext_cache sample_framed_world "root" 5
                 (Indexer.mkGenerator true 0) sample_framed_item)
              (fun data mime =>
                 Indexer._get_fulltext_cache_for_fh sample_framed_world "root" 5
                   (Indexer.mkGenerator true 0) sample_framed_item None data (Some mime))
              (Indexer.mkGenerator true 0) (Some "index.html") script
              (Some "shown") (Some "last code")
              [Indexer.EvStart link (Some "code"); Indexer.EvEnd link (Some "more code")]
              [] [] Frontier.__init__ eq_refl eq_refl) as [_ Hskip].
  rewrite Hskip; reflexivity.
Defined.
Section DataPageFacts.
Import Indexer.
Context {bytes : Type} `{Externals bytes}.

Section PageWithoutPath.
Variable get_fulltext_cache : string -> extraction (option string).
Variable get_fulltext_cache_for_data : bytes -> string -> extraction (option string).
Hypothesis Hdata : forall data mime ftu r ftu',
  get_fulltext_cache_for_data data mime ftu = Some (r, ftu') -> ftu' = ftu.
Variable self : Generator.
Variable item : FulltextCacheItem.

Lemma add_datauri_content_same url results ftu r ftu' :
  add_datauri_content get_fulltext_cache_for_data url results ftu = Some (r, ftu') ->
  ftu' = ftu.
Proof.
  unfold add_datauri_content. destruct (parse_datauri url) as [[data mime]|].
  - intros [(a & s1 & Hm & Hk)|(e & Hm & _)]%bind_Some.
    + injection Hk as _ <-. by eapply Hdata.
    + by eapply Hdata.
  - by intros [= _ <-].
Qed.

Lemma meta_refresh_loop_same refreshes results instant ftu r ftu' :
  meta_refresh_loop get_fulltext_cache_for_data None refreshes results instant ftu
  = Some (r, ftu') ->
  ftu' = ftu.
Proof.
  revert results instant ftu.
  induction refreshes as [|[time url] rest IH]; intros results instant ftu;
    cbn [meta_refresh_loop].
  - by intros [= _ <-].
  - destruct url as [u|]; [|apply IH].
    destruct (truthy u); [|apply IH].
    destruct (String.prefix "data:" u).
    + intros [(a & s1 & Hm & Hk)|(e & Hm & _)]%bind_Some.
      * apply add_datauri_content_same in Hm as ->. by eapply IH.
      * by eapply add_datauri_content_same.
    + cbn. apply IH.
Qed.

Lemma walk_same parse_events exclusion_stack results ftu r ftu' :
  walk get_fulltext_cache get_fulltext_cache_for_data self None
       parse_events exclusion_stack results ftu = Some (r, ftu') ->
  ftu' = ftu.
Proof.
  revert exclusion_stack results ftu.
  induction parse_events as [|ev rest IH]; intros stack results ftu; cbn [walk].
  - by intros [= _ <-].
  - destruct ev as [elem text|elem text|what].
    + destruct stack as [|top stack]; [|apply IH].
      intros [(a & s1 & Hm & Hk)|(e & Hm & _)]%bind_Some.
      * assert (s1 = ftu) as ->.
        { destruct (in_tags (tag elem) ["a"; "area"]).
          { destruct (PyDict.get "href" (attrib elem)) as [url|]; [|by injection Hm as _ <-].
            unfold visit_link in Hm. destruct (String.prefix "data:" url).
            - by eapply add_datauri_content_same.
            - cbn in Hm. by injection Hm as _ <-. }
          destruct (in_tags (tag elem) ["iframe"; "frame"]); [|by injection Hm as _ <-].
          destruct (PyDict.get "src" (attrib elem)) as [url|]; [|by injection Hm as _ <-].
          unfold visit_frame in Hm. destruct (String.prefix "data:" url).
          - by eapply add_datauri_content_same.
          - cbn in Hm. by injection Hm as _ <-. }
        destruct (in_tags (tag elem) FULLTEXT_EXCLUDE_TAGS); by eapply IH.
      * destruct (in_tags (tag elem) ["a"; "area"]).
        { destruct (PyDict.get "href" (attrib elem)) as [url|]; [|done].
          unfold visit_link in Hm. destruct (String.prefix "data:" url); [|done].
          by eapply add_datauri_content_same. }
        destruct (in_tags (tag elem) ["iframe"; "frame"]); [|done].
        destruct (PyDict.get "src" (attrib elem)) as [url|]; [|done].
        unfold visit_frame in Hm. destruct (String.prefix "data:" url); [|done].
        by eapply add_datauri_content_same.
    + apply IH.
    + by intros [= _ <-].
Qed.

Lemma for_fh_same fh mime ftu r ftu' :
  for_fh get_fulltext_cache get_fulltext_cache_for_data self item None fh mime ftu
  = Some (r, ftu') ->
  ftu' = ftu.
Proof.
  unfold for_fh. destruct mime as [m|]; [|by intros [= _ <-]].
  destruct (negb (truthy m)); [by intros [= _ <-]|].
  destruct (mime_is_html (Some m)).
  - unfold _get_fulltext_cache_html.
    destruct (iter_meta_refresh fh) as [refreshes|e]; [|by intros [= _ <-]].
    intros [(a & s1 & Hm & Hk)|(e & Hm & _)]%bind_Some;
      [|by eapply meta_refresh_loop_same].
    apply meta_refresh_loop_same in Hm as ->.
    destruct a as [results [|]].
    + destruct results; by injection Hk as _ <-.
    + apply bind_Some in Hk as [(a & s2 & Hw & Hk)|(e & Hw & _)].
      * injection Hk as _ <-. by eapply walk_same.
      * by eapply walk_same.
  - destruct (String.prefix "text/" m); [|by intros [= _ <-]].
    unfold _get_fulltext_cache_txt.
    destruct (decode fh _); by intros [= _ <-].
Qed.

End PageWithoutPath.

Variable world : World bytes.
Variable data_dir : string.

Lemma get_fulltext_cache_for_data_same fuel self item fh mime ftu r ftu' :
  _get_fulltext_cache_for_fh world data_dir fuel self item None fh mime ftu = Some (r, ftu') ->
  ftu' = ftu.
Proof.
  revert fh mime ftu r ftu'. induction fuel as [|fuel IH]; intros fh mime ftu r ftu'; [done|].
  cbn [_get_fulltext_cache_for_fh]. apply for_fh_same.
  intros data mime'. apply IH.
Qed.

End DataPageFacts.

(** A page given as a [data:] URL adds nothing to the frontier.  The
    extraction of a page without a path (the content of a [data:] URL, met
    in a link, a frame or a [meta] refresh) leaves the frontier exactly as
    it was, whatever its outcome and however deep [data:] URLs are nested in
    it: its links and frames cannot be resolved and are not followed.  So
    the content of a [data:] URL in a page can only add its text to the text
    of that page. *)
Theorem data_url_page_leaves_the_frontier {bytes : Type} (E : Indexer.Externals bytes)
    (world : Indexer.World bytes) (data_dir : string) (fuel : nat)
    (self : Indexer.Generator) (item : Indexer.FulltextCacheItem)
    (fh : bytes) (mime : option string) (url : string) (results : list string)
    (ftu : Indexer.frontier) :
  (forall r ftu',
     Indexer._get_fulltext_cache_for_fh world data_dir fuel self item None fh mime ftu
     = Some (r, ftu') ->
     ftu' = ftu) /\
  (forall r ftu',
     Indexer.add_datauri_content
       (fun data mime =>
          Indexer._get_fulltext_cache_for_fh world data_dir fuel self item None data (Some mime))
       url results ftu = Some (r, ftu') ->
     ftu' = ftu /\
     match r with
     | Indexer.Return results' =>
         results' = results \/ exists text, results' = results ++ [text]
     | Indexer.Raise _ => True
     end).
Proof.
  split.
  - intros r ftu'. apply get_fulltext_cache_for_data_same.
  - intros r ftu' Hadd. split.
    + revert Hadd. apply add_datauri_content_same.
      intros data mime'. apply get_fulltext_cache_for_data_same.
    + unfold Indexer.add_datauri_content in Hadd.
      destruct (Indexer.parse_datauri url) as [[data mime']|].
      * apply bind_Some in Hadd as [(a & s1 & _ & Hk)|(e & _ & ->)]; [|done].
        injection Hk as <- _. unfold Indexer.append_text.
        destruct a as [t|]; [|by left]. destruct (Indexer.truthy t); [right; by eexists|by left].
      * injection Hadd as <- _. by left.
Qed.

Lemma data_url_page_leaves_the_frontier_witness :
  Indexer._get_fulltext_cache_for_fh sample_framed_world "root" 5 (Indexer.mkGenerator true 0)
    sample_framed_item None (sample_html "x" [("iframe", "src", "f.html")]) (Some "text/html")
    Frontier.__init__
  = Some (Indexer.Return (Some "x"), Frontier.__init__).
Proof.
  destruct (Indexer._get_fulltext_cache_for_fh sample_framed_world "root" 5
              (Indexer.mkGenerator true 0) sample_framed_item None
              (sample_html "x" [("iframe", "src", "f.html")]) (Some "text/html")
              Frontier.__init__) as [[r ftu']|] eqn:Hx; [|vm_compute in Hx; discriminate].
  destruct (data_url_page_leaves_the_frontier sample_externals sample_framed_world "root" 5
              (Indexer.mkGenerator true 0) sample_framed_item
              (sample_html "x" [("iframe", "src", "f.html")]) (Some "text/html") "" []
              Frontier.__init__) as [Hsame _].
  rewrite (Hsame r ftu' Hx). f_equal. f_equal.
  vm_compute in Hx. by injection Hx as <- _.
Defined.
